(** * CPC-Scoreboard: the blind-hour reveal engine, the ranking and the clock

    A shallow embedding of the core of [frontend/js/app.js]: the contest
    clock ([updateTimerDisplay]), the ranking ([recalcRanks]), the step-mode
    reveal ([nextSubmission]), the batch reveal ([revealAll]) and the awards
    gates ([finishReveal], [showAwards]).

    Conventions of the embedding.
    - JavaScript numbers are modelled by [Z]: every number the engine
      handles is an integer count of seconds, minutes, ranks or attempts,
      and [Math.floor (x / 60)] on such a number is [x `div` 60].
    - The array [state] holds object references.  A reference is modelled by
      the position of the object in [state]; the array is never reordered,
      only copies of it are sorted, so positions are stable identities.
    - [probs] and [submissionCounts] are JavaScript objects used as maps
      from strings: [gmap string _].
    - DOM updates, sounds, toasts and sleeps carry no core state and are
      left out; every [await] of [nextSubmission] is a boundary between two
      segments of the embedding. *)

From stdpp Require Import gmap strings list fin_maps sorting pretty.
From Stdlib Require Import ZArith Lia.

Open Scope Z_scope.

(** ** Data model *)

(** A cell of [probs].  The accepted cell [{ solved: true, time }] has no
    [failed] field; the field is only ever read for truthiness
    ([c.probs[i]?.failed]), so the absent field is [false]. *)
Module Cell.
Record t := mk { solved : bool; failed : bool; time : Z }.
End Cell.

Module Contestant.
Record t := mk {
    handle : string;
    freezeRank : Z;
    freezeSolvedCount : Z;
    freezePenalty : Z;
    rank : Z;
    solved : Z;
    penalty : Z;
    probs : gmap string Cell.t;
    delta : Z
  }.

Definition set_probs (p : gmap string Cell.t) (c : t) : t :=
    mk (handle c) (freezeRank c) (freezeSolvedCount c) (freezePenalty c)
       (rank c) (solved c) (penalty c) p (delta c).
Definition set_solved (n : Z) (c : t) : t :=
    mk (handle c) (freezeRank c) (freezeSolvedCount c) (freezePenalty c)
       (rank c) n (penalty c) (probs c) (delta c).
Definition set_penalty (n : Z) (c : t) : t :=
    mk (handle c) (freezeRank c) (freezeSolvedCount c) (freezePenalty c)
       (rank c) (solved c) n (probs c) (delta c).
Definition set_rank (n : Z) (c : t) : t :=
    mk (handle c) (freezeRank c) (freezeSolvedCount c) (freezePenalty c)
       n (solved c) (penalty c) (probs c) (delta c).
Definition set_delta (n : Z) (c : t) : t :=
    mk (handle c) (freezeRank c) (freezeSolvedCount c) (freezePenalty c)
       (rank c) (solved c) (penalty c) (probs c) n.
End Contestant.

(** An entry of [data.blindHourSubmissions].  [wrongAttemptsBefore] may be
    missing from the JSON, hence the option. *)
Module Submission.
Record t := mk {
    handle : string;
    problemIndex : string;
    problemName : string;
    verdict : string;
    relativeTimeSec : Z;
    wrongAttemptsBefore : option Z
  }.
End Submission.

(** [let mvp = { handle: '', delta: 0 }] *)
Module Mvp.
Record t := mk { handle : string; delta : Z }.
Definition init : t := mk "" 0.
End Mvp.

(** [let lastMinuteHero = { handle: '', problemIndex: '', problemName: '', time: 0 }] *)
Module Hero.
Record t := mk {
    handle : string; problemIndex : string; problemName : string; time : Z }.
Definition init : t := mk "" "" "" 0.
End Hero.

(** [let mostPersistent = { handle: '', problemIndex: '', problemName: '', count: 0 }] *)
Module Persistent.
Record t := mk {
    handle : string; problemIndex : string; problemName : string; count : Z }.
Definition init : t := mk "" "" "" 0.
End Persistent.

(** The module-level variables of the reveal engine. *)
Record Reveal := mkReveal {
  state : list Contestant.t;
  queue : list Submission.t;
  revealed : Z;
  acceptedCount : Z;
  rankChangeCount : Z;
  processing : bool;
  mvp : Mvp.t;
  lastMinuteHero : Hero.t;
  submissionCounts : gmap string Z;
  mostPersistent : Persistent.t;
  revealFinished : bool
}.

Definition set_state (x : list Contestant.t) (r : Reveal) : Reveal :=
  mkReveal x (queue r) (revealed r) (acceptedCount r) (rankChangeCount r)
    (processing r) (mvp r) (lastMinuteHero r) (submissionCounts r)
    (mostPersistent r) (revealFinished r).
Definition set_queue (x : list Submission.t) (r : Reveal) : Reveal :=
  mkReveal (state r) x (revealed r) (acceptedCount r) (rankChangeCount r)
    (processing r) (mvp r) (lastMinuteHero r) (submissionCounts r)
    (mostPersistent r) (revealFinished r).
Definition set_revealed (x : Z) (r : Reveal) : Reveal :=
  mkReveal (state r) (queue r) x (acceptedCount r) (rankChangeCount r)
    (processing r) (mvp r) (lastMinuteHero r) (submissionCounts r)
    (mostPersistent r) (revealFinished r).
Definition set_acceptedCount (x : Z) (r : Reveal) : Reveal :=
  mkReveal (state r) (queue r) (revealed r) x (rankChangeCount r)
    (processing r) (mvp r) (lastMinuteHero r) (submissionCounts r)
    (mostPersistent r) (revealFinished r).
Definition set_rankChangeCount (x : Z) (r : Reveal) : Reveal :=
  mkReveal (state r) (queue r) (revealed r) (acceptedCount r) x
    (processing r) (mvp r) (lastMinuteHero r) (submissionCounts r)
    (mostPersistent r) (revealFinished r).
Definition set_processing (x : bool) (r : Reveal) : Reveal :=
  mkReveal (state r) (queue r) (revealed r) (acceptedCount r)
    (rankChangeCount r) x (mvp r) (lastMinuteHero r) (submissionCounts r)
    (mostPersistent r) (revealFinished r).
Definition set_mvp (x : Mvp.t) (r : Reveal) : Reveal :=
  mkReveal (state r) (queue r) (revealed r) (acceptedCount r)
    (rankChangeCount r) (processing r) x (lastMinuteHero r)
    (submissionCounts r) (mostPersistent r) (revealFinished r).
Definition set_lastMinuteHero (x : Hero.t) (r : Reveal) : Reveal :=
  mkReveal (state r) (queue r) (revealed r) (acceptedCount r)
    (rankChangeCount r) (processing r) (mvp r) x (submissionCounts r)
    (mostPersistent r) (revealFinished r).
Definition set_submissionCounts (x : gmap string Z) (r : Reveal) : Reveal :=
  mkReveal (state r) (queue r) (revealed r) (acceptedCount r)
    (rankChangeCount r) (processing r) (mvp r) (lastMinuteHero r) x
    (mostPersistent r) (revealFinished r).
Definition set_mostPersistent (x : Persistent.t) (r : Reveal) : Reveal :=
  mkReveal (state r) (queue r) (revealed r) (acceptedCount r)
    (rankChangeCount r) (processing r) (mvp r) (lastMinuteHero r)
    (submissionCounts r) x (revealFinished r).
Definition set_revealFinished (x : bool) (r : Reveal) : Reveal :=
  mkReveal (state r) (queue r) (revealed r) (acceptedCount r)
    (rankChangeCount r) (processing r) (mvp r) (lastMinuteHero r)
    (submissionCounts r) (mostPersistent r) x.

(** ** Ranking *)

(** [const WA_PENALTY_MINUTES = 20;] *)
Definition WA_PENALTY_MINUTES : Z := 20.

(** The comparator of [recalcRanks]:
    [(a, b) => b.solved !== a.solved ? b.solved - a.solved : a.penalty - b.penalty]. *)
Definition compareFn (a b : Contestant.t) : Z :=
  if bool_decide (Contestant.solved b ≠ Contestant.solved a)
  then Contestant.solved b - Contestant.solved a
  else Contestant.penalty a - Contestant.penalty b.

(** [[...state]]: the copy holds, for each position, the reference and the
    object it designates at the time of the sort. *)
Definition spread (st : list Contestant.t) : list (nat * Contestant.t) :=
  imap pair st.

(** [Array.prototype.sort] is stable (ECMAScript 2019) and [compareFn] is a
    consistent comparator on integers, so the result is the one stable
    ordering; it is computed here by a stable insertion sort.  An element
    goes before the first one it does not compare greater than. *)
Fixpoint sort_insert (x : nat * Contestant.t) (l : list (nat * Contestant.t))
  : list (nat * Contestant.t) :=
  match l with
  | [] => [x]
  | y :: l' =>
      if bool_decide (compareFn x.2 y.2 ≤ 0) then x :: y :: l'
      else y :: sort_insert x l'
  end.

Definition sort (l : list (nat * Contestant.t)) : list (nat * Contestant.t) :=
  foldr sort_insert [] l.

(** [c.rank = i + 1; c.delta = c.freezeRank - c.rank;] *)
Definition assign_rank (i : nat) (c : Contestant.t) : Contestant.t :=
  let c1 := Contestant.set_rank (Z.of_nat i + 1) c in
  Contestant.set_delta (Contestant.freezeRank c1 - Contestant.rank c1) c1.

(** [sorted.forEach((c, i) => { ... })]: the callback mutates, through the
    reference, the object that [state] holds too. *)
Definition forEach_assign (refs : list nat) (st : list Contestant.t)
  : list Contestant.t :=
  (foldl (λ (acc : list Contestant.t * nat) (r : nat),
            (alter (assign_rank acc.2) r acc.1, S acc.2))
         (st, 0%nat) refs).1.

Definition sorted_refs (st : list Contestant.t) : list nat :=
  (sort (spread st)).*1.

Definition recalcRanks (st : list Contestant.t) : list Contestant.t :=
  forEach_assign (sorted_refs st) st.

(** ** The reveal engine: shared pieces *)

(** [state.find(x => x.handle === sub.handle)]: the first object with that
    handle, as a reference together with its current content. *)
Definition find_contestant (h : string) (st : list Contestant.t)
  : option (nat * Contestant.t) :=
  list_find (λ x, Contestant.handle x = h) st.

(** [sub.verdict === 'OK'] *)
Definition is_OK (sub : Submission.t) : bool :=
  bool_decide (Submission.verdict sub = "OK").

(** [sub.handle + '|' + sub.problemIndex] *)
Definition count_key (h p : string) : string := h +:+ "|" +:+ p.

(** The persistence tracking, written twice in the source with the same
    effect: [submissionCounts[key] = (submissionCounts[key] || 0) + 1] and
    the update of [mostPersistent] when the new count is greater. *)
Definition track_persistence (sub : Submission.t) (r : Reveal) : Reveal :=
  let key := count_key (Submission.handle sub) (Submission.problemIndex sub) in
  let thisCount := default 0 (submissionCounts r !! key) + 1 in
  let r1 := set_submissionCounts (<[key := thisCount]> (submissionCounts r)) r in
  if bool_decide (thisCount > Persistent.count (mostPersistent r1))
  then set_mostPersistent
         (Persistent.mk (Submission.handle sub) (Submission.problemIndex sub)
            (Submission.problemName sub) thisCount) r1
  else r1.

(** [sub.wrongAttemptsBefore || 0] *)
Definition waBefore (sub : Submission.t) : Z :=
  default 0 (Submission.wrongAttemptsBefore sub).

(** [Math.floor(sub.relativeTimeSec / 60) + WA_PENALTY_MINUTES * waBefore] *)
Definition penaltyDelta (sub : Submission.t) : Z :=
  Submission.relativeTimeSec sub `div` 60 + WA_PENALTY_MINUTES * waBefore sub.

(** The three writes of the accepted branch, on the object [c]:
    [c.probs[sub.problemIndex] = { solved: true, time: sub.relativeTimeSec };
     c.solved++; c.penalty += ...]. *)
Definition score_accepted (sub : Submission.t) (c : Contestant.t) : Contestant.t :=
  let c1 :=
    Contestant.set_probs
      (<[Submission.problemIndex sub :=
           Cell.mk true false (Submission.relativeTimeSec sub)]>
         (Contestant.probs c)) c in
  let c2 := Contestant.set_solved (Contestant.solved c1 + 1) c1 in
  Contestant.set_penalty (Contestant.penalty c2 + penaltyDelta sub) c2.

(** [c.probs[i]?.solved], read for truthiness. *)
Definition cell_solved (c : Contestant.t) (i : string) : bool :=
  match Contestant.probs c !! i with
  | Some cell => Cell.solved cell
  | None => false
  end.

(** The rejected branch:
    [if (!c.probs[sub.problemIndex]?.solved)
       c.probs[sub.problemIndex] = { solved: false, failed: true, time: 0 };] *)
Definition mark_failed (sub : Submission.t) (c : Contestant.t) : Contestant.t :=
  if cell_solved c (Submission.problemIndex sub) then c
  else Contestant.set_probs
         (<[Submission.problemIndex sub := Cell.mk false true 0]>
            (Contestant.probs c)) c.

(** [finishReveal]: of its effects only [revealFinished = true] is core
    state; the MVP banner it may show is [mvp_section] below. *)
Definition finishReveal (r : Reveal) : Reveal := set_revealFinished true r.

(** A non-empty string is truthy. *)
Definition truthy (s : string) : bool := bool_decide (s ≠ "").

(** ** Step mode *)

Global Instance Contestant_inhabited : Inhabited Contestant.t :=
  populate (Contestant.mk "" 0 0 0 0 0 0 ∅ 0).

(** The suspension points of [nextSubmission], one per [await]; the
    sleeps of the climbing animation are one point.  The reference [c] and
    the submission are the locals that live across the suspension. *)
Inductive Await :=
| AwaitPending (sub : Submission.t) (c : nat)
| AwaitVerdict (sub : Submission.t) (c : nat)
| AwaitClimb
| AwaitRejected.

(** From the call to the first [await sleep(PENDING_MS)], or to an early
    [return]. *)
Definition nextSubmission_begin (r : Reveal) : Reveal * option Await :=
  if processing r then (r, None)
  else if revealFinished r then (r, None)
  else match queue r with
       | [] => (finishReveal r, None)
       | sub :: q =>
           let r1 := set_processing true r in
           let r2 := set_queue q r1 in
           let r3 := set_revealed (revealed r2 + 1) r2 in
           match find_contestant (Submission.handle sub) (state r3) with
           | None => (set_processing false r3, None)
           | Some (c, _) => (track_persistence sub r3, Some (AwaitPending sub c))
           end
       end.

(** The accepted branch up to [await sleep(VERDICT_MS)]. *)
Definition accept (sub : Submission.t) (c : nat) (r : Reveal) : Reveal :=
  let r1 := set_acceptedCount (acceptedCount r + 1) r in
  let r2 := set_state (alter (score_accepted sub) c (state r1)) r1 in
  set_lastMinuteHero
    (Hero.mk (Submission.handle sub) (Submission.problemIndex sub)
       (Submission.problemName sub) (Submission.relativeTimeSec sub)) r2.

(** The rejected branch up to [await sleep(800)]. *)
Definition reject (sub : Submission.t) (c : nat) (r : Reveal) : Reveal :=
  set_state (alter (mark_failed sub) c (state r)) r.

(** [const climb = oldRank - newRank], around the call of [recalcRanks]. *)
Definition climb_of (c : nat) (r : Reveal) : Z :=
  Contestant.rank (state r !!! c)
  - Contestant.rank (recalcRanks (state r) !!! c).

(** After the verdict: [recalcRanks()], then the bookkeeping of a climb. *)
Definition climbing (c : nat) (r : Reveal) : Reveal :=
  let climb := climb_of c r in
  let r1 := set_state (recalcRanks (state r)) r in
  if bool_decide (climb > 0) then
    let r2 := set_rankChangeCount (rankChangeCount r1 + 1) r1 in
    let o := state r2 !!! c in
    if bool_decide (Contestant.delta o > Mvp.delta (mvp r2))
    then set_mvp (Mvp.mk (Contestant.handle o) (Contestant.delta o)) r2
    else r2
  else r1.

(** The end of the function: [processing = false]. *)
Definition nextSubmission_end (r : Reveal) : Reveal := set_processing false r.

(** What runs when a suspension is resumed, up to the next one. *)
Definition resume (a : Await) (r : Reveal) : Reveal * option Await :=
  match a with
  | AwaitPending sub c =>
      if is_OK sub then (accept sub c r, Some (AwaitVerdict sub c))
      else (reject sub c r, Some AwaitRejected)
  | AwaitVerdict sub c =>
      if bool_decide (climb_of c r > 0) then (climbing c r, Some AwaitClimb)
      else (nextSubmission_end (climbing c r), None)
  | AwaitClimb => (nextSubmission_end r, None)
  | AwaitRejected => (nextSubmission_end r, None)
  end.

(** Resuming until the function returns, with nothing interleaved. *)
Fixpoint drive (fuel : nat) (p : Reveal * option Await) : Reveal * option Await :=
  match fuel, p.2 with
  | S n, Some a => drive n (resume a p.1)
  | _, _ => p
  end.

(** A whole call of [nextSubmission], awaited: three resumptions are the
    longest path. *)
Definition nextSubmission (r : Reveal) : Reveal :=
  (drive 3 (nextSubmission_begin r)).1.

(** The suspension points reached by a call started in [r0]. *)
Inductive in_flight (r0 : Reveal) : Reveal → Await → Prop :=
| in_flight_begin r a :
    nextSubmission_begin r0 = (r, Some a) → in_flight r0 r a
| in_flight_resume r a r' a' :
    in_flight r0 r a → resume a r = (r', Some a') → in_flight r0 r' a'.

(** Step mode run to exhaustion: one call per queued submission and the
    call that finds the queue empty and finishes the reveal. *)
Definition stepAll (r : Reveal) : Reveal :=
  Nat.iter (S (length (queue r))) nextSubmission r.

(** ** Batch mode *)

(** One turn of [while (queue.length > 0)], after [queue.shift()]. *)
Definition revealAll_iter (sub : Submission.t) (r : Reveal) : Reveal :=
  let r1 := set_revealed (revealed r + 1) r in
  match find_contestant (Submission.handle sub) (state r1) with
  | None => r1
  | Some (c, _) =>
      let r2 := track_persistence sub r1 in
      if is_OK sub then
        let r3 := set_state (alter (score_accepted sub) c (state r2)) r2 in
        let r4 := set_acceptedCount (acceptedCount r3 + 1) r3 in
        if bool_decide
             (Submission.relativeTimeSec sub > Hero.time (lastMinuteHero r4))
        then set_lastMinuteHero
               (Hero.mk (Submission.handle sub) (Submission.problemIndex sub)
                  (Submission.problemName sub) (Submission.relativeTimeSec sub))
               r4
        else r4
      else r2
  end.

(** The loop, by recursion on the queue it empties. *)
Fixpoint revealAll_loop (q : list Submission.t) (r : Reveal) : Reveal :=
  match q with
  | [] => r
  | sub :: q' => revealAll_loop q' (revealAll_iter sub (set_queue q' r))
  end.

(** [state.forEach(c => { oldRanks[c.handle] = c.rank; })] *)
Definition snapshot_ranks (st : list Contestant.t) : gmap string Z :=
  foldl (λ m c, <[Contestant.handle c := Contestant.rank c]> m) ∅ st.

(** [(oldRanks[c.handle] || c.rank) - c.rank] *)
Definition batch_delta (oldRanks : gmap string Z) (c : Contestant.t) : Z :=
  (match oldRanks !! Contestant.handle c with
   | Some o => if bool_decide (o = 0) then Contestant.rank c else o
   | None => Contestant.rank c
   end) - Contestant.rank c.

(** The callback of the last [state.forEach] of [revealAll]. *)
Definition tally (oldRanks : gmap string Z) (r : Reveal) (c : Contestant.t)
  : Reveal :=
  let delta := batch_delta oldRanks c in
  let r1 := if bool_decide (delta ≠ 0)
            then set_rankChangeCount (rankChangeCount r + 1) r else r in
  if bool_decide (delta > Mvp.delta (mvp r1))
  then set_mvp (Mvp.mk (Contestant.handle c) delta) r1
  else r1.

(** [revealAll]; [confirmed] is the answer to the [confirm] dialog. *)
Definition revealAll (confirmed : bool) (r : Reveal) : Reveal :=
  if negb confirmed then r
  else
    let oldRanks := snapshot_ranks (state r) in
    let r1 := revealAll_loop (queue r) r in
    let r2 := set_state (recalcRanks (state r1)) r1 in
    let r3 := foldl (tally oldRanks) r2 (state r2) in
    finishReveal r3.

(** ** Start of a reveal and the awards *)

(** A contestant of [data.contestants], as the reveal reads it. *)
Module ContestantData.
Record t := mk {
  handle : string;
  freezeRank : Z;
  freezeSolvedCount : Z;
  freezePenalty : Z;
  problemResultsAtFreeze : gmap string Cell.t
}.
End ContestantData.

Record RevealData := mkRevealData {
  contestants : list ContestantData.t;
  blindHourSubmissions : list Submission.t
}.

(** [resetReveal]: every contestant restarts from the frozen baseline and
    the running candidates are cleared. *)
Definition resetReveal (data : RevealData) : Reveal :=
  mkReveal
    ((λ c, Contestant.mk (ContestantData.handle c) (ContestantData.freezeRank c)
             (ContestantData.freezeSolvedCount c) (ContestantData.freezePenalty c)
             (ContestantData.freezeRank c) (ContestantData.freezeSolvedCount c)
             (ContestantData.freezePenalty c)
             (ContestantData.problemResultsAtFreeze c) 0) <$> contestants data)
    (blindHourSubmissions data)
    0 0 0 false Mvp.init Hero.init ∅ Persistent.init false.

(** The badges [showAwards] builds, each present or not. *)
Record Awards := mkAwards {
  hillClimber : option Mvp.t;
  notGiveUp : option Persistent.t;
  lastMinute : option Hero.t
}.

(** [if (mvp.handle && mvp.delta > 0)], [if (mostPersistent.handle &&
    mostPersistent.count > 1)], [if (lastMinuteHero.handle)]. *)
Definition showAwards (r : Reveal) : Awards :=
  mkAwards
    (if truthy (Mvp.handle (mvp r)) && bool_decide (Mvp.delta (mvp r) > 0)
     then Some (mvp r) else None)
    (if truthy (Persistent.handle (mostPersistent r))
        && bool_decide (Persistent.count (mostPersistent r) > 1)
     then Some (mostPersistent r) else None)
    (if truthy (Hero.handle (lastMinuteHero r))
     then Some (lastMinuteHero r) else None).

(** The MVP banner of [finishReveal]: [if (mvp.handle && mvp.delta > 0)]. *)
Definition mvp_section (r : Reveal) : option Mvp.t :=
  if truthy (Mvp.handle (mvp r)) && bool_decide (Mvp.delta (mvp r) > 0)
  then Some (mvp r) else None.

(** ** The clock *)

(** The values [currentPhase] takes. *)
Module Phase.
Inductive t := setup | live | frozen | ended | reveal.
End Phase.

Global Instance Phase_eq_dec : EqDecision Phase.t.
Proof. solve_decision. Defined.

(** The timer variables.  [timerInterval] is kept as "an interval is set".
    [timeScale] is taken integral (1 for a live contest, 60 for the default
    simulation), and so is [contestStartTimestamp]. *)
Record Clock := mkClock {
  currentPhase : Phase.t;
  contestDurationSec : Z;
  freezeAtSec : Z;
  contestStartTimestamp : Z;
  timeScale : Z;
  isFrozen : bool;
  timerInterval : bool
}.

(** What one call of [updateTimerDisplay] shows and triggers. *)
Module Tick.
Record t := mk {
  elapsed : Z;
  remaining : Z;
  remainingUntilFreeze : Z;
  enteredFrozen : bool;
  enteredEnded : bool
}.
End Tick.

(** [Math.floor((Date.now() - contestStartTimestamp) * timeScale / 1000)];
    [now] is the reading of [Date.now()]. *)
Definition elapsedSec (now : Z) (k : Clock) : Z :=
  ((now - contestStartTimestamp k) * timeScale k) `div` 1000.

(** [stopContestTimer] *)
Definition stopContestTimer (k : Clock) : Clock :=
  mkClock (currentPhase k) (contestDurationSec k) (freezeAtSec k)
    (contestStartTimestamp k) (timeScale k) (isFrozen k) false.

(** [enterFrozenPhase]: [if (currentPhase === 'frozen') return;
    currentPhase = 'frozen'; isFrozen = true;] *)
Definition enterFrozenPhase (k : Clock) : Clock :=
  if bool_decide (currentPhase k = Phase.frozen) then k
  else mkClock Phase.frozen (contestDurationSec k) (freezeAtSec k)
         (contestStartTimestamp k) (timeScale k) true (timerInterval k).

(** [enterContestEndedPhase]: [currentPhase = 'ended'; stopContestTimer();] *)
Definition enterContestEndedPhase (k : Clock) : Clock :=
  stopContestTimer
    (mkClock Phase.ended (contestDurationSec k) (freezeAtSec k)
       (contestStartTimestamp k) (timeScale k) (isFrozen k) (timerInterval k)).

(** [updateTimerDisplay], at the clock reading [now]. *)
Definition updateTimerDisplay (now : Z) (k : Clock) : Clock * Tick.t :=
  let e := elapsedSec now k in
  let remaining := Z.max 0 (contestDurationSec k - e) in
  let remainingUntilFreeze := Z.max 0 (freezeAtSec k - e) in
  let freeze :=
    negb (isFrozen k) && bool_decide (e >= freezeAtSec k)
    && bool_decide (currentPhase k = Phase.live) in
  let k1 :=
    if freeze then
      enterFrozenPhase
        (mkClock (currentPhase k) (contestDurationSec k) (freezeAtSec k)
           (contestStartTimestamp k) (timeScale k) true (timerInterval k))
    else k in
  let finish :=
    bool_decide (remaining ≤ 0)
    && (bool_decide (currentPhase k1 = Phase.frozen)
        || bool_decide (currentPhase k1 = Phase.live)) in
  let k2 := if finish then enterContestEndedPhase (stopContestTimer k1) else k1 in
  (k2, Tick.mk e remaining remainingUntilFreeze freeze finish).

(** The calls of [updateTimerDisplay] at successive readings of the time,
    with what each one showed and triggered. *)
Fixpoint run_clock (nows : list Z) (k : Clock) : list Tick.t :=
  match nows with
  | [] => []
  | now :: rest =>
      let p := updateTimerDisplay now k in p.2 :: run_clock rest p.1
  end.

(** ** Vocabulary of the statements *)

(** A contestant with the two fields [recalcRanks] writes blanked. *)
Definition unranked (c : Contestant.t) : Contestant.t :=
  Contestant.set_delta 0 (Contestant.set_rank 0 c).

(** [a] is placed before [b] by the contest rules: more problems solved,
    or as many with less penalty. *)
Definition better (a b : Contestant.t) : Prop :=
  Contestant.solved a > Contestant.solved b
  ∨ (Contestant.solved a = Contestant.solved b
     ∧ Contestant.penalty a < Contestant.penalty b).

(** Equal on both keys. *)
Definition tied (a b : Contestant.t) : Prop :=
  Contestant.solved a = Contestant.solved b
  ∧ Contestant.penalty a = Contestant.penalty b.

(** The order a stable sort by [compareFn] produces on entries of
    [spread]: strictly smaller by the comparator, or equal and earlier in
    the input. *)
Definition precedes (x y : nat * Contestant.t) : Prop :=
  compareFn x.2 y.2 < 0 ∨ (compareFn x.2 y.2 = 0 ∧ (x.1 < y.1)%nat).

(** ** Concrete reveals used in the examples *)

Definition contestant_at_freeze (h : string) (rank solved penalty : Z)
  : ContestantData.t :=
  ContestantData.mk h rank solved penalty ∅.

Definition sub_C_solves_B : Submission.t :=
  Submission.mk "C" "B" "Bridges" "OK" 11000 (Some 0).
Definition sub_A_solves_C : Submission.t :=
  Submission.mk "A" "C" "Cycles" "OK" 12000 (Some 0).

(** Three contestants ranked 1, 2, 3 at the freeze.  In the blind hour C
    solves a problem and passes A and B, then A solves one and takes the
    first place back. *)
Definition reveal_overtake : Reveal :=
  resetReveal
    (mkRevealData
       [contestant_at_freeze "A" 1 2 1000;
        contestant_at_freeze "B" 2 1 50;
        contestant_at_freeze "C" 3 1 60]
       [sub_C_solves_B; sub_A_solves_C]).

(** Contestant A solved problem A before the freeze (cell solved at 100 s)
    and gets it accepted again in the blind hour. *)
Definition sub_A_again : Submission.t :=
  Submission.mk "A" "A" "Apples" "OK" 11000 (Some 0).

Definition reveal_duplicate : Reveal :=
  resetReveal
    (mkRevealData
       [ContestantData.mk "A" 1 1 10 {["A" := Cell.mk true false 100]}]
       [sub_A_again]).

(** The same contestant with a rejected resubmission instead. *)
Definition sub_A_rejected : Submission.t :=
  Submission.mk "A" "A" "Apples" "WRONG_ANSWER" 11000 (Some 1).

Definition reveal_resubmit_rejected : Reveal :=
  resetReveal
    (mkRevealData
       [ContestantData.mk "A" 1 1 10 {["A" := Cell.mk true false 100]}]
       [sub_A_rejected]).

(** A submission of a handle that is not on the board, then one of A. *)
Definition sub_ghost : Submission.t :=
  Submission.mk "ghost" "A" "Apples" "OK" 10900 (Some 0).

Definition reveal_ghost : Reveal :=
  resetReveal
    (mkRevealData
       [contestant_at_freeze "A" 1 2 1000; contestant_at_freeze "B" 2 1 50]
       [sub_ghost; sub_A_solves_C]).

(** The acceptance of the penalty example: 754 s, two wrong attempts. *)
Definition sub_754 : Submission.t :=
  Submission.mk "B" "D" "Dunes" "OK" 754 (Some 2).

Definition reveal_754 : Reveal :=
  resetReveal
    (mkRevealData
       [contestant_at_freeze "A" 1 2 1000; contestant_at_freeze "B" 2 1 50]
       [sub_754]).

(** ** Comparing the two modes *)


(** The submission is of a contestant on the board. *)
Definition known (st : list Contestant.t) (sub : Submission.t) : Prop :=
  Submission.handle sub ∈ Contestant.handle <$> st.

Global Instance known_dec st sub : Decision (known st sub).
Proof. unfold known. apply _. Defined.

(** The submission counts for the score: accepted, of a known contestant. *)
Definition scoring (st : list Contestant.t) (sub : Submission.t) : Prop :=
  is_OK sub = true ∧ known st sub.

Global Instance scoring_dec st sub : Decision (scoring st sub).
Proof. unfold scoring, known. apply _. Defined.


(** Two reveals agree on the scores and on the persistence tracking. *)
Definition same_scores (b s : Reveal) : Prop :=
  Contestant.handle <$> state b = Contestant.handle <$> state s
  ∧ Contestant.freezeRank <$> state b = Contestant.freezeRank <$> state s
  ∧ Contestant.solved <$> state b = Contestant.solved <$> state s
  ∧ Contestant.penalty <$> state b = Contestant.penalty <$> state s
  ∧ submissionCounts b = submissionCounts s
  ∧ mostPersistent b = mostPersistent s
  ∧ acceptedCount b = acceptedCount s
  ∧ revealed b = revealed s
  ∧ queue b = queue s.




(** The phases in which the clock may end the contest. *)
Definition active (k : Clock) : Prop :=
  currentPhase k = Phase.live ∨ currentPhase k = Phase.frozen.

(** A five-hour contest frozen for its last hour, started at time 0 and
    running at real speed, and readings of the time around the freeze and
    the end. *)
Definition clock_five_hours : Clock :=
  mkClock Phase.live 18000 14400 0 1 false true.


(** ** Vocabulary of the awards statements *)

(** A reveal as [resetReveal] leaves it: at rest, no candidate yet. *)
Definition fresh (r : Reveal) : Prop :=
  processing r = false ∧ revealFinished r = false
  ∧ mvp r = Mvp.init ∧ submissionCounts r = ∅
  ∧ mostPersistent r = Persistent.init.

(** The character of the string ["|"]. *)
Definition separator : Ascii.ascii :=
  Ascii.Ascii false false true true true true true false.

(** The string holds the separator of [count_key]. *)
Fixpoint has_separator (s : string) : bool :=
  match s with
  | EmptyString => false
  | String a s' => if Ascii.eqb a separator then true else has_separator s'
  end.

(** How many submissions of the queue are of handle [h] on problem [p]. *)
Definition submissions_on (h p : string) (q : list Submission.t) : nat :=
  length (filter (λ sub, Submission.handle sub = h
                         ∧ Submission.problemIndex sub = p) q).

(** How many submissions of known contestants fall on the counter [k]. *)
Definition counted_on (st : list Contestant.t) (k : string)
    (q : list Submission.t) : nat :=
  length (filter (λ sub, known st sub
                         ∧ count_key (Submission.handle sub)
                             (Submission.problemIndex sub) = k) q).

(** The counters never exceed the number of submissions that fall on
    them, and the persistence candidate never exceeds its counter. *)
Definition counters_bounded (st : list Contestant.t) (bound : string → Z)
    (r : Reveal) : Prop :=
  (∀ k, default 0 (submissionCounts r !! k) ≤ bound k)
  ∧ Persistent.count (mostPersistent r)
    ≤ default 0 (submissionCounts r
                 !! count_key (Persistent.handle (mostPersistent r))
                      (Persistent.problemIndex (mostPersistent r)))
  ∧ (0 < Persistent.count (mostPersistent r) →
     Persistent.handle (mostPersistent r) ∈ Contestant.handle <$> st)
  ∧ (∀ k, 0 ≤ default 0 (submissionCounts r !! k)).

(** No contestant has a better (smaller) rank in [r'] than in [r]. *)
Definition no_rank_gained (r r' : Reveal) : Prop :=
  ∀ c o o', state r !! c = Some o → state r' !! c = Some o' →
            Contestant.rank o ≤ Contestant.rank o'.

(** Handles "a|b" and "a": one submission of "a|b" on problem "c" and one
    of "a" on problem "b|c" fall on the same counter "a|b|c". *)
Definition reveal_colliding_keys : Reveal :=
  resetReveal
    (mkRevealData
       [contestant_at_freeze "a|b" 1 0 0; contestant_at_freeze "a" 2 0 0]
       [Submission.mk "a|b" "c" "Cubes" "WRONG_ANSWER" 11000 (Some 0);
        Submission.mk "a" "b|c" "Bars" "WRONG_ANSWER" 11100 (Some 0)]).

(** B is rejected twice on problem D; nobody's score moves. *)
Definition sub_B_fails_D (t : Z) (wa : Z) : Submission.t :=
  Submission.mk "B" "D" "Dunes" "WRONG_ANSWER" t (Some wa).

Definition reveal_two_failures : Reveal :=
  resetReveal
    (mkRevealData
       [contestant_at_freeze "A" 1 2 1000; contestant_at_freeze "B" 2 1 50]
       [sub_B_fails_D 11000 0; sub_B_fails_D 11500 1]).

(** ** Vocabulary of the further properties of the reveal *)

(** [lastMinuteHero = { handle: sub.handle, problemIndex: sub.problemIndex,
    problemName: sub.problemName, time: sub.relativeTimeSec }], the object
    both modes build from an accepted submission. *)
Definition hero_of (sub : Submission.t) : Hero.t :=
  Hero.mk (Submission.handle sub) (Submission.problemIndex sub)
    (Submission.problemName sub) (Submission.relativeTimeSec sub).

(** The submission is accepted and [state.find] gives the object at
    position [c] for its handle. *)
Definition scored_by (st : list Contestant.t) (c : nat) (sub : Submission.t)
  : Prop :=
  is_OK sub = true
  ∧ fst <$> find_contestant (Submission.handle sub) st = Some c.

Global Instance scored_by_dec st c sub : Decision (scored_by st c sub).
Proof. unfold scored_by. apply _. Defined.

(** The penalty minutes a list of accepted submissions adds up to. *)
Definition total_penalty (l : list Submission.t) : Z :=
  foldr (λ sub acc, penaltyDelta sub + acc) 0 l.

(** The value of a counter, [submissionCounts[k] || 0]. *)
Definition counter (r : Reveal) (k : string) : Z :=
  default 0 (submissionCounts r !! k).

(** The persistence candidate holds the greatest counter, and its own. *)
Definition candidate_is_max (r : Reveal) : Prop :=
  (∀ k, counter r k ≤ Persistent.count (mostPersistent r))
  ∧ Persistent.count (mostPersistent r)
    = counter r (count_key (Persistent.handle (mostPersistent r))
                   (Persistent.problemIndex (mostPersistent r))).

Global Instance precedes_dec x y : Decision (precedes x y).
Proof. unfold precedes. apply _. Defined.

Global Instance better_dec a b : Decision (better a b).
Proof. unfold better. apply _. Defined.

Global Instance tied_dec a b : Decision (tied a b).
Proof. unfold tied. apply _. Defined.

(** The contestants of [st] the contest rules place before the object
    [o] at position [j]: those with a better score, and those with the
    same score that come earlier in [state]. *)
Definition placed_before (st : list Contestant.t) (j : nat) (o : Contestant.t)
  : list (nat * Contestant.t) :=
  filter (λ y, better y.2 o ∨ (tied y.2 o ∧ (y.1 < j)%nat)) (spread st).

(** ** The board and the podium *)

(** [const ROW_H = 88;] *)
Definition ROW_H : Z := 88.

(** The comparator of [buildRows] and of the podium:
    [(a, b) => a.rank - b.rank]. *)
Definition byRank (a b : Contestant.t) : Z :=
  Contestant.rank a - Contestant.rank b.

(** [Array.prototype.sort] with a comparator [cmp], as the stable
    insertion sort used for [recalcRanks]; the copies sorted here are only
    read. *)
Fixpoint insert_with (cmp : Contestant.t → Contestant.t → Z)
    (x : Contestant.t) (l : list Contestant.t) : list Contestant.t :=
  match l with
  | [] => [x]
  | y :: l' =>
      if bool_decide (cmp x y ≤ 0) then x :: y :: l'
      else y :: insert_with cmp x l'
  end.

Definition sort_with (cmp : Contestant.t → Contestant.t → Z)
    (l : list Contestant.t) : list Contestant.t :=
  foldr (insert_with cmp) [] l.

(** A row of the board: the [div] with id ['row-' + handle] and its
    [translateY] offset in pixels. *)
Module Row.
Record t := mk { handle : string; translateY : Z }.
End Row.

(** The board: the height of [board-body], its children in the order they
    were appended, and [rowEls], from a handle to the row it designates
    (a position among the children). *)
Record Board := mkBoard {
  height : Z;
  body : list Row.t;
  rowEls : gmap string nat
}.

(** [buildRows]: the body is emptied and sized, [rowEls] is cleared, then
    a row is appended for each contestant in the order of the ranks, at
    [(c.rank - 1) * ROW_H], and registered under the handle. *)
Definition buildRows (st : list Contestant.t) : Board :=
  let sorted := sort_with byRank st in
  mkBoard
    (Z.of_nat (length st) * ROW_H)
    ((λ c, Row.mk (Contestant.handle c) ((Contestant.rank c - 1) * ROW_H))
       <$> sorted)
    (foldl (λ (m : gmap string nat) (p : nat * Contestant.t),
              <[Contestant.handle p.2 := p.1]> m)
           ∅ (imap pair sorted)).

(** [repositionAll]: every contestant that has a row gets it moved to
    [(c.rank - 1) * ROW_H]. *)
Definition repositionAll (st : list Contestant.t) (b : Board) : Board :=
  foldl (λ (b : Board) (c : Contestant.t),
           match rowEls b !! Contestant.handle c with
           | Some i =>
               mkBoard (height b)
                 (alter (λ row, Row.mk (Row.handle row)
                                  ((Contestant.rank c - 1) * ROW_H)) i (body b))
                 (rowEls b)
           | None => b
           end) b st.

(** The podium of [showAwards]: the three first by rank, shown in the
    order second, first, third, each with the index [i] its bar is
    labelled from ([i + 1]); a missing one is left out. *)
Definition podium (st : list Contestant.t) : list (Contestant.t * nat) :=
  let top3 := take 3 (sort_with byRank st) in
  let slot (i : nat) :=
    match top3 !! i with Some c => [(c, i)] | None => [] end in
  slot 1%nat ++ slot 0%nat ++ slot 2%nat.

(** ** The clock: starting it and entering the live phase *)


(** The clock together with the standings poller ([livePoller], kept as
    "an interval is set"). *)
Record Session := mkSession {
  clock : Clock;
  livePoller : bool
}.

(** [enterFrozenPhase], with its effect on the poller:
    [if (livePoller && timeScale <= 1) { clearInterval(livePoller);
    livePoller = null; }], skipped like the rest when the phase is
    already frozen. *)
Definition enterFrozenPhase_session (s : Session) : Session :=
  if bool_decide (currentPhase (clock s) = Phase.frozen) then s
  else mkSession (enterFrozenPhase (clock s))
         (if bool_decide (timeScale (clock s) ≤ 1) then false
          else livePoller s).

(** [updateTimerDisplay] seen from the session: when it freezes the board
    it goes through [enterFrozenPhase]. *)
Definition updateTimerDisplay_session (now : Z) (s : Session)
  : Session * Tick.t :=
  let p := updateTimerDisplay now (clock s) in
  (mkSession p.1
     (if Tick.enteredFrozen p.2 && bool_decide (timeScale (clock s) ≤ 1)
      then false else livePoller s),
   p.2).

(** [startContestTimer(durationSec, freezeAtSecond, elapsedSec, scale)].
    [now0] is the reading of [Date.now()] that sets
    [contestStartTimestamp], [now1] the one of the [updateTimerDisplay]
    it calls.  The quotient [elapsedSec * 1000 / scale] is a JavaScript
    division: the model is exact where [scale] divides
    [elapsedSec * 1000]. *)
Definition startContestTimer (durationSec freezeAtSecond elapsedSec scale : Z)
    (now0 now1 : Z) (s : Session) : Session * Tick.t :=
  let k := clock s in
  let k1 := mkClock (currentPhase k) durationSec freezeAtSecond
              (now0 - (elapsedSec * 1000) `div` scale) scale false
              (timerInterval k) in
  let p := updateTimerDisplay_session now1 (mkSession k1 (livePoller s)) in
  let k2 := clock p.1 in
  (mkSession
     (mkClock (currentPhase k2) (contestDurationSec k2) (freezeAtSec k2)
        (contestStartTimestamp k2) (timeScale k2) (isFrozen k2) true)
     (livePoller p.1),
   p.2).

(** [enterLivePhase(standingsData, pollInterval, durationSec,
    freezeAtSecond, elapsedSec, scale)], for its effect on the phase, the
    timer and the poller. *)
Definition enterLivePhase (durationSec freezeAtSecond elapsedSec scale : Z)
    (now0 now1 : Z) (s : Session) : Session :=
  let k := clock s in
  let s0 := mkSession
              (mkClock Phase.live (contestDurationSec k) (freezeAtSec k)
                 (contestStartTimestamp k) (timeScale k) (isFrozen k)
                 (timerInterval k))
              (livePoller s) in
  let poll (x : Session) := mkSession (clock x) true in
  if bool_decide (durationSec > 0) then
    let s1 := (startContestTimer durationSec freezeAtSecond elapsedSec scale
                 now0 now1 s0).1 in
    if bool_decide (elapsedSec >= durationSec) then
      mkSession (enterContestEndedPhase (stopContestTimer (clock s1)))
        (livePoller s1)
    else if bool_decide (elapsedSec >= freezeAtSecond) then
      let k1 := clock s1 in
      enterFrozenPhase_session
        (mkSession
           (mkClock (currentPhase k1) (contestDurationSec k1) (freezeAtSec k1)
              (contestStartTimestamp k1) (timeScale k1) true (timerInterval k1))
           (livePoller s1))
    else poll s1
  else poll s0.

(** ** Automatic play *)

(** The reveal with the flag of the automatic play.  [autoTimer] is not
    kept: the schedule below says whether the next [autoTick] runs. *)
Record Player := mkPlayer {
  reveal : Reveal;
  playing : bool
}.

(** [stopAuto]. *)
Definition stopAuto (p : Player) : Player := mkPlayer (reveal p) false.

(** [autoTick] and the calls it schedules.  Each element of [pauses]
    stands for one turn and says whether the user pauses ([autoPlay]
    called while playing, that is [stopAuto]) before the next turn starts:
    during the awaited [nextSubmission] the turn then returns at
    [if (!playing) return], during the delay the cleared timer never
    fires.  The list ends where the observation ends. *)
Fixpoint autoTick (pauses : list bool) (p : Player) : Player :=
  match pauses with
  | [] => p
  | pause :: rest =>
      if negb (playing p) || bool_decide (queue (reveal p) = []) then
        let p1 := stopAuto p in
        if bool_decide (queue (reveal p1) = [])
        then mkPlayer (finishReveal (reveal p1)) (playing p1)
        else p1
      else
        let p1 := mkPlayer (nextSubmission (reveal p)) (playing p) in
        if pause then stopAuto p1 else autoTick rest p1
  end.

(** [autoPlay]. *)
Definition autoPlay (pauses : list bool) (p : Player) : Player :=
  if playing p then stopAuto p
  else autoTick pauses (mkPlayer (reveal p) true).

(** ** Times as text *)

(** [n] characters ['0']. *)
Fixpoint zeros (n : nat) : string :=
  match n with
  | O => ""
  | S n => "0" +:+ zeros n
  end.

(** [s.padStart(2, '0')]. *)
Definition padStart2 (s : string) : string :=
  zeros (2 - String.length s) +:+ s.

(** [fmtTime(sec)]: [%] is the remainder of JavaScript, with the sign of
    the dividend. *)
Definition fmtTime (sec : Z) : string :=
  let h := padStart2 (pretty (sec `div` 3600)) in
  let m := padStart2 (pretty ((sec `rem` 3600) `div` 60)) in
  h +:+ ":" +:+ m.

(** [formatTime(seconds)]. *)
Definition formatTime (seconds : Z) : string :=
  let seconds := if bool_decide (seconds < 0) then 0 else seconds in
  let h := seconds `div` 3600 in
  let m := (seconds `rem` 3600) `div` 60 in
  let s := seconds `rem` 60 in
  padStart2 (pretty h) +:+ ":" +:+ padStart2 (pretty m) +:+ ":"
  +:+ padStart2 (pretty s).

(** The decimal digit [d] as a character. *)
Definition digit (d : Z) : Ascii.ascii := pretty_N_char (Z.to_N d).

(** The two digits of a number below one hundred. *)
Definition two_digits (n : Z) : string :=
  String (digit (n `div` 10)) (String (digit (n `mod` 10)) "").

(** Linear arithmetic with quotients and remainders by constants. *)
Ltac div_lia := Z.div_mod_to_equations; lia.

(** * Proofs *)

(** ** The comparator *)

Lemma compareFn_antisym a b : compareFn b a = - compareFn a b.
Proof. unfold compareFn. repeat case_bool_decide; lia. Qed.

Lemma compareFn_le_trans a b c :
  compareFn a b ≤ 0 → compareFn b c ≤ 0 → compareFn a c ≤ 0.
Proof. unfold compareFn. repeat case_bool_decide; lia. Qed.

Lemma compareFn_unranked a b : compareFn (unranked a) (unranked b) = compareFn a b.
Proof. reflexivity. Qed.

Lemma compareFn_neg_better a b : compareFn a b < 0 ↔ better a b.
Proof. unfold compareFn, better. case_bool_decide; lia. Qed.

Lemma compareFn_zero_tied a b : compareFn a b = 0 ↔ tied a b.
Proof. unfold compareFn, tied. case_bool_decide; lia. Qed.

Lemma precedes_irrefl x : ¬ precedes x x.
Proof. unfold precedes, compareFn. case_bool_decide; lia. Qed.

Lemma precedes_asym x y : precedes x y → ¬ precedes y x.
Proof.
  unfold precedes. rewrite (compareFn_antisym x.2 y.2). lia.
Qed.

(** ** The stable sort *)

Lemma sort_insert_perm x l : sort_insert x l ≡ₚ x :: l.
Proof.
  induction l as [|y l IH]; simpl; [done|].
  case_bool_decide; [done|].
  rewrite IH. apply Permutation_swap.
Qed.

Lemma sort_perm l : sort l ≡ₚ l.
Proof.
  induction l as [|x l IH]; simpl; [done|].
  by rewrite sort_insert_perm, IH.
Qed.

Lemma sort_insert_sorted x l :
  StronglySorted precedes l →
  Forall (λ y, (x.1 < y.1)%nat) l →
  StronglySorted precedes (sort_insert x l).
Proof.
  induction 1 as [|y l Hl IH Hy]; intros Hx; simpl.
  { repeat constructor. }
  apply Forall_cons in Hx as [Hxy Hx].
  case_bool_decide as Hc.
  - constructor; [by constructor|].
    assert (precedes x y) as Pxy by (unfold precedes; lia).
    constructor; [done|].
    rewrite Forall_forall in Hy, Hx. apply Forall_forall. intros z Hz.
    specialize (Hy z Hz). specialize (Hx z Hz).
    assert (compareFn y.2 z.2 ≤ 0) by (unfold precedes in Hy; lia).
    pose proof (compareFn_le_trans x.2 y.2 z.2 Hc H).
    unfold precedes. lia.
  - constructor; [by apply IH|].
    rewrite sort_insert_perm. constructor; [|done].
    unfold precedes. rewrite (compareFn_antisym x.2 y.2). lia.
Qed.

Lemma imap_pair_fst_ge {A} (l : list A) (k : nat) (y : nat * A) :
  y ∈ imap (λ j, pair (k + j)%nat) l → (k ≤ y.1)%nat.
Proof.
  rewrite elem_of_lookup_imap. intros (i & x & -> & _). simpl. lia.
Qed.

Lemma sort_imap_sorted (l : list Contestant.t) (k : nat) :
  StronglySorted precedes (sort (imap (λ j, pair (k + j)%nat) l)).
Proof.
  revert k. induction l as [|x l IH]; intros k; simpl; [constructor|].
  apply sort_insert_sorted.
  - rewrite (imap_ext _ (λ j, pair (S k + j)%nat)); [apply IH|].
    intros j y _. simpl. f_equal. lia.
  - apply Forall_forall. intros y Hy. rewrite sort_perm in Hy.
    rewrite (imap_ext _ (λ j, pair (S k + j)%nat)) in Hy.
    + apply imap_pair_fst_ge in Hy. simpl. lia.
    + intros j z _. simpl. f_equal. lia.
Qed.

Lemma sort_spread_sorted st : StronglySorted precedes (sort (spread st)).
Proof. apply (sort_imap_sorted st 0). Qed.

Lemma spread_lookup st i :
  spread st !! i = pair i <$> st !! i.
Proof. unfold spread. by rewrite list_lookup_imap. Qed.

Lemma spread_elem st (x : nat * Contestant.t) :
  x ∈ spread st ↔ st !! x.1 = Some x.2.
Proof.
  unfold spread. rewrite elem_of_lookup_imap. split.
  - by intros (i & c & -> & H).
  - intros H. exists x.1, x.2. by destruct x.
Qed.

Lemma spread_fst st : (spread st).*1 = seq 0 (length st).
Proof.
  apply list_eq. intros i. rewrite list_lookup_fmap, spread_lookup.
  destruct (st !! i) as [c|] eqn:E; simpl.
  - symmetry. apply lookup_seq. split; [done|]. by eapply lookup_lt_Some.
  - symmetry. apply lookup_seq_ge. by apply lookup_ge_None.
Qed.

Lemma sorted_refs_perm st : sorted_refs st ≡ₚ seq 0 (length st).
Proof. unfold sorted_refs. by rewrite sort_perm, spread_fst. Qed.

Lemma sorted_refs_NoDup st : NoDup (sorted_refs st).
Proof. rewrite sorted_refs_perm. apply NoDup_seq. Qed.

Lemma sorted_refs_length st : length (sorted_refs st) = length st.
Proof. by rewrite sorted_refs_perm, length_seq. Qed.

Lemma sorted_refs_elem st r : r ∈ sorted_refs st ↔ (r < length st)%nat.
Proof. rewrite sorted_refs_perm, elem_of_seq. lia. Qed.

(** The sorted copy designates objects of [state]. *)
Lemma sort_spread_lookup st j x :
  sort (spread st) !! j = Some x → st !! x.1 = Some x.2.
Proof.
  intros H. apply spread_elem. rewrite <- (sort_perm (spread st)).
  by eapply list_elem_of_lookup_2.
Qed.

(** Sorting reads the two keys only. *)
Lemma compareFn_tied a a' b b' :
  tied a a' → tied b b' → compareFn a b = compareFn a' b'.
Proof. unfold tied, compareFn. intros [-> ->] [-> ->]. done. Qed.

Lemma sort_insert_keys x x' l l' :
  x.1 = x'.1 → tied x.2 x'.2 →
  Forall2 (λ p q, p.1 = q.1 ∧ tied p.2 q.2) l l' →
  Forall2 (λ p q, p.1 = q.1 ∧ tied p.2 q.2)
    (sort_insert x l) (sort_insert x' l').
Proof.
  intros H1 H2. induction 1 as [|y y' l l' [Hy1 Hy2] Hl IH]; simpl.
  { constructor; [done|constructor]. }
  rewrite (compareFn_tied x.2 x'.2 y.2 y'.2 H2 Hy2).
  case_bool_decide.
  - constructor; [done|]. by constructor.
  - by constructor.
Qed.

Lemma sort_keys l l' :
  Forall2 (λ p q, p.1 = q.1 ∧ tied p.2 q.2) l l' →
  Forall2 (λ p q, p.1 = q.1 ∧ tied p.2 q.2) (sort l) (sort l').
Proof.
  induction 1 as [|x x' l l' [H1 H2] Hl IH]; simpl; [constructor|].
  by apply sort_insert_keys.
Qed.

Lemma sorted_refs_tied st st' :
  Forall2 tied st st' → sorted_refs st = sorted_refs st'.
Proof.
  intros H. unfold sorted_refs.
  assert (Forall2 (λ p q : nat * Contestant.t, p.1 = q.1 ∧ tied p.2 q.2)
            (spread st) (spread st')) as HF.
  { apply Forall2_same_length_lookup. split.
    - unfold spread. rewrite !length_imap. by eapply Forall2_length.
    - intros i p q. rewrite !spread_lookup. intros Hp Hq.
      destruct (st !! i) as [c|] eqn:Ec, (st' !! i) as [c'|] eqn:Ec'; try done.
      simpl in Hp, Hq. assert (p = (i, c)) as -> by congruence.
      assert (q = (i, c')) as -> by congruence.
      split; [done|]. simpl. by eapply Forall2_lookup_lr. }
  apply sort_keys in HF. revert HF.
  generalize (sort (spread st)) (sort (spread st')).
  induction 1 as [|x y l l' [H1 _] _ IH]; simpl; [done|]. by f_equal.
Qed.

(** ** The assignment of ranks through the references *)

Lemma forEach_assign_spec refs st (i0 : nat) :
  NoDup refs →
  let res := foldl (λ (acc : list Contestant.t * nat) (r : nat),
                      (alter (assign_rank acc.2) r acc.1, S acc.2))
                   (st, i0) refs in
  (∀ j r, refs !! j = Some r →
          res.1 !! r = assign_rank (i0 + j) <$> st !! r)
  ∧ (∀ r, r ∉ refs → res.1 !! r = st !! r)
  ∧ length res.1 = length st.
Proof.
  revert st i0. induction refs as [|r0 refs IH]; intros st i0 Hnd; simpl.
  { split_and!; [intros j r H; done|done|done]. }
  apply NoDup_cons in Hnd as [Hr0 Hnd].
  destruct (IH (alter (assign_rank i0) r0 st) (S i0) Hnd) as (IH1 & IH2 & IH3).
  split_and!.
  - intros [|j] r Hj; simpl in Hj.
    + assert (r = r0) as -> by congruence.
      rewrite IH2 by done. rewrite list_lookup_alter_eq.
      by replace (i0 + 0)%nat with i0 by lia.
    + rewrite (IH1 j r Hj).
      assert (r ≠ r0).
      { intros ->. apply Hr0. by eapply list_elem_of_lookup_2. }
      rewrite list_lookup_alter_ne by done.
      by replace (S i0 + j)%nat with (i0 + S j)%nat by lia.
  - intros r Hr. apply not_elem_of_cons in Hr as [Hne Hr].
    rewrite IH2 by done. by rewrite list_lookup_alter_ne.
  - by rewrite IH3, length_alter.
Qed.

Lemma recalcRanks_lookup st j r :
  sorted_refs st !! j = Some r →
  recalcRanks st !! r = assign_rank j <$> st !! r.
Proof.
  intros H. unfold recalcRanks, forEach_assign.
  destruct (forEach_assign_spec (sorted_refs st) st 0 (sorted_refs_NoDup st))
    as (H1 & _ & _).
  by rewrite (H1 j r H).
Qed.

Lemma recalcRanks_length st : length (recalcRanks st) = length st.
Proof.
  unfold recalcRanks, forEach_assign.
  by destruct (forEach_assign_spec (sorted_refs st) st 0 (sorted_refs_NoDup st))
    as (_ & _ & ->).
Qed.

(** Every object of [state] has a place in the sorted copy. *)
Lemma sorted_refs_place st r c :
  st !! r = Some c →
  ∃ j, sorted_refs st !! j = Some r ∧ (j < length st)%nat.
Proof.
  intros H. apply lookup_lt_Some in H.
  apply sorted_refs_elem, list_elem_of_lookup_1 in H as [j Hj].
  exists j. split; [done|].
  rewrite <- (sorted_refs_length st). by eapply lookup_lt_Some.
Qed.

Lemma recalcRanks_place st r c :
  st !! r = Some c →
  ∃ j, sorted_refs st !! j = Some r ∧ (j < length st)%nat
       ∧ recalcRanks st !! r = Some (assign_rank j c).
Proof.
  intros H. destruct (sorted_refs_place st r c H) as (j & Hj & Hlt).
  exists j. split_and!; [done..|]. by rewrite (recalcRanks_lookup st j r Hj), H.
Qed.

Lemma recalcRanks_unranked st : unranked <$> recalcRanks st = unranked <$> st.
Proof.
  apply list_eq. intros r. rewrite !list_lookup_fmap.
  destruct (st !! r) as [c|] eqn:E.
  - destruct (recalcRanks_place st r c E) as (j & _ & _ & ->). done.
  - rewrite (proj2 (lookup_ge_None _ _)); [done|].
    rewrite recalcRanks_length. by apply lookup_ge_None.
Qed.

Lemma assign_rank_unranked j c : assign_rank j (unranked c) = assign_rank j c.
Proof. reflexivity. Qed.

Lemma unranked_tied st st' :
  unranked <$> st = unranked <$> st' → Forall2 tied st st'.
Proof.
  intros H. apply Forall2_same_length_lookup. split.
  - by rewrite <- (length_fmap unranked st), H, length_fmap.
  - intros i c c' Hc Hc'.
    apply (f_equal (λ l, l !! i)) in H. rewrite !list_lookup_fmap, Hc, Hc' in H.
    simpl in H. assert (unranked c = unranked c') as Hu by congruence.
    split.
    + change (Contestant.solved (unranked c) = Contestant.solved (unranked c')).
      by rewrite Hu.
    + change (Contestant.penalty (unranked c) = Contestant.penalty (unranked c')).
      by rewrite Hu.
Qed.

(** [recalcRanks] overwrites [rank] and [delta] and reads neither. *)
Lemma recalcRanks_ext st st' :
  unranked <$> st = unranked <$> st' → recalcRanks st = recalcRanks st'.
Proof.
  intros H. apply list_eq. intros r.
  pose proof (sorted_refs_tied st st' (unranked_tied st st' H)) as Hs.
  pose proof (f_equal (λ l, l !! r) H) as Hr. simpl in Hr.
  rewrite !list_lookup_fmap in Hr.
  destruct (st !! r) as [c|] eqn:E, (st' !! r) as [c'|] eqn:E'; try done.
  - destruct (recalcRanks_place st r c E) as (j & Hj & _ & ->).
    rewrite Hs in Hj. rewrite (recalcRanks_lookup st' j r Hj), E'. simpl.
    simpl in Hr. assert (unranked c = unranked c') as Hu by congruence.
    by rewrite <- (assign_rank_unranked j c), Hu, assign_rank_unranked.
  - rewrite !(proj2 (lookup_ge_None _ _)); [done|..];
      rewrite recalcRanks_length; by apply lookup_ge_None.
Qed.

Lemma recalcRanks_idemp st : recalcRanks (recalcRanks st) = recalcRanks st.
Proof. apply recalcRanks_ext, recalcRanks_unranked. Qed.


(** ** Ranks after [recalcRanks] *)

Lemma StronglySorted_lookup_lt {A} (R : A → A → Prop) (l : list A) i j x y :
  StronglySorted R l → (i < j)%nat → l !! i = Some x → l !! j = Some y → R x y.
Proof.
  intros Hs. revert i j. induction Hs as [|z l Hs IH Hz]; intros i j Hij Hi Hj.
  { done. }
  destruct j as [|j]; [lia|]. simpl in Hj. destruct i as [|i]; simpl in Hi.
  - assert (z = x) as -> by congruence.
    rewrite Forall_forall in Hz. apply Hz. by eapply list_elem_of_lookup_2.
  - apply (IH i j); [lia|done..].
Qed.

Lemma sorted_refs_lookup st j r :
  sorted_refs st !! j = Some r →
  ∃ c, sort (spread st) !! j = Some (r, c) ∧ st !! r = Some c.
Proof.
  unfold sorted_refs. rewrite list_lookup_fmap.
  destruct (sort (spread st) !! j) as [[r' c]|] eqn:E; [|done].
  simpl. intros [= ->]. exists c. split; [done|].
  apply (sort_spread_lookup st j (r, c) E).
Qed.

(** The place in the sorted copy follows [precedes]. *)
Lemma sorted_refs_order st i j p q a b :
  sorted_refs st !! i = Some p → sorted_refs st !! j = Some q →
  st !! p = Some a → st !! q = Some b →
  precedes (p, a) (q, b) → (i < j)%nat.
Proof.
  intros Hi Hj Ha Hb Hpq.
  destruct (sorted_refs_lookup st i p Hi) as (a' & Hi' & Ha').
  destruct (sorted_refs_lookup st j q Hj) as (b' & Hj' & Hb').
  assert (a' = a) as -> by congruence. assert (b' = b) as -> by congruence.
  destruct (Nat.lt_trichotomy i j) as [Hlt|[->|Hgt]]; [done|..].
  - assert (p = q) as -> by congruence. assert (a = b) as -> by congruence.
    by apply precedes_irrefl in Hpq.
  - pose proof (StronglySorted_lookup_lt precedes _ j i _ _
                  (sort_spread_sorted st) Hgt Hj' Hi') as Hqp.
    by apply precedes_asym in Hqp.
Qed.

Lemma recalcRanks_lookup_total st j r c :
  sorted_refs st !! j = Some r → st !! r = Some c →
  recalcRanks st !!! r = assign_rank j c.
Proof.
  intros Hj Hc. apply list_lookup_total_correct.
  by rewrite (recalcRanks_lookup st j r Hj), Hc.
Qed.

Lemma list_as_lookups (l : list Contestant.t) :
  l = (λ r, l !!! r) <$> seq 0 (length l).
Proof.
  apply list_eq. intros i. rewrite list_lookup_fmap.
  destruct (l !! i) as [c|] eqn:E.
  - rewrite (lookup_seq_lt 0 (length l) i) by by eapply lookup_lt_Some.
    simpl. f_equal. symmetry. by apply list_lookup_total_correct.
  - by rewrite lookup_seq_ge by by apply lookup_ge_None.
Qed.

Lemma recalcRanks_ranks st :
  Contestant.rank <$> recalcRanks st
  ≡ₚ (λ i : nat, Z.of_nat i + 1) <$> seq 0 (length st).
Proof.
  rewrite (list_as_lookups (recalcRanks st)) at 1.
  rewrite recalcRanks_length, <- list_fmap_compose.
  rewrite <- (sorted_refs_perm st) at 1.
  assert ((Contestant.rank ∘ (λ r, recalcRanks st !!! r)) <$> sorted_refs st
          = (λ i : nat, Z.of_nat i + 1) <$> seq 0 (length st)) as ->; [|done].
  apply list_eq. intros j. rewrite !list_lookup_fmap.
  destruct (sorted_refs st !! j) as [r|] eqn:E.
  - destruct (sorted_refs_lookup st j r E) as (c & _ & Hc).
    rewrite (lookup_seq_lt 0 (length st) j).
    2:{ rewrite <- sorted_refs_length. by eapply lookup_lt_Some. }
    simpl. by rewrite (recalcRanks_lookup_total st j r c E Hc).
  - rewrite lookup_seq_ge; [done|].
    rewrite <- sorted_refs_length. by apply lookup_ge_None.
Qed.

Lemma recalcRanks_delta st :
  Forall (λ c, Contestant.delta c = Contestant.freezeRank c - Contestant.rank c)
    (recalcRanks st).
Proof.
  apply Forall_lookup. intros r c' Hr.
  assert (is_Some (st !! r)) as [c Hc].
  { apply lookup_lt_is_Some. rewrite <- recalcRanks_length.
    by eapply lookup_lt_Some. }
  destruct (recalcRanks_place st r c Hc) as (j & _ & _ & Hj).
  assert (c' = assign_rank j c) as -> by congruence. done.
Qed.

Lemma recalcRanks_freezeRank st :
  Contestant.freezeRank <$> recalcRanks st = Contestant.freezeRank <$> st.
Proof.
  pose proof (f_equal (fmap Contestant.freezeRank) (recalcRanks_unranked st)) as H.
  by rewrite <- !list_fmap_compose in H.
Qed.

(** C10. After [recalcRanks] over a state of n contestants the ranks are
    exactly the integers 1 to n, each given once (the list of ranks is a
    rearrangement of 1..n), and the [delta] of every contestant is its
    [freezeRank] minus its new rank; the frozen ranks themselves and the
    number of contestants are untouched. *)
Theorem C10_ranks_one_to_n (st : list Contestant.t) :
  length (recalcRanks st) = length st
  ∧ Contestant.rank <$> recalcRanks st
    ≡ₚ (λ i : nat, Z.of_nat i + 1) <$> seq 0 (length st)
  ∧ NoDup (Contestant.rank <$> recalcRanks st)
  ∧ Forall (λ c, Contestant.delta c = Contestant.freezeRank c - Contestant.rank c)
      (recalcRanks st)
  ∧ Contestant.freezeRank <$> recalcRanks st = Contestant.freezeRank <$> st.
Proof.
  split_and!.
  - apply recalcRanks_length.
  - apply recalcRanks_ranks.
  - rewrite recalcRanks_ranks. apply NoDup_fmap_2; [|apply NoDup_seq].
    intros i j. lia.
  - apply recalcRanks_delta.
  - apply recalcRanks_freezeRank.
Qed.

(** C4. The ranking places a contestant with more problems solved first,
    among equal solved counts the one with less penalty first, and two
    contestants equal on both keys in their order in the input; ranking
    again what was just ranked changes nothing. *)
Theorem C4_ranking_order (st : list Contestant.t) (p q : nat) (a b : Contestant.t) :
  st !! p = Some a → st !! q = Some b →
  (Contestant.solved a > Contestant.solved b →
   Contestant.rank (recalcRanks st !!! p) < Contestant.rank (recalcRanks st !!! q))
  ∧ (Contestant.solved a = Contestant.solved b →
     Contestant.penalty a < Contestant.penalty b →
     Contestant.rank (recalcRanks st !!! p) < Contestant.rank (recalcRanks st !!! q))
  ∧ (Contestant.solved a = Contestant.solved b →
     Contestant.penalty a = Contestant.penalty b →
     (p < q)%nat →
     Contestant.rank (recalcRanks st !!! p) < Contestant.rank (recalcRanks st !!! q))
  ∧ sorted_refs (recalcRanks st) = sorted_refs st
  ∧ recalcRanks (recalcRanks st) = recalcRanks st.
Proof.
  intros Ha Hb.
  destruct (sorted_refs_place st p a Ha) as (i & Hi & _).
  destruct (sorted_refs_place st q b Hb) as (j & Hj & _).
  rewrite (recalcRanks_lookup_total st i p a Hi Ha).
  rewrite (recalcRanks_lookup_total st j q b Hj Hb).
  assert (precedes (p, a) (q, b) →
          Contestant.rank (assign_rank i a) < Contestant.rank (assign_rank j b))
    as Hord.
  { intros Hpq.
    pose proof (sorted_refs_order st i j p q a b Hi Hj Ha Hb Hpq). simpl. lia. }
  split_and!.
  - intros H. apply Hord. left. apply compareFn_neg_better. by left.
  - intros H1 H2. apply Hord. left. apply compareFn_neg_better. by right.
  - intros H1 H2 H3. apply Hord. right. split; [|done].
    by apply compareFn_zero_tied.
  - apply sorted_refs_tied, unranked_tied, recalcRanks_unranked.
  - apply recalcRanks_idemp.
Qed.

(** ** One call of [nextSubmission] *)

Lemma find_contestant_Some h st c o :
  find_contestant h st = Some (c, o) →
  st !! c = Some o ∧ Contestant.handle o = h.
Proof.
  unfold find_contestant. intros H. apply list_find_Some in H. tauto.
Qed.

Lemma find_contestant_None h st :
  find_contestant h st = None ↔ h ∉ Contestant.handle <$> st.
Proof.
  unfold find_contestant. rewrite list_find_None, Forall_forall, list_elem_of_fmap.
  split.
  - intros H (o & -> & Ho). by apply (H o).
  - intros H o Ho Hh. apply H. by exists o.
Qed.

(** [track_persistence] writes [submissionCounts] and [mostPersistent] only. *)
Lemma track_persistence_frame sub r :
  state (track_persistence sub r) = state r
  ∧ queue (track_persistence sub r) = queue r
  ∧ revealed (track_persistence sub r) = revealed r
  ∧ acceptedCount (track_persistence sub r) = acceptedCount r
  ∧ rankChangeCount (track_persistence sub r) = rankChangeCount r
  ∧ processing (track_persistence sub r) = processing r
  ∧ mvp (track_persistence sub r) = mvp r
  ∧ lastMinuteHero (track_persistence sub r) = lastMinuteHero r
  ∧ revealFinished (track_persistence sub r) = revealFinished r.
Proof. unfold track_persistence. case_bool_decide; done. Qed.

Lemma climbing_frame c r :
  state (climbing c r) = recalcRanks (state r)
  ∧ queue (climbing c r) = queue r
  ∧ revealed (climbing c r) = revealed r
  ∧ acceptedCount (climbing c r) = acceptedCount r
  ∧ processing (climbing c r) = processing r
  ∧ lastMinuteHero (climbing c r) = lastMinuteHero r
  ∧ submissionCounts (climbing c r) = submissionCounts r
  ∧ mostPersistent (climbing c r) = mostPersistent r
  ∧ revealFinished (climbing c r) = revealFinished r.
Proof. unfold climbing. repeat case_bool_decide; done. Qed.

Lemma nextSubmission_end_frame r :
  state (nextSubmission_end r) = state r
  ∧ queue (nextSubmission_end r) = queue r
  ∧ revealed (nextSubmission_end r) = revealed r
  ∧ acceptedCount (nextSubmission_end r) = acceptedCount r
  ∧ rankChangeCount (nextSubmission_end r) = rankChangeCount r
  ∧ processing (nextSubmission_end r) = false
  ∧ mvp (nextSubmission_end r) = mvp r
  ∧ lastMinuteHero (nextSubmission_end r) = lastMinuteHero r
  ∧ submissionCounts (nextSubmission_end r) = submissionCounts r
  ∧ mostPersistent (nextSubmission_end r) = mostPersistent r
  ∧ revealFinished (nextSubmission_end r) = revealFinished r.
Proof. done. Qed.

Lemma accept_frame sub c r :
  state (accept sub c r) = alter (score_accepted sub) c (state r)
  ∧ queue (accept sub c r) = queue r
  ∧ revealed (accept sub c r) = revealed r
  ∧ acceptedCount (accept sub c r) = acceptedCount r + 1
  ∧ rankChangeCount (accept sub c r) = rankChangeCount r
  ∧ processing (accept sub c r) = processing r
  ∧ mvp (accept sub c r) = mvp r
  ∧ lastMinuteHero (accept sub c r)
    = Hero.mk (Submission.handle sub) (Submission.problemIndex sub)
        (Submission.problemName sub) (Submission.relativeTimeSec sub)
  ∧ submissionCounts (accept sub c r) = submissionCounts r
  ∧ mostPersistent (accept sub c r) = mostPersistent r
  ∧ revealFinished (accept sub c r) = revealFinished r.
Proof. done. Qed.

Lemma reject_frame sub c r :
  state (reject sub c r) = alter (mark_failed sub) c (state r)
  ∧ queue (reject sub c r) = queue r
  ∧ revealed (reject sub c r) = revealed r
  ∧ acceptedCount (reject sub c r) = acceptedCount r
  ∧ rankChangeCount (reject sub c r) = rankChangeCount r
  ∧ processing (reject sub c r) = processing r
  ∧ mvp (reject sub c r) = mvp r
  ∧ lastMinuteHero (reject sub c r) = lastMinuteHero r
  ∧ submissionCounts (reject sub c r) = submissionCounts r
  ∧ mostPersistent (reject sub c r) = mostPersistent r
  ∧ revealFinished (reject sub c r) = revealFinished r.
Proof. done. Qed.

(** The variables when the submission has been taken off the queue. *)
Lemma taken_frame (q : list Submission.t) r :
  state (set_revealed (revealed r + 1) (set_queue q (set_processing true r)))
  = state r
  ∧ queue (set_revealed (revealed r + 1) (set_queue q (set_processing true r)))
    = q
  ∧ revealed (set_revealed (revealed r + 1) (set_queue q (set_processing true r)))
    = revealed r + 1
  ∧ acceptedCount
      (set_revealed (revealed r + 1) (set_queue q (set_processing true r)))
    = acceptedCount r
  ∧ rankChangeCount
      (set_revealed (revealed r + 1) (set_queue q (set_processing true r)))
    = rankChangeCount r
  ∧ mvp (set_revealed (revealed r + 1) (set_queue q (set_processing true r)))
    = mvp r
  ∧ lastMinuteHero
      (set_revealed (revealed r + 1) (set_queue q (set_processing true r)))
    = lastMinuteHero r
  ∧ submissionCounts
      (set_revealed (revealed r + 1) (set_queue q (set_processing true r)))
    = submissionCounts r
  ∧ mostPersistent
      (set_revealed (revealed r + 1) (set_queue q (set_processing true r)))
    = mostPersistent r
  ∧ revealFinished
      (set_revealed (revealed r + 1) (set_queue q (set_processing true r)))
    = revealFinished r.
Proof. done. Qed.

Lemma nextSubmission_busy r :
  processing r = true →
  nextSubmission_begin r = (r, None) ∧ nextSubmission r = r.
Proof.
  intros H. unfold nextSubmission, nextSubmission_begin. by rewrite H.
Qed.

Lemma nextSubmission_finished r :
  processing r = false → revealFinished r = true → nextSubmission r = r.
Proof.
  intros H1 H2. unfold nextSubmission, nextSubmission_begin. by rewrite H1, H2.
Qed.

Lemma nextSubmission_empty r :
  processing r = false → revealFinished r = false → queue r = [] →
  nextSubmission r = finishReveal r.
Proof.
  intros H1 H2 H3. unfold nextSubmission, nextSubmission_begin.
  by rewrite H1, H2, H3.
Qed.

Lemma nextSubmission_unknown r sub q :
  processing r = false → revealFinished r = false → queue r = sub :: q →
  find_contestant (Submission.handle sub) (state r) = None →
  nextSubmission r = set_revealed (revealed r + 1) (set_queue q r).
Proof.
  intros H1 H2 H3 H4. unfold nextSubmission, nextSubmission_begin.
  rewrite H1, H2, H3. simpl. rewrite H4. simpl.
  destruct r; simpl in *; by subst.
Qed.

Lemma nextSubmission_accepted r sub q c o :
  processing r = false → revealFinished r = false → queue r = sub :: q →
  find_contestant (Submission.handle sub) (state r) = Some (c, o) →
  is_OK sub = true →
  nextSubmission r =
  nextSubmission_end
    (climbing c
       (accept sub c
          (track_persistence sub
             (set_revealed (revealed r + 1)
                (set_queue q (set_processing true r)))))).
Proof.
  intros H1 H2 H3 H4 H5. unfold nextSubmission, nextSubmission_begin.
  rewrite H1, H2, H3. cbn [state set_revealed set_queue set_processing].
  rewrite H4. cbn [drive snd fst resume]. rewrite H5. cbn [drive snd fst resume].
  case_bool_decide; reflexivity.
Qed.

Lemma nextSubmission_rejected r sub q c o :
  processing r = false → revealFinished r = false → queue r = sub :: q →
  find_contestant (Submission.handle sub) (state r) = Some (c, o) →
  is_OK sub = false →
  nextSubmission r =
  nextSubmission_end
    (reject sub c
       (track_persistence sub
          (set_revealed (revealed r + 1)
             (set_queue q (set_processing true r))))).
Proof.
  intros H1 H2 H3 H4 H5. unfold nextSubmission, nextSubmission_begin.
  rewrite H1, H2, H3. cbn [state set_revealed set_queue set_processing].
  rewrite H4. cbn [drive snd fst resume]. rewrite H5. reflexivity.
Qed.

(** Three resumptions always reach the end of the function. *)
Lemma nextSubmission_returns r : (drive 3 (nextSubmission_begin r)).2 = None.
Proof.
  unfold nextSubmission_begin.
  destruct (processing r); [done|]. destruct (revealFinished r); [done|].
  destruct (queue r) as [|sub q]; [done|].
  cbn [state set_revealed set_queue set_processing].
  destruct (find_contestant _ _) as [[c o]|]; [|done].
  cbn [drive snd fst resume]. destruct (is_OK sub); cbn [drive snd fst resume].
  - case_bool_decide; reflexivity.
  - reflexivity.
Qed.

(** At every suspension point the guard flag is set. *)
Lemma in_flight_processing r0 r a : in_flight r0 r a → processing r = true.
Proof.
  induction 1 as [r a H|r a r' a' Hin IH H].
  - unfold nextSubmission_begin in H.
    destruct (processing r0); [done|]. destruct (revealFinished r0); [done|].
    destruct (queue r0) as [|sub q]; [done|].
    cbn [state set_revealed set_queue set_processing] in H.
    destruct (find_contestant _ _) as [[c o]|]; [|done].
    assert (r = track_persistence sub
                  (set_revealed (revealed (set_queue q (set_processing true r0)) + 1)
                     (set_queue q (set_processing true r0)))) as -> by congruence.
    by rewrite (proj1 (proj2 (proj2 (proj2 (proj2 (proj2
                 (track_persistence_frame _ _))))))).
  - destruct a as [sub c|sub c| |]; simpl in H.
    + destruct (is_OK sub); simplify_eq; done.
    + case_bool_decide; [|done]. simplify_eq.
      by rewrite (proj1 (proj2 (proj2 (proj2 (proj2 (climbing_frame _ _)))))).
    + done.
    + done.
Qed.

Lemma in_flight_rejected r0 r a :
  in_flight r0 r a → nextSubmission_begin r = (r, None) ∧ nextSubmission r = r.
Proof. intros H. apply nextSubmission_busy. by eapply in_flight_processing. Qed.

(** C9. A call of [nextSubmission] made while the processing flag is set
    returns at once, without suspending, and leaves every variable of the
    reveal (queue, contestants, counters, candidates) as it was. *)
Theorem C9_reentrant_call_rejected (r : Reveal) :
  processing r = true →
  nextSubmission_begin r = (r, None) ∧ nextSubmission r = r.
Proof. apply nextSubmission_busy. Qed.

(** ** Unknown handles *)

Lemma revealAll_iter_unknown sub r :
  find_contestant (Submission.handle sub) (state r) = None →
  revealAll_iter sub r = set_revealed (revealed r + 1) r.
Proof. intros H. unfold revealAll_iter. simpl. by rewrite H. Qed.

(** C7. A submission whose handle no contestant has is skipped, in both
    modes: the step leaves the reveal as it was but for the entry taken
    off the queue and the count of revealed submissions; the batch run over
    the queue gives what it gives over the rest of the queue, again but
    for that count.  So no counter, candidate, solved count or penalty
    moves, and the rest of the queue is processed. *)
Theorem C7_unknown_handle_skipped (r : Reveal) (sub : Submission.t)
    (q : list Submission.t) :
  queue r = sub :: q →
  find_contestant (Submission.handle sub) (state r) = None →
  (processing r = false → revealFinished r = false →
   nextSubmission r = set_revealed (revealed r + 1) (set_queue q r))
  ∧ revealAll_iter sub (set_queue q r)
    = set_revealed (revealed r + 1) (set_queue q r)
  ∧ revealAll true r
    = revealAll true (set_revealed (revealed r + 1) (set_queue q r)).
Proof.
  intros Hq Hf. split_and!.
  - intros H1 H2. by apply (nextSubmission_unknown r sub q).
  - exact (revealAll_iter_unknown sub (set_queue q r) Hf).
  - unfold revealAll. simpl. rewrite Hq. simpl.
    by rewrite (revealAll_iter_unknown sub (set_queue q r) Hf).
Qed.

(** ** Rejected submissions in step mode *)

Lemma fmap_alter_proj {A B} (g : A → B) (f : A → A) (i : nat) (l : list A) :
  (∀ x, g (f x) = g x) → g <$> alter f i l = g <$> l.
Proof.
  intros H. apply list_eq. intros k. rewrite !list_lookup_fmap.
  destruct (decide (k = i)) as [->|Hne].
  - rewrite list_lookup_alter_eq. destruct (l !! i); simpl; by rewrite ?H.
  - by rewrite list_lookup_alter_ne.
Qed.

Lemma mark_failed_frame sub o :
  Contestant.handle (mark_failed sub o) = Contestant.handle o
  ∧ Contestant.freezeRank (mark_failed sub o) = Contestant.freezeRank o
  ∧ Contestant.rank (mark_failed sub o) = Contestant.rank o
  ∧ Contestant.delta (mark_failed sub o) = Contestant.delta o
  ∧ Contestant.solved (mark_failed sub o) = Contestant.solved o
  ∧ Contestant.penalty (mark_failed sub o) = Contestant.penalty o.
Proof. unfold mark_failed. by destruct (cell_solved _ _). Qed.

Lemma nextSubmission_rejected_state r sub q c o :
  processing r = false → revealFinished r = false → queue r = sub :: q →
  find_contestant (Submission.handle sub) (state r) = Some (c, o) →
  is_OK sub = false →
  state (nextSubmission r) = alter (mark_failed sub) c (state r).
Proof.
  intros H1 H2 H3 H4 H5.
  rewrite (nextSubmission_rejected r sub q c o H1 H2 H3 H4 H5).
  rewrite (proj1 (nextSubmission_end_frame _)), (proj1 (reject_frame _ _ _)).
  rewrite (proj1 (track_persistence_frame _ _)).
  by rewrite (proj1 (taken_frame q r)).
Qed.

(** C5. In step mode a rejected submission of a known contestant writes
    the failed cell only when the problem is not solved; a solved cell,
    and with it the whole list of contestants, is left as it was; no
    contestant's rank or delta moves, nor any solved count or penalty. *)
Theorem C5_rejected_step (r : Reveal) (sub : Submission.t)
    (q : list Submission.t) (c : nat) (o : Contestant.t) :
  processing r = false → revealFinished r = false → queue r = sub :: q →
  find_contestant (Submission.handle sub) (state r) = Some (c, o) →
  is_OK sub = false →
  (cell_solved o (Submission.problemIndex sub) = true →
   state (nextSubmission r) = state r)
  ∧ (cell_solved o (Submission.problemIndex sub) = false →
     state (nextSubmission r)
     = <[c := Contestant.set_probs
                (<[Submission.problemIndex sub := Cell.mk false true 0]>
                   (Contestant.probs o)) o]> (state r))
  ∧ Contestant.rank <$> state (nextSubmission r) = Contestant.rank <$> state r
  ∧ Contestant.delta <$> state (nextSubmission r) = Contestant.delta <$> state r
  ∧ Contestant.solved <$> state (nextSubmission r) = Contestant.solved <$> state r
  ∧ Contestant.penalty <$> state (nextSubmission r)
    = Contestant.penalty <$> state r.
Proof.
  intros H1 H2 H3 H4 H5.
  rewrite (nextSubmission_rejected_state r sub q c o H1 H2 H3 H4 H5).
  destruct (find_contestant_Some _ _ _ _ H4) as [Hc _].
  assert (alter (mark_failed sub) c (state r) = <[c := mark_failed sub o]> (state r))
    as Halt.
  { apply list_eq. intros k. destruct (decide (k = c)) as [->|Hne].
    - rewrite list_lookup_alter_eq, Hc, list_lookup_insert_eq; [done|].
      by eapply lookup_lt_Some.
    - by rewrite list_lookup_alter_ne, list_lookup_insert_ne. }
  destruct (mark_failed_frame sub o) as (F1 & F2 & F3 & F4 & F5 & F6).
  split_and!.
  - intros Hs. rewrite Halt. unfold mark_failed. rewrite Hs.
    by apply list_insert_id.
  - intros Hs. rewrite Halt. unfold mark_failed. by rewrite Hs.
  - apply fmap_alter_proj. intros x. apply mark_failed_frame.
  - apply fmap_alter_proj. intros x. apply mark_failed_frame.
  - apply fmap_alter_proj. intros x. apply mark_failed_frame.
  - apply fmap_alter_proj. intros x. apply mark_failed_frame.
Qed.

(** ** Accepted submissions *)

Lemma recalcRanks_penalty st :
  Contestant.penalty <$> recalcRanks st = Contestant.penalty <$> st.
Proof.
  pose proof (f_equal (fmap Contestant.penalty) (recalcRanks_unranked st)) as H.
  by rewrite <- !list_fmap_compose in H.
Qed.

Lemma recalcRanks_solved st :
  Contestant.solved <$> recalcRanks st = Contestant.solved <$> st.
Proof.
  pose proof (f_equal (fmap Contestant.solved) (recalcRanks_unranked st)) as H.
  by rewrite <- !list_fmap_compose in H.
Qed.

Lemma recalcRanks_probs st :
  Contestant.probs <$> recalcRanks st = Contestant.probs <$> st.
Proof.
  pose proof (f_equal (fmap Contestant.probs) (recalcRanks_unranked st)) as H.
  by rewrite <- !list_fmap_compose in H.
Qed.

Lemma recalcRanks_handle st :
  Contestant.handle <$> recalcRanks st = Contestant.handle <$> st.
Proof.
  pose proof (f_equal (fmap Contestant.handle) (recalcRanks_unranked st)) as H.
  by rewrite <- !list_fmap_compose in H.
Qed.

Lemma nextSubmission_accepted_state r sub q c o :
  processing r = false → revealFinished r = false → queue r = sub :: q →
  find_contestant (Submission.handle sub) (state r) = Some (c, o) →
  is_OK sub = true →
  state (nextSubmission r)
  = recalcRanks (alter (score_accepted sub) c (state r)).
Proof.
  intros H1 H2 H3 H4 H5.
  rewrite (nextSubmission_accepted r sub q c o H1 H2 H3 H4 H5).
  rewrite (proj1 (nextSubmission_end_frame _)), (proj1 (climbing_frame _ _)).
  rewrite (proj1 (accept_frame _ _ _)), (proj1 (track_persistence_frame _ _)).
  by rewrite (proj1 (taken_frame q r)).
Qed.

Lemma revealAll_iter_accepted_state r sub c o :
  find_contestant (Submission.handle sub) (state r) = Some (c, o) →
  is_OK sub = true →
  state (revealAll_iter sub r) = alter (score_accepted sub) c (state r).
Proof.
  intros H4 H5. unfold revealAll_iter.
  cbn [state set_revealed]. rewrite H4, H5.
  case_bool_decide;
    cbn [state set_lastMinuteHero set_state set_acceptedCount];
    by rewrite (proj1 (track_persistence_frame _ _)).
Qed.

(** C3. An accepted submission of a known contestant adds to that
    contestant's penalty exactly floor(relativeTimeSec / 60) plus 20 for
    each wrong attempt before, in step mode and in a turn of the batch
    loop alike; at 754 seconds after two wrong attempts that is 52. *)
Theorem C3_penalty_formula (r : Reveal) (sub : Submission.t)
    (q : list Submission.t) (c : nat) (o : Contestant.t) :
  queue r = sub :: q →
  find_contestant (Submission.handle sub) (state r) = Some (c, o) →
  is_OK sub = true →
  (processing r = false → revealFinished r = false →
   (Contestant.penalty <$> state (nextSubmission r)) !! c
   = Some (Contestant.penalty o
           + (Submission.relativeTimeSec sub `div` 60 + 20 * waBefore sub)))
  ∧ (Contestant.penalty <$> state (revealAll_iter sub (set_queue q r))) !! c
    = Some (Contestant.penalty o
            + (Submission.relativeTimeSec sub `div` 60 + 20 * waBefore sub))
  ∧ (∀ w, Submission.wrongAttemptsBefore sub = Some w → waBefore sub = w)
  ∧ (Submission.relativeTimeSec sub = 754 →
     Submission.wrongAttemptsBefore sub = Some 2 →
     Submission.relativeTimeSec sub `div` 60 + 20 * waBefore sub = 52).
Proof.
  intros Hq Hf Hok.
  destruct (find_contestant_Some _ _ _ _ Hf) as [Hc _].
  assert ((Contestant.penalty <$> alter (score_accepted sub) c (state r)) !! c
          = Some (Contestant.penalty o
                  + (Submission.relativeTimeSec sub `div` 60 + 20 * waBefore sub)))
    as Hpen.
  { by rewrite list_lookup_fmap, list_lookup_alter_eq, Hc. }
  split_and!.
  - intros H1 H2.
    rewrite (nextSubmission_accepted_state r sub q c o H1 H2 Hq Hf Hok).
    by rewrite recalcRanks_penalty.
  - by rewrite (revealAll_iter_accepted_state (set_queue q r) sub c o Hf Hok).
  - intros w Hw. unfold waBefore. by rewrite Hw.
  - intros Ht Hw. unfold waBefore. rewrite Ht, Hw. reflexivity.
Qed.

(** C2, the failing case.  Contestant A has problem A solved at the freeze
    (one problem solved, penalty 10, cell time 100).  An accepted
    submission on the same problem in the blind hour is scored again, by
    the step as by the batch: two problems solved, penalty 10 + 183, and
    the time of the cell overwritten. *)
Theorem C2_duplicate_accept_scored :
  Contestant.solved <$> state reveal_duplicate = [1]
  ∧ Contestant.penalty <$> state reveal_duplicate = [10]
  ∧ (Contestant.probs <$> state reveal_duplicate)
    = [{["A" := Cell.mk true false 100]}]
  ∧ Contestant.solved <$> state (nextSubmission reveal_duplicate) = [2]
  ∧ Contestant.penalty <$> state (nextSubmission reveal_duplicate) = [193]
  ∧ (Contestant.probs <$> state (nextSubmission reveal_duplicate))
    = [{["A" := Cell.mk true false 11000]}]
  ∧ Contestant.solved <$> state (revealAll true reveal_duplicate) = [2]
  ∧ Contestant.penalty <$> state (revealAll true reveal_duplicate) = [193]
  ∧ (Contestant.probs <$> state (revealAll true reveal_duplicate))
    = [{["A" := Cell.mk true false 11000]}].
Proof. split_and!; by vm_compute. Qed.

(** ** Batch mode against step mode *)

Lemma find_contestant_handles h st :
  fst <$> find_contestant h st
  = fst <$> list_find (λ y, y = h) (Contestant.handle <$> st).
Proof.
  unfold find_contestant. rewrite list_find_fmap.
  change ((λ y, y = h) ∘ Contestant.handle) with (λ x, Contestant.handle x = h).
  by destruct (list_find _ st) as [[i x]|].
Qed.

Lemma find_contestant_same h st st' :
  Contestant.handle <$> st = Contestant.handle <$> st' →
  fst <$> find_contestant h st = fst <$> find_contestant h st'.
Proof. intros H. by rewrite !find_contestant_handles, H. Qed.

Lemma score_accepted_frame sub o :
  Contestant.handle (score_accepted sub o) = Contestant.handle o
  ∧ Contestant.freezeRank (score_accepted sub o) = Contestant.freezeRank o
  ∧ Contestant.rank (score_accepted sub o) = Contestant.rank o
  ∧ Contestant.delta (score_accepted sub o) = Contestant.delta o
  ∧ Contestant.solved (score_accepted sub o) = Contestant.solved o + 1
  ∧ Contestant.penalty (score_accepted sub o)
    = Contestant.penalty o + penaltyDelta sub.
Proof. done. Qed.

(** A write through a reference, seen on one field of every object. *)
Lemma fmap_alter_both {A B} (g : A → B) (f : A → A) (h : B → B) i (l : list A) :
  (∀ x, g (f x) = h (g x)) → g <$> alter f i l = alter h i (g <$> l).
Proof.
  intros H. apply list_fmap_alter. apply Forall_forall. intros x _. apply H.
Qed.

Lemma track_persistence_same sub b s :
  submissionCounts b = submissionCounts s →
  mostPersistent b = mostPersistent s →
  submissionCounts (track_persistence sub b)
  = submissionCounts (track_persistence sub s)
  ∧ mostPersistent (track_persistence sub b)
    = mostPersistent (track_persistence sub s).
Proof.
  intros H1 H2. unfold track_persistence.
  cbn [mostPersistent set_submissionCounts]. rewrite H1, H2.
  case_bool_decide; done.
Qed.

(** The variables after a step, case by case. *)
Lemma nextSubmission_accepted_fields r sub q c o :
  processing r = false → revealFinished r = false → queue r = sub :: q →
  find_contestant (Submission.handle sub) (state r) = Some (c, o) →
  is_OK sub = true →
  state (nextSubmission r) = recalcRanks (alter (score_accepted sub) c (state r))
  ∧ queue (nextSubmission r) = q
  ∧ revealed (nextSubmission r) = revealed r + 1
  ∧ acceptedCount (nextSubmission r) = acceptedCount r + 1
  ∧ processing (nextSubmission r) = false
  ∧ revealFinished (nextSubmission r) = false
  ∧ submissionCounts (nextSubmission r)
    = submissionCounts (track_persistence sub r)
  ∧ mostPersistent (nextSubmission r) = mostPersistent (track_persistence sub r)
  ∧ lastMinuteHero (nextSubmission r)
    = Hero.mk (Submission.handle sub) (Submission.problemIndex sub)
        (Submission.problemName sub) (Submission.relativeTimeSec sub).
Proof.
  intros H1 H2 H3 H4 H5.
  split; [by apply (nextSubmission_accepted_state r sub q c o)|].
  rewrite (nextSubmission_accepted r sub q c o H1 H2 H3 H4 H5).
  destruct (taken_frame q r) as (_ & G2 & G3 & G4 & _ & _ & _ & _ & _ & G10).
  pose proof (track_persistence_same sub
                (set_revealed (revealed r + 1)
                   (set_queue q (set_processing true r))) r eq_refl eq_refl)
    as [T1 T2].
  set (r3 := set_revealed (revealed r + 1)
               (set_queue q (set_processing true r))) in *.
  clearbody r3.
  destruct (track_persistence_frame sub r3)
    as (F1 & F2 & F3 & F4 & F5 & F6 & F7 & F8 & F9).
  set (t := track_persistence sub r3) in *. clearbody t.
  destruct (accept_frame sub c t)
    as (A1 & A2 & A3 & A4 & A5 & A6 & A7 & A8 & A9 & A10 & A11).
  set (a := accept sub c t) in *. clearbody a.
  destruct (climbing_frame c a) as (K1 & K2 & K3 & K4 & K5 & K6 & K7 & K8 & K9).
  set (k := climbing c a) in *. clearbody k.
  destruct (nextSubmission_end_frame k)
    as (_ & E2 & E3 & E4 & _ & E6 & _ & E8 & E9 & E10 & E11).
  rewrite E2, E3, E4, E6, E8, E9, E10, E11.
  rewrite K2, K3, K4, K6, K7, K8, K9.
  rewrite A2, A3, A4, A8, A9, A10, A11.
  rewrite F2, F3, F4, F9, T1, T2, G2, G3, G4, G10, H2. done.
Qed.

Lemma nextSubmission_rejected_fields r sub q c o :
  processing r = false → revealFinished r = false → queue r = sub :: q →
  find_contestant (Submission.handle sub) (state r) = Some (c, o) →
  is_OK sub = false →
  state (nextSubmission r) = alter (mark_failed sub) c (state r)
  ∧ queue (nextSubmission r) = q
  ∧ revealed (nextSubmission r) = revealed r + 1
  ∧ acceptedCount (nextSubmission r) = acceptedCount r
  ∧ processing (nextSubmission r) = false
  ∧ revealFinished (nextSubmission r) = false
  ∧ submissionCounts (nextSubmission r)
    = submissionCounts (track_persistence sub r)
  ∧ mostPersistent (nextSubmission r) = mostPersistent (track_persistence sub r)
  ∧ lastMinuteHero (nextSubmission r) = lastMinuteHero r
  ∧ mvp (nextSubmission r) = mvp r
  ∧ rankChangeCount (nextSubmission r) = rankChangeCount r.
Proof.
  intros H1 H2 H3 H4 H5.
  split; [by apply (nextSubmission_rejected_state r sub q c o)|].
  rewrite (nextSubmission_rejected r sub q c o H1 H2 H3 H4 H5).
  destruct (taken_frame q r)
    as (_ & G2 & G3 & G4 & G5 & G6 & G7 & _ & _ & G10).
  pose proof (track_persistence_same sub
                (set_revealed (revealed r + 1)
                   (set_queue q (set_processing true r))) r eq_refl eq_refl)
    as [T1 T2].
  set (r3 := set_revealed (revealed r + 1)
               (set_queue q (set_processing true r))) in *.
  clearbody r3.
  destruct (track_persistence_frame sub r3)
    as (F1 & F2 & F3 & F4 & F5 & F6 & F7 & F8 & F9).
  set (t := track_persistence sub r3) in *. clearbody t.
  destruct (reject_frame sub c t)
    as (A1 & A2 & A3 & A4 & A5 & A6 & A7 & A8 & A9 & A10 & A11).
  set (a := reject sub c t) in *. clearbody a.
  destruct (nextSubmission_end_frame a)
    as (_ & E2 & E3 & E4 & E5 & E6 & E7 & E8 & E9 & E10 & E11).
  rewrite E2, E3, E4, E5, E6, E7, E8, E9, E10, E11.
  rewrite A2, A3, A4, A5, A7, A8, A9, A10, A11.
  rewrite F2, F3, F4, F5, F7, F8, F9, T1, T2, G2, G3, G4, G5, G6, G7, G10, H2.
  done.
Qed.

(** The variables after a turn of the batch loop, case by case. *)
Lemma revealAll_iter_accepted_fields r sub c o :
  find_contestant (Submission.handle sub) (state r) = Some (c, o) →
  is_OK sub = true →
  state (revealAll_iter sub r) = alter (score_accepted sub) c (state r)
  ∧ queue (revealAll_iter sub r) = queue r
  ∧ revealed (revealAll_iter sub r) = revealed r + 1
  ∧ acceptedCount (revealAll_iter sub r) = acceptedCount r + 1
  ∧ processing (revealAll_iter sub r) = processing r
  ∧ revealFinished (revealAll_iter sub r) = revealFinished r
  ∧ submissionCounts (revealAll_iter sub r)
    = submissionCounts (track_persistence sub r)
  ∧ mostPersistent (revealAll_iter sub r) = mostPersistent (track_persistence sub r)
  ∧ lastMinuteHero (revealAll_iter sub r)
    = (if bool_decide (Submission.relativeTimeSec sub
                       > Hero.time (lastMinuteHero r))
       then Hero.mk (Submission.handle sub) (Submission.problemIndex sub)
              (Submission.problemName sub) (Submission.relativeTimeSec sub)
       else lastMinuteHero r)
  ∧ mvp (revealAll_iter sub r) = mvp r
  ∧ rankChangeCount (revealAll_iter sub r) = rankChangeCount r.
Proof.
  intros H4 H5.
  split; [by apply (revealAll_iter_accepted_state r sub c o)|].
  unfold revealAll_iter. cbn [state set_revealed]. rewrite H4, H5.
  set (r1 := set_revealed _ _).
  destruct (track_persistence_frame sub r1)
    as (F1 & F2 & F3 & F4 & F5 & F6 & F7 & F8 & F9).
  destruct (track_persistence_same sub r1 r eq_refl eq_refl) as [T1 T2].
  cbn [lastMinuteHero set_acceptedCount set_state]. rewrite F8.
  change (lastMinuteHero r1) with (lastMinuteHero r).
  case_bool_decide;
    cbn [queue revealed acceptedCount processing revealFinished submissionCounts
           mostPersistent lastMinuteHero mvp rankChangeCount
           set_lastMinuteHero set_acceptedCount set_state];
    rewrite F2, F3, F4, F5, F6, F7, F9, T1, T2; done.
Qed.

Lemma revealAll_iter_rejected_fields r sub c o :
  find_contestant (Submission.handle sub) (state r) = Some (c, o) →
  is_OK sub = false →
  state (revealAll_iter sub r) = state r
  ∧ queue (revealAll_iter sub r) = queue r
  ∧ revealed (revealAll_iter sub r) = revealed r + 1
  ∧ acceptedCount (revealAll_iter sub r) = acceptedCount r
  ∧ processing (revealAll_iter sub r) = processing r
  ∧ revealFinished (revealAll_iter sub r) = revealFinished r
  ∧ submissionCounts (revealAll_iter sub r)
    = submissionCounts (track_persistence sub r)
  ∧ mostPersistent (revealAll_iter sub r) = mostPersistent (track_persistence sub r)
  ∧ lastMinuteHero (revealAll_iter sub r) = lastMinuteHero r
  ∧ mvp (revealAll_iter sub r) = mvp r
  ∧ rankChangeCount (revealAll_iter sub r) = rankChangeCount r.
Proof.
  intros H4 H5.
  unfold revealAll_iter. cbn [state set_revealed]. rewrite H4, H5.
  set (r1 := set_revealed _ _).
  destruct (track_persistence_frame sub r1)
    as (F1 & F2 & F3 & F4 & F5 & F6 & F7 & F8 & F9).
  destruct (track_persistence_same sub r1 r eq_refl eq_refl) as [T1 T2].
  rewrite F1, F2, F3, F4, F5, F6, F7, F8, F9, T1, T2. done.
Qed.

(** One submission, taken by a turn of the batch loop and by a step. *)
Lemma same_scores_step b s sub q :
  same_scores b s → queue s = sub :: q →
  processing s = false → revealFinished s = false →
  same_scores (revealAll_iter sub (set_queue q b)) (nextSubmission s)
  ∧ queue (nextSubmission s) = q
  ∧ processing (nextSubmission s) = false
  ∧ revealFinished (nextSubmission s) = false.
Proof.
  intros (Hh & Hf & Hs & Hp & Hc & Hm & Ha & Hr & Hq) Hqs H1 H2.
  pose proof (find_contestant_same (Submission.handle sub) _ _ Hh) as Hfind.
  destruct (track_persistence_same sub (set_queue q b) s Hc Hm) as [Hc' Hm'].
  destruct (find_contestant (Submission.handle sub) (state s)) as [[c o]|] eqn:Es.
  - destruct (find_contestant (Submission.handle sub) (state b)) as [[c' o']|] eqn:Eb;
      [|done].
    simpl in Hfind. assert (c' = c) as -> by congruence.
    destruct (is_OK sub) eqn:Eok.
    + destruct (nextSubmission_accepted_fields s sub q c o H1 H2 Hqs Es Eok)
        as (S1 & S2 & S3 & S4 & S5 & S6 & S7 & S8 & S9).
      destruct (revealAll_iter_accepted_fields (set_queue q b) sub c o' Eb Eok)
        as (B1 & B2 & B3 & B4 & B5 & B6 & B7 & B8 & B9 & _).
      split_and!; [|done..]. unfold same_scores.
      rewrite S1, S2, S3, S4, S7, S8, B1, B2, B3, B4, B7, B8.
      rewrite recalcRanks_handle, recalcRanks_freezeRank, recalcRanks_solved,
        recalcRanks_penalty.
      cbn [state queue revealed acceptedCount set_queue].
      rewrite !(fmap_alter_proj Contestant.handle),
        !(fmap_alter_proj Contestant.freezeRank),
        !(fmap_alter_both Contestant.solved _ (λ x, x + 1)),
        !(fmap_alter_both Contestant.penalty _ (λ x, x + penaltyDelta sub))
        by done.
      rewrite Hh, Hf, Hs, Hp, Ha, Hr, Hc', Hm'. done.
    + destruct (nextSubmission_rejected_fields s sub q c o H1 H2 Hqs Es Eok)
        as (S1 & S2 & S3 & S4 & S5 & S6 & S7 & S8 & S9 & _).
      destruct (revealAll_iter_rejected_fields (set_queue q b) sub c o' Eb Eok)
        as (B1 & B2 & B3 & B4 & B5 & B6 & B7 & B8 & B9 & _).
      split_and!; [|done..]. unfold same_scores.
      rewrite S1, S2, S3, S4, S7, S8, B1, B2, B3, B4, B7, B8.
      cbn [state queue revealed acceptedCount set_queue].
      rewrite !(fmap_alter_proj Contestant.handle),
        !(fmap_alter_proj Contestant.freezeRank),
        !(fmap_alter_proj Contestant.solved),
        !(fmap_alter_proj Contestant.penalty)
        by (intros x; apply mark_failed_frame).
      rewrite Hh, Hf, Hs, Hp, Ha, Hr, Hc', Hm'. done.
  - destruct (find_contestant (Submission.handle sub) (state b)) as [[c' o']|] eqn:Eb;
      [done|].
    rewrite (nextSubmission_unknown s sub q H1 H2 Hqs Es).
    rewrite (revealAll_iter_unknown sub (set_queue q b) Eb).
    unfold same_scores. simpl. rewrite Hr. done.
Qed.

Lemma fmap_eq_lookup {A B} (g : A → B) (l l' : list A) i x x' :
  g <$> l = g <$> l' → l !! i = Some x → l' !! i = Some x' → g x = g x'.
Proof.
  intros H Hx Hx'. apply (f_equal (λ k, k !! i)) in H.
  rewrite !list_lookup_fmap, Hx, Hx' in H. simpl in H. congruence.
Qed.






Lemma nextSubmission_handles s sub q :
  queue s = sub :: q → processing s = false → revealFinished s = false →
  Contestant.handle <$> state (nextSubmission s) = Contestant.handle <$> state s.
Proof.
  intros Hq H1 H2.
  destruct (find_contestant (Submission.handle sub) (state s)) as [[c o]|] eqn:Es.
  - destruct (is_OK sub) eqn:Eok.
    + rewrite (nextSubmission_accepted_state s sub q c o H1 H2 Hq Es Eok).
      rewrite recalcRanks_handle. by apply fmap_alter_proj.
    + rewrite (nextSubmission_rejected_state s sub q c o H1 H2 Hq Es Eok).
      apply fmap_alter_proj. intros x. apply mark_failed_frame.
  - by rewrite (nextSubmission_unknown s sub q H1 H2 Hq Es).
Qed.


(** The batch loop and the steps, over the whole queue. *)
Lemma same_scores_run q :
  ∀ b s, same_scores b s → queue s = q →
         processing s = false → revealFinished s = false →
         same_scores (revealAll_loop q b) (Nat.iter (length q) nextSubmission s)
         ∧ queue (Nat.iter (length q) nextSubmission s) = []
         ∧ processing (Nat.iter (length q) nextSubmission s) = false
         ∧ revealFinished (Nat.iter (length q) nextSubmission s) = false.
Proof.
  induction q as [|sub q IH]; intros b s Hsim Hq H1 H2.
  { done. }
  cbn [length revealAll_loop]. rewrite Nat.iter_succ_r.
  destruct (same_scores_step b s sub q Hsim Hq H1 H2) as (Hsim' & Hq' & H1' & H2').
  by apply IH.
Qed.


Lemma find_contestant_known h st c o :
  find_contestant h st = Some (c, o) → h ∈ Contestant.handle <$> st.
Proof.
  intros H. apply find_contestant_Some in H as [Hc <-].
  apply list_elem_of_fmap. exists o. split; [done|].
  by eapply list_elem_of_lookup_2.
Qed.


(** The last loop of [revealAll] writes [mvp] and [rankChangeCount] only. *)
Lemma tally_frame old r c :
  state (tally old r c) = state r
  ∧ queue (tally old r c) = queue r
  ∧ revealed (tally old r c) = revealed r
  ∧ acceptedCount (tally old r c) = acceptedCount r
  ∧ processing (tally old r c) = processing r
  ∧ lastMinuteHero (tally old r c) = lastMinuteHero r
  ∧ submissionCounts (tally old r c) = submissionCounts r
  ∧ mostPersistent (tally old r c) = mostPersistent r
  ∧ revealFinished (tally old r c) = revealFinished r.
Proof. unfold tally. repeat case_bool_decide; done. Qed.

Lemma foldl_tally_frame old l :
  ∀ r, state (foldl (tally old) r l) = state r
       ∧ queue (foldl (tally old) r l) = queue r
       ∧ revealed (foldl (tally old) r l) = revealed r
       ∧ acceptedCount (foldl (tally old) r l) = acceptedCount r
       ∧ processing (foldl (tally old) r l) = processing r
       ∧ lastMinuteHero (foldl (tally old) r l) = lastMinuteHero r
       ∧ submissionCounts (foldl (tally old) r l) = submissionCounts r
       ∧ mostPersistent (foldl (tally old) r l) = mostPersistent r
       ∧ revealFinished (foldl (tally old) r l) = revealFinished r.
Proof.
  induction l as [|c l IH]; intros r; simpl; [done|].
  destruct (IH (tally old r c)) as (-> & -> & -> & -> & -> & -> & -> & -> & ->).
  apply tally_frame.
Qed.

(** What [revealAll] leaves, in terms of its loop. *)
Lemma revealAll_fields r :
  state (revealAll true r) = recalcRanks (state (revealAll_loop (queue r) r))
  ∧ queue (revealAll true r) = queue (revealAll_loop (queue r) r)
  ∧ revealed (revealAll true r) = revealed (revealAll_loop (queue r) r)
  ∧ acceptedCount (revealAll true r) = acceptedCount (revealAll_loop (queue r) r)
  ∧ lastMinuteHero (revealAll true r)
    = lastMinuteHero (revealAll_loop (queue r) r)
  ∧ submissionCounts (revealAll true r)
    = submissionCounts (revealAll_loop (queue r) r)
  ∧ mostPersistent (revealAll true r)
    = mostPersistent (revealAll_loop (queue r) r)
  ∧ revealFinished (revealAll true r) = true.
Proof.
  unfold revealAll, finishReveal. cbn [negb].
  set (bl := revealAll_loop (queue r) r).
  destruct (foldl_tally_frame (snapshot_ranks (state r))
              (state (set_state (recalcRanks (state bl)) bl))
              (set_state (recalcRanks (state bl)) bl))
    as (F1 & F2 & F3 & F4 & F5 & F6 & F7 & F8 & F9).
  cbn [state queue revealed acceptedCount lastMinuteHero submissionCounts
         mostPersistent revealFinished set_revealFinished].
  rewrite F1, F2, F3, F4, F6, F7, F8. done.
Qed.

(** What step mode leaves, in terms of its steps over the queue. *)
Lemma stepAll_fields r :
  processing r = false → revealFinished r = false →
  stepAll r = finishReveal (Nat.iter (length (queue r)) nextSubmission r).
Proof.
  intros H1 H2. unfold stepAll. cbn [Nat.iter nat_rect].
  destruct (same_scores_run (queue r) r r) as (_ & Hq & H1' & H2'); [done..|].
  by apply nextSubmission_empty.
Qed.



(** ** The clock *)

Lemma updateTimerDisplay_static now k :
  contestDurationSec (updateTimerDisplay now k).1 = contestDurationSec k
  ∧ freezeAtSec (updateTimerDisplay now k).1 = freezeAtSec k
  ∧ contestStartTimestamp (updateTimerDisplay now k).1 = contestStartTimestamp k
  ∧ timeScale (updateTimerDisplay now k).1 = timeScale k.
Proof.
  unfold updateTimerDisplay, enterContestEndedPhase, stopContestTimer,
    enterFrozenPhase.
  cbn [fst]. repeat (case_match; cbn); done.
Qed.

Lemma updateTimerDisplay_tick now k :
  Tick.elapsed (updateTimerDisplay now k).2 = elapsedSec now k
  ∧ Tick.remaining (updateTimerDisplay now k).2
    = Z.max 0 (contestDurationSec k - elapsedSec now k)
  ∧ Tick.remainingUntilFreeze (updateTimerDisplay now k).2
    = Z.max 0 (freezeAtSec k - elapsedSec now k).
Proof. done. Qed.




Lemma run_clock_length nows : ∀ k, length (run_clock nows k) = length nows.
Proof. induction nows as [|now rest IH]; intros k; simpl; [done|]. by rewrite IH. Qed.






(** ** The awards *)

Lemma separator_string : String separator "" = "|".
Proof. reflexivity. Qed.

Lemma append_nil_l (s : string) : "" +:+ s = s.
Proof. reflexivity. Qed.

Lemma append_cons_l (a : Ascii.ascii) (s t : string) :
  String a s +:+ t = String a (s +:+ t).
Proof. reflexivity. Qed.

(** Without the separator in the handles, the counter tells the pair. *)
Lemma count_key_inj h p h' p' :
  has_separator h = false → has_separator h' = false →
  count_key h p = count_key h' p' → h = h' ∧ p = p'.
Proof.
  unfold count_key. rewrite <- separator_string, !append_cons_l, !append_nil_l.
  revert h'.
  induction h as [|a h IH]; intros [|a' h'] Hh Hh' Heq;
    rewrite ?append_cons_l, ?append_nil_l in Heq; cbn in Hh, Hh'.
  - injection Heq as Heq. by subst.
  - injection Heq as Ha _. subst a'. by rewrite Ascii.eqb_refl in Hh'.
  - injection Heq as Ha _. subst a. by rewrite Ascii.eqb_refl in Hh.
  - injection Heq as Ha Heq. subst a'.
    destruct (Ascii.eqb a separator); [done|].
    destruct (IH h' Hh Hh' Heq) as [-> ->]. done.
Qed.

(** The gates of [showAwards] and of the banner of [finishReveal]. *)
Lemma showAwards_gates r :
  (∀ m, hillClimber (showAwards r) = Some m →
        m = mvp r ∧ Mvp.delta m > 0 ∧ Mvp.handle m ≠ "")
  ∧ (∀ m, mvp_section r = Some m →
          m = mvp r ∧ Mvp.delta m > 0 ∧ Mvp.handle m ≠ "")
  ∧ (Mvp.delta (mvp r) ≤ 0 →
     hillClimber (showAwards r) = None ∧ mvp_section r = None)
  ∧ (∀ p, notGiveUp (showAwards r) = Some p →
          p = mostPersistent r ∧ Persistent.count p > 1
          ∧ Persistent.handle p ≠ "")
  ∧ (Persistent.count (mostPersistent r) ≤ 1 → notGiveUp (showAwards r) = None).
Proof.
  unfold showAwards, mvp_section, truthy. cbn [hillClimber notGiveUp].
  split_and!.
  - intros m. repeat case_bool_decide; cbn; intros Hm; by simplify_eq.
  - intros m. repeat case_bool_decide; cbn; intros Hm; by simplify_eq.
  - intros Hm. repeat case_bool_decide; cbn; try done; lia.
  - intros p. repeat case_bool_decide; cbn; intros Hm; by simplify_eq.
  - intros Hm. repeat case_bool_decide; cbn; try done; lia.
Qed.


Lemma counters_bounded_mono st bound bound' r :
  (∀ k, bound k ≤ bound' k) →
  counters_bounded st bound r → counters_bounded st bound' r.
Proof.
  intros Hle (H1 & H2 & H3 & H4). split_and!; [|done..].
  intros k. specialize (H1 k). specialize (Hle k). lia.
Qed.

Lemma counted_on_cons st k sub q :
  counted_on st k (sub :: q)
  = ((if bool_decide (known st sub
                      ∧ count_key (Submission.handle sub)
                          (Submission.problemIndex sub) = k)
      then 1 else 0) + counted_on st k q)%nat.
Proof.
  unfold counted_on. case_bool_decide.
  - by rewrite filter_cons_True.
  - by rewrite filter_cons_False.
Qed.

Lemma track_persistence_bounded st bound r sub :
  known st sub → counters_bounded st bound r →
  counters_bounded st
    (λ k, bound k + Z.of_nat (counted_on st k [sub]))
    (track_persistence sub r).
Proof.
  intros Hk (H1 & H2 & H3 & H4). unfold track_persistence.
  set (key := count_key (Submission.handle sub) (Submission.problemIndex sub)).
  set (this := default 0 (submissionCounts r !! key) + 1).
  assert (∀ k, default 0 (<[key:=this]> (submissionCounts r) !! k)
               = if decide (key = k) then this
                 else default 0 (submissionCounts r !! k)) as Hlook.
  { intros k. rewrite lookup_insert. by case_decide. }
  assert (∀ k, Z.of_nat (counted_on st k [sub])
               = if decide (key = k) then 1 else 0) as Hcnt.
  { intros k. rewrite counted_on_cons. unfold counted_on. cbn.
    case_bool_decide as Hb; case_decide; try done.
    - destruct Hb as [_ Hb]. done.
    - exfalso. apply Hb. done. }
  assert (counters_bounded st
            (λ k, bound k + Z.of_nat (counted_on st k [sub]))
            (set_submissionCounts (<[key:=this]> (submissionCounts r)) r)) as Hbase.
  { split_and!; cbn [submissionCounts mostPersistent set_submissionCounts].
    - intros k. rewrite Hlook, Hcnt. specialize (H1 k).
      case_decide; subst; unfold this; lia.
    - rewrite Hlook. case_decide as Hd; [|done].
      rewrite <- Hd in H2. unfold this. lia.
    - done.
    - intros k. rewrite Hlook. pose proof (H4 k). pose proof (H4 key).
      case_decide; unfold this; lia. }
  cbn [mostPersistent set_submissionCounts].
  case_bool_decide as Hgt; [|done].
  destruct Hbase as (B1 & B2 & B3 & B4).
  split_and!; cbn [submissionCounts mostPersistent set_submissionCounts
                     set_mostPersistent Persistent.count Persistent.handle
                     Persistent.problemIndex].
  - done.
  - fold key. rewrite Hlook. by rewrite decide_True.
  - intros _. done.
  - done.
Qed.

Lemma revealAll_iter_handles sub r :
  Contestant.handle <$> state (revealAll_iter sub r)
  = Contestant.handle <$> state r.
Proof.
  destruct (find_contestant (Submission.handle sub) (state r)) as [[c o]|] eqn:E.
  - destruct (is_OK sub) eqn:Eok.
    + rewrite (revealAll_iter_accepted_state r sub c o E Eok).
      by apply fmap_alter_proj.
    + by destruct (revealAll_iter_rejected_fields r sub c o E Eok) as (-> & _).
  - by rewrite (revealAll_iter_unknown sub r E).
Qed.

Lemma revealAll_iter_bounded st bound r sub :
  Contestant.handle <$> state r = Contestant.handle <$> st →
  counters_bounded st bound r →
  counters_bounded st
    (λ k, bound k + Z.of_nat (counted_on st k [sub]))
    (revealAll_iter sub r).
Proof.
  intros Hh Hb.
  destruct (find_contestant (Submission.handle sub) (state r)) as [[c o]|] eqn:E.
  - assert (known st sub) as Hk.
    { unfold known. rewrite <- Hh. by eapply find_contestant_known. }
    pose proof (track_persistence_bounded st bound r sub Hk Hb)
      as (T1 & T2 & T3 & T4).
    destruct (is_OK sub) eqn:Eok.
    + destruct (revealAll_iter_accepted_fields r sub c o E Eok)
        as (_ & _ & _ & _ & _ & _ & B7 & B8 & _).
      unfold counters_bounded. rewrite B7, B8. done.
    + destruct (revealAll_iter_rejected_fields r sub c o E Eok)
        as (_ & _ & _ & _ & _ & _ & B7 & B8 & _).
      unfold counters_bounded. rewrite B7, B8. done.
  - rewrite (revealAll_iter_unknown sub r E).
    eapply counters_bounded_mono; [|exact Hb]. intros k. cbn. lia.
Qed.

Lemma revealAll_loop_bounded st q :
  ∀ r bound,
    Contestant.handle <$> state r = Contestant.handle <$> st →
    counters_bounded st bound r →
    counters_bounded st (λ k, bound k + Z.of_nat (counted_on st k q))
      (revealAll_loop q r).
Proof.
  induction q as [|sub q IH]; intros r bound Hh Hb; cbn [revealAll_loop].
  { eapply counters_bounded_mono; [|exact Hb]. intros k. cbn. lia. }
  pose proof (revealAll_iter_bounded st bound (set_queue q r) sub Hh Hb) as Hb'.
  pose proof (IH (revealAll_iter sub (set_queue q r)) _
                (eq_trans (revealAll_iter_handles sub (set_queue q r)) Hh) Hb')
    as Hfin.
  eapply counters_bounded_mono; [|exact Hfin].
  intros k. cbn beta. rewrite (counted_on_cons st k sub q).
  rewrite (counted_on_cons st k sub []).
  change (counted_on st k []) with 0%nat. case_bool_decide; lia.
Qed.

Lemma filter_length_le {A} (P Q : A → Prop)
    `{!∀ x, Decision (P x)} `{!∀ x, Decision (Q x)} (l : list A) :
  (∀ x, x ∈ l → P x → Q x) →
  (length (filter P l) ≤ length (filter Q l))%nat.
Proof.
  induction l as [|x l IH]; intros Himp; [done|].
  assert (length (filter P l) ≤ length (filter Q l))%nat as IH'.
  { apply IH. intros y Hy. apply Himp. by right. }
  destruct (decide (P x)) as [HP|HP].
  - rewrite filter_cons_True by done.
    rewrite (filter_cons_True Q) by (apply Himp; [left|done]). cbn. lia.
  - rewrite filter_cons_False by done.
    destruct (decide (Q x)).
    + rewrite (filter_cons_True Q) by done. cbn. lia.
    + by rewrite (filter_cons_False Q).
Qed.

(** Without separators in the handles of the board, a persistence
    candidate counted more than once has that many submissions on its
    own handle and problem. *)
Lemma persistence_candidate_sound r :
  submissionCounts r = ∅ → mostPersistent r = Persistent.init →
  Forall (λ c, has_separator (Contestant.handle c) = false) (state r) →
  0 < Persistent.count (mostPersistent (revealAll_loop (queue r) r)) →
  Persistent.count (mostPersistent (revealAll_loop (queue r) r))
  ≤ Z.of_nat
      (submissions_on
         (Persistent.handle (mostPersistent (revealAll_loop (queue r) r)))
         (Persistent.problemIndex (mostPersistent (revealAll_loop (queue r) r)))
         (queue r)).
Proof.
  intros Hc Hm Hsep Hpos.
  assert (counters_bounded (state r) (λ _, 0) r) as Hinit.
  { unfold counters_bounded. rewrite Hc, Hm. cbn.
    split_and!; intros; rewrite ?lookup_empty; cbn; done. }
  pose proof (revealAll_loop_bounded (state r) (queue r) r _ eq_refl Hinit)
    as (B1 & B2 & B3 & _).
  set (p := mostPersistent (revealAll_loop (queue r) r)) in *.
  specialize (B3 Hpos).
  specialize (B1 (count_key (Persistent.handle p) (Persistent.problemIndex p))).
  cbn beta in B1.
  assert (∀ h, h ∈ Contestant.handle <$> state r → has_separator h = false)
    as Hnosep.
  { intros h (c & -> & Hin)%list_elem_of_fmap.
    rewrite Forall_forall in Hsep. by apply Hsep. }
  assert (counted_on (state r)
            (count_key (Persistent.handle p) (Persistent.problemIndex p)) (queue r)
          ≤ submissions_on (Persistent.handle p) (Persistent.problemIndex p)
              (queue r))%nat as Hle.
  { unfold counted_on, submissions_on. apply filter_length_le.
    intros sub _ [Hk Hkey]. unfold known in Hk.
    by apply (count_key_inj _ _ _ _ (Hnosep _ Hk) (Hnosep _ B3)). }
  lia.
Qed.

(** *** The MVP candidate *)

Lemma climbing_mvp c x : climb_of c x ≤ 0 → mvp (climbing c x) = mvp x.
Proof. intros H. unfold climbing. rewrite bool_decide_false by lia. done. Qed.

Lemma nextSubmission_mvp s sub q :
  queue s = sub :: q → processing s = false → revealFinished s = false →
  no_rank_gained s (nextSubmission s) → mvp (nextSubmission s) = mvp s.
Proof.
  intros Hq H1 H2 Hno.
  destruct (find_contestant (Submission.handle sub) (state s)) as [[c o]|] eqn:Es.
  - destruct (is_OK sub) eqn:Eok.
    + pose proof (nextSubmission_accepted_state s sub q c o H1 H2 Hq Es Eok) as Hst.
      rewrite (nextSubmission_accepted s sub q c o H1 H2 Hq Es Eok).
      destruct (taken_frame q s) as (G1 & _ & _ & _ & _ & G6 & _).
      set (r3 := set_revealed (revealed s + 1)
                   (set_queue q (set_processing true s))) in *.
      clearbody r3.
      destruct (track_persistence_frame sub r3)
        as (F1 & _ & _ & _ & _ & _ & F7 & _).
      set (t := track_persistence sub r3) in *. clearbody t.
      destruct (accept_frame sub c t) as (A1 & _ & _ & _ & _ & _ & A7 & _).
      destruct (find_contestant_Some _ _ _ _ Es) as [Hc _].
      assert (climb_of c (accept sub c t) ≤ 0) as Hclimb.
      { unfold climb_of. rewrite A1, F1, G1.
        assert (alter (score_accepted sub) c (state s) !!! c = score_accepted sub o)
          as ->.
        { apply list_lookup_total_correct. by rewrite list_lookup_alter_eq, Hc. }
        assert (is_Some (recalcRanks (alter (score_accepted sub) c (state s)) !! c))
          as [o' Ho'].
        { apply lookup_lt_is_Some. rewrite recalcRanks_length, length_alter.
          by eapply lookup_lt_Some. }
        rewrite (list_lookup_total_correct _ _ _ Ho').
        rewrite <- Hst in Ho'. specialize (Hno c o o' Hc Ho').
        pose proof (proj1 (proj2 (proj2 (score_accepted_frame sub o)))) as Hrk.
        rewrite Hrk. lia. }
      set (a := accept sub c t) in *. clearbody a.
      pose proof (climbing_mvp c a Hclimb) as Hk.
      set (k := climbing c a) in *. clearbody k.
      destruct (nextSubmission_end_frame k) as (_ & _ & _ & _ & _ & _ & E7 & _).
      by rewrite E7, Hk, A7, F7, G6.
    + by destruct (nextSubmission_rejected_fields s sub q c o H1 H2 Hq Es Eok)
        as (_ & _ & _ & _ & _ & _ & _ & _ & _ & -> & _).
  - by rewrite (nextSubmission_unknown s sub q H1 H2 Hq Es).
Qed.

Lemma mvp_run q :
  ∀ s, queue s = q → processing s = false → revealFinished s = false →
       (∀ i, (i < length q)%nat →
             no_rank_gained (Nat.iter i nextSubmission s)
               (Nat.iter (S i) nextSubmission s)) →
       mvp (Nat.iter (length q) nextSubmission s) = mvp s.
Proof.
  induction q as [|sub q IH]; intros s Hq H1 H2 Hno; [done|].
  cbn [length]. rewrite Nat.iter_succ_r.
  destruct (same_scores_step s s sub q) as (_ & Hq' & H1' & H2'); [done..|].
  rewrite (IH (nextSubmission s) Hq' H1' H2').
  - apply (nextSubmission_mvp s sub q Hq H1 H2).
    apply (Hno 0%nat). cbn. lia.
  - intros i Hi. rewrite <- !Nat.iter_succ_r. apply Hno. cbn. lia.
Qed.

Lemma snapshot_ranks_other st :
  ∀ (m : gmap string Z) k, k ∉ Contestant.handle <$> st →
         foldl (λ (m : gmap string Z) c,
                  <[Contestant.handle c := Contestant.rank c]> m) m st !! k
         = m !! k.
Proof.
  induction st as [|x st IH]; intros m k Hk; cbn; [done|].
  rewrite fmap_cons, not_elem_of_cons in Hk. destruct Hk as [Hne Hk].
  rewrite (IH _ k Hk). by rewrite lookup_insert_ne.
Qed.

Lemma snapshot_ranks_lookup st c o :
  NoDup (Contestant.handle <$> st) → st !! c = Some o →
  snapshot_ranks st !! Contestant.handle o = Some (Contestant.rank o).
Proof.
  unfold snapshot_ranks. generalize (∅ : gmap string Z). revert c.
  induction st as [|x st IH]; intros c m Hnd Hc; [done|].
  rewrite fmap_cons in Hnd. apply NoDup_cons in Hnd as [Hx Hnd].
  destruct c as [|c]; cbn in Hc |- *.
  - assert (x = o) as -> by congruence.
    rewrite (snapshot_ranks_other st _ _ Hx). by rewrite lookup_insert_eq.
  - by apply (IH c).
Qed.

Lemma tally_mvp old r c :
  0 ≤ Mvp.delta (mvp r) → batch_delta old c ≤ 0 → mvp (tally old r c) = mvp r.
Proof.
  intros H0 Hd. unfold tally.
  assert (∀ x, mvp (if bool_decide (batch_delta old c ≠ 0)
                    then set_rankChangeCount x r else r) = mvp r) as Hm
    by (intros; by case_bool_decide).
  rewrite bool_decide_false; [apply Hm|]. rewrite Hm. lia.
Qed.

Lemma foldl_tally_mvp old l :
  ∀ r, 0 ≤ Mvp.delta (mvp r) → Forall (λ c, batch_delta old c ≤ 0) l →
       mvp (foldl (tally old) r l) = mvp r.
Proof.
  induction l as [|c l IH]; intros r H0 Hall; cbn; [done|].
  apply Forall_cons in Hall as [Hc Hall].
  pose proof (tally_mvp old r c H0 Hc) as Hm.
  rewrite IH; [done| |done]. by rewrite Hm.
Qed.

Lemma revealAll_loop_frame q :
  ∀ r, mvp (revealAll_loop q r) = mvp r
       ∧ Contestant.handle <$> state (revealAll_loop q r)
         = Contestant.handle <$> state r.
Proof.
  induction q as [|sub q IH]; intros r; cbn [revealAll_loop]; [done|].
  destruct (IH (revealAll_iter sub (set_queue q r))) as [-> ->].
  rewrite revealAll_iter_handles. split; [|done].
  destruct (find_contestant (Submission.handle sub) (state (set_queue q r)))
    as [[c o]|] eqn:E.
  - destruct (is_OK sub) eqn:Eok.
    + by destruct (revealAll_iter_accepted_fields _ sub c o E Eok)
        as (_ & _ & _ & _ & _ & _ & _ & _ & _ & -> & _).
    + by destruct (revealAll_iter_rejected_fields _ sub c o E Eok)
        as (_ & _ & _ & _ & _ & _ & _ & _ & _ & -> & _).
  - by rewrite (revealAll_iter_unknown sub _ E).
Qed.

Lemma revealAll_mvp r :
  NoDup (Contestant.handle <$> state r) → 0 ≤ Mvp.delta (mvp r) →
  no_rank_gained r (revealAll true r) → mvp (revealAll true r) = mvp r.
Proof.
  intros Hnd H0 Hno.
  destruct (revealAll_fields r) as (B1 & _).
  assert (∀ c o o', state r !! c = Some o →
            recalcRanks (state (revealAll_loop (queue r) r)) !! c = Some o' →
            Contestant.rank o ≤ Contestant.rank o') as Hno'.
  { intros c o o' Ho Ho'. apply (Hno c o o' Ho). by rewrite B1. }
  clear Hno B1.
  unfold revealAll. cbn [negb]. unfold finishReveal.
  cbn [mvp state set_revealFinished].
  set (bl := revealAll_loop (queue r) r) in *.
  destruct (revealAll_loop_frame (queue r) r) as [Hm Hh]. fold bl in Hm, Hh.
  rewrite foldl_tally_mvp;
    [exact Hm|cbn [mvp set_state]; by rewrite Hm|].
  cbn [state set_state]. apply Forall_lookup. intros c o' Ho'.
  assert (is_Some (state r !! c)) as [o Ho].
  { apply lookup_lt_is_Some.
    rewrite <- (length_fmap Contestant.handle), <- Hh, length_fmap.
    rewrite <- recalcRanks_length. by eapply lookup_lt_Some. }
  assert (Contestant.handle o' = Contestant.handle o) as Hho.
  { apply (fmap_eq_lookup Contestant.handle (recalcRanks (state bl)) (state r) c);
      [|done..]. by rewrite recalcRanks_handle. }
  pose proof (Hno' c o o' Ho Ho') as Hrk.
  unfold batch_delta. rewrite Hho, (snapshot_ranks_lookup _ c o Hnd Ho).
  case_bool_decide; lia.
Qed.

Lemma mostPersistent_final r :
  processing r = false → revealFinished r = false →
  mostPersistent (stepAll r) = mostPersistent (revealAll_loop (queue r) r)
  ∧ mostPersistent (revealAll true r)
    = mostPersistent (revealAll_loop (queue r) r).
Proof.
  intros H1 H2.
  destruct (revealAll_fields r) as (_ & _ & _ & _ & _ & _ & B7 & _).
  rewrite (stepAll_fields r H1 H2).
  destruct (same_scores_run (queue r) r r) as (Hsim & _); [done..|].
  destruct Hsim as (_ & _ & _ & _ & _ & Hm & _).
  unfold finishReveal. cbn [mostPersistent set_revealFinished].
  by rewrite B7, Hm.
Qed.

(** C8.  The persistence award is meant for the most submissions on a
    single problem, counted per handle and problem, so that a contestant
    with exactly one submission on a problem never qualifies.  The code
    breaks this where two pairs share the counter key
    [handle + '|' + problemIndex]: contestant "a" submits once on problem
    "b|c" and contestant "a|b" once on problem "c", both submissions fall
    on the counter "a|b|c", and in both modes "a" gets the award for 2
    attempts on a problem it submitted once. *)
Lemma C8_single_submission_awarded :
  notGiveUp (showAwards (stepAll reveal_colliding_keys))
  = Some (Persistent.mk "a" "b|c" "Bars" 2)
  ∧ notGiveUp (showAwards (revealAll true reveal_colliding_keys))
    = Some (Persistent.mk "a" "b|c" "Bars" 2)
  ∧ submissions_on "a" "b|c" (queue reveal_colliding_keys) = 1%nat.
Proof. split_and!; by vm_compute. Qed.

(** The gates of the awards, and where the counters are sound.
    [showAwards] (and the banner of [finishReveal]) shows no MVP unless
    the tracked delta is greater than 0, and no persistence award unless
    the tracked count is greater than 1.  In a reveal begun fresh whose
    contestants' handles do not contain the character "|", no two pairs
    share a counter: a persistence award, in either mode, goes to a handle
    and problem with at least two submissions in the queue, and at least
    as many as the count shown.  A fresh reveal in which no contestant's
    rank ever gets better from one step to the next ends step mode with no
    MVP; with distinct handles, a fresh reveal whose batch run betters no
    rank ends with no MVP. *)
Theorem awards_thresholds (r : Reveal) :
  ((∀ m, hillClimber (showAwards r) = Some m → m = mvp r ∧ Mvp.delta m > 0)
   ∧ (∀ m, mvp_section r = Some m → m = mvp r ∧ Mvp.delta m > 0)
   ∧ (Mvp.delta (mvp r) ≤ 0 →
      hillClimber (showAwards r) = None ∧ mvp_section r = None)
   ∧ (∀ p, notGiveUp (showAwards r) = Some p →
           p = mostPersistent r ∧ Persistent.count p > 1)
   ∧ (Persistent.count (mostPersistent r) ≤ 1 →
      notGiveUp (showAwards r) = None))
  ∧ (fresh r →
     Forall (λ c, has_separator (Contestant.handle c) = false) (state r) →
     ∀ p, notGiveUp (showAwards (stepAll r)) = Some p
          ∨ notGiveUp (showAwards (revealAll true r)) = Some p →
          (2 ≤ submissions_on (Persistent.handle p) (Persistent.problemIndex p)
                 (queue r))%nat
          ∧ Persistent.count p
            ≤ Z.of_nat (submissions_on (Persistent.handle p)
                          (Persistent.problemIndex p) (queue r)))
  ∧ (fresh r →
     (∀ i, (i < length (queue r))%nat →
           no_rank_gained (Nat.iter i nextSubmission r)
             (Nat.iter (S i) nextSubmission r)) →
     hillClimber (showAwards (stepAll r)) = None)
  ∧ (fresh r →
     NoDup (Contestant.handle <$> state r) →
     no_rank_gained r (revealAll true r) →
     hillClimber (showAwards (revealAll true r)) = None).
Proof.
  split_and!.
  - intros m Hm. by destruct (proj1 (showAwards_gates r) m Hm) as (? & ? & _).
  - intros m Hm.
    by destruct (proj1 (proj2 (showAwards_gates r)) m Hm) as (? & ? & _).
  - apply showAwards_gates.
  - intros p Hp. destruct (showAwards_gates r) as (_ & _ & _ & G & _).
    by destruct (G p Hp) as (? & ? & _).
  - apply showAwards_gates.
  - intros (H1 & H2 & _ & Hc & Hm) Hsep p Hp.
    destruct (mostPersistent_final r H1 H2) as [Es Eb].
    assert (p = mostPersistent (revealAll_loop (queue r) r)
            ∧ Persistent.count p > 1) as [-> Hgt].
    { destruct Hp as [Hp|Hp].
      - destruct (showAwards_gates (stepAll r)) as (_ & _ & _ & G & _).
        destruct (G p Hp) as (-> & ? & _). split; [exact Es|done].
      - destruct (showAwards_gates (revealAll true r)) as (_ & _ & _ & G & _).
        destruct (G p Hp) as (-> & ? & _). split; [exact Eb|done]. }
    assert (0 < Persistent.count (mostPersistent (revealAll_loop (queue r) r)))
      as Hpos by lia.
    pose proof (persistence_candidate_sound r Hc Hm Hsep Hpos) as Hle.
    split; [lia|done].
  - intros (H1 & H2 & Hmvp & _) Hno.
    apply showAwards_gates.
    rewrite (stepAll_fields r H1 H2). unfold finishReveal.
    cbn [mvp set_revealFinished].
    rewrite (mvp_run (queue r) r eq_refl H1 H2 Hno), Hmvp. done.
  - intros (H1 & H2 & Hmvp & _) Hnd Hno.
    apply showAwards_gates.
    rewrite (revealAll_mvp r Hnd); [by rewrite Hmvp| by rewrite Hmvp|done].
Qed.

(** ** The theorems at concrete reveals *)

Lemma no_rank_gained_ranks r r' :
  Forall2 Z.le (Contestant.rank <$> state r) (Contestant.rank <$> state r') →
  no_rank_gained r r'.
Proof.
  intros H c o o' Ho Ho'.
  apply (Forall2_lookup_lr _ _ _ c (Contestant.rank o) (Contestant.rank o') H);
    by rewrite list_lookup_fmap, ?Ho, ?Ho'.
Qed.


Lemma C3_penalty_formula_witness :
  queue reveal_754 = [sub_754]
  ∧ find_contestant (Submission.handle sub_754) (state reveal_754)
    = Some (1%nat, Contestant.mk "B" 2 1 50 2 1 50 ∅ 0)
  ∧ is_OK sub_754 = true
  ∧ (Contestant.penalty <$> state (nextSubmission reveal_754)) !! 1%nat
    = Some (50 + (754 `div` 60 + 20 * 2))
  ∧ 754 `div` 60 + 20 * 2 = 52.
Proof.
  assert (queue reveal_754 = [sub_754]) as Hq by (vm_compute; reflexivity).
  assert (find_contestant (Submission.handle sub_754) (state reveal_754)
          = Some (1%nat, Contestant.mk "B" 2 1 50 2 1 50 ∅ 0)) as Hf
    by (vm_compute; reflexivity).
  assert (is_OK sub_754 = true) as Hok by (vm_compute; reflexivity).
  assert (processing reveal_754 = false) as H1 by (vm_compute; reflexivity).
  assert (revealFinished reveal_754 = false) as H2 by (vm_compute; reflexivity).
  destruct (C3_penalty_formula reveal_754 sub_754 [] 1
              (Contestant.mk "B" 2 1 50 2 1 50 ∅ 0) Hq Hf Hok)
    as (S1 & _ & _ & S4).
  split_and!; [exact Hq|exact Hf|exact Hok| |].
  - apply (S1 H1 H2).
  - apply (S4 eq_refl eq_refl).
Defined.

Lemma C4_ranking_order_witness :
  state reveal_overtake !! 1%nat = Some (Contestant.mk "B" 2 1 50 2 1 50 ∅ 0)
  ∧ state reveal_overtake !! 2%nat = Some (Contestant.mk "C" 3 1 60 3 1 60 ∅ 0)
  ∧ Contestant.rank (recalcRanks (state reveal_overtake) !!! 1%nat)
    < Contestant.rank (recalcRanks (state reveal_overtake) !!! 2%nat).
Proof.
  assert (state reveal_overtake !! 1%nat
          = Some (Contestant.mk "B" 2 1 50 2 1 50 ∅ 0)) as Ha
    by (vm_compute; reflexivity).
  assert (state reveal_overtake !! 2%nat
          = Some (Contestant.mk "C" 3 1 60 3 1 60 ∅ 0)) as Hb
    by (vm_compute; reflexivity).
  destruct (C4_ranking_order (state reveal_overtake) 1 2
              (Contestant.mk "B" 2 1 50 2 1 50 ∅ 0)
              (Contestant.mk "C" 3 1 60 3 1 60 ∅ 0) Ha Hb)
    as (_ & S2 & _).
  split_and!; [exact Ha|exact Hb|].
  apply S2; reflexivity.
Defined.

Lemma C5_rejected_step_witness :
  processing reveal_resubmit_rejected = false
  ∧ revealFinished reveal_resubmit_rejected = false
  ∧ queue reveal_resubmit_rejected = [sub_A_rejected]
  ∧ find_contestant (Submission.handle sub_A_rejected)
      (state reveal_resubmit_rejected)
    = Some (0%nat,
            Contestant.mk "A" 1 1 10 1 1 10 {["A" := Cell.mk true false 100]} 0)
  ∧ is_OK sub_A_rejected = false
  ∧ state (nextSubmission reveal_resubmit_rejected)
    = state reveal_resubmit_rejected.
Proof.
  assert (processing reveal_resubmit_rejected = false) as H1
    by (vm_compute; reflexivity).
  assert (revealFinished reveal_resubmit_rejected = false) as H2
    by (vm_compute; reflexivity).
  assert (queue reveal_resubmit_rejected = [sub_A_rejected]) as Hq
    by (vm_compute; reflexivity).
  assert (find_contestant (Submission.handle sub_A_rejected)
            (state reveal_resubmit_rejected)
          = Some (0%nat,
                  Contestant.mk "A" 1 1 10 1 1 10
                    {["A" := Cell.mk true false 100]} 0)) as Hf
    by (vm_compute; reflexivity).
  assert (is_OK sub_A_rejected = false) as Hok by (vm_compute; reflexivity).
  destruct (C5_rejected_step reveal_resubmit_rejected sub_A_rejected [] 0
              (Contestant.mk "A" 1 1 10 1 1 10 {["A" := Cell.mk true false 100]} 0)
              H1 H2 Hq Hf Hok) as (S1 & _).
  split_and!; [exact H1|exact H2|exact Hq|exact Hf|exact Hok|].
  apply S1. vm_compute. reflexivity.
Defined.


Lemma C7_unknown_handle_skipped_witness :
  queue reveal_ghost = sub_ghost :: [sub_A_solves_C]
  ∧ find_contestant (Submission.handle sub_ghost) (state reveal_ghost) = None
  ∧ nextSubmission reveal_ghost
    = set_revealed (revealed reveal_ghost + 1)
        (set_queue [sub_A_solves_C] reveal_ghost)
  ∧ revealAll true reveal_ghost
    = revealAll true
        (set_revealed (revealed reveal_ghost + 1)
           (set_queue [sub_A_solves_C] reveal_ghost)).
Proof.
  assert (queue reveal_ghost = sub_ghost :: [sub_A_solves_C]) as Hq
    by (vm_compute; reflexivity).
  assert (find_contestant (Submission.handle sub_ghost) (state reveal_ghost)
          = None) as Hf by (vm_compute; reflexivity).
  assert (processing reveal_ghost = false) as H1 by (vm_compute; reflexivity).
  assert (revealFinished reveal_ghost = false) as H2 by (vm_compute; reflexivity).
  destruct (C7_unknown_handle_skipped reveal_ghost sub_ghost [sub_A_solves_C]
              Hq Hf) as (S1 & _ & S3).
  split_and!; [exact Hq|exact Hf| |].
  - apply (S1 H1 H2).
  - apply S3.
Defined.

Lemma awards_thresholds_witness :
  fresh reveal_two_failures
  ∧ Forall (λ c, has_separator (Contestant.handle c) = false)
      (state reveal_two_failures)
  ∧ notGiveUp (showAwards (stepAll reveal_two_failures))
    = Some (Persistent.mk "B" "D" "Dunes" 2)
  ∧ (2 ≤ submissions_on "B" "D" (queue reveal_two_failures))%nat
  ∧ NoDup (Contestant.handle <$> state reveal_two_failures)
  ∧ no_rank_gained reveal_two_failures (revealAll true reveal_two_failures)
  ∧ hillClimber (showAwards (revealAll true reveal_two_failures)) = None.
Proof.
  assert (fresh reveal_two_failures) as Hfresh
    by (unfold fresh; split_and!; vm_compute; reflexivity).
  assert (Forall (λ c, has_separator (Contestant.handle c) = false)
            (state reveal_two_failures)) as Hsep
    by (repeat constructor).
  assert (notGiveUp (showAwards (stepAll reveal_two_failures))
          = Some (Persistent.mk "B" "D" "Dunes" 2)) as Hp
    by (vm_compute; reflexivity).
  assert (NoDup (Contestant.handle <$> state reveal_two_failures)) as Hnd.
  { apply (bool_decide_unpack
             (NoDup (Contestant.handle <$> state reveal_two_failures))).
    vm_compute. exact I. }
  assert (no_rank_gained reveal_two_failures
            (revealAll true reveal_two_failures)) as Hno.
  { apply no_rank_gained_ranks.
    assert (Contestant.rank <$> state reveal_two_failures = [1; 2]) as ->
      by (vm_compute; reflexivity).
    assert (Contestant.rank <$> state (revealAll true reveal_two_failures)
            = [1; 2]) as -> by (vm_compute; reflexivity).
    repeat constructor; intros Hgt; discriminate Hgt. }
  destruct (awards_thresholds reveal_two_failures) as (_ & S2 & _ & S4).
  split_and!; [exact Hfresh|exact Hsep|exact Hp| |exact Hnd|exact Hno|].
  - apply (S2 Hfresh Hsep (Persistent.mk "B" "D" "Dunes" 2) (or_introl Hp)).
  - apply (S4 Hfresh Hnd Hno).
Defined.

Lemma C9_reentrant_call_rejected_witness :
  processing (nextSubmission_begin reveal_overtake).1 = true
  ∧ nextSubmission_begin (nextSubmission_begin reveal_overtake).1
    = ((nextSubmission_begin reveal_overtake).1, None)
  ∧ nextSubmission (nextSubmission_begin reveal_overtake).1
    = (nextSubmission_begin reveal_overtake).1.
Proof.
  assert (processing (nextSubmission_begin reveal_overtake).1 = true) as Hp
    by (vm_compute; reflexivity).
  split; [exact Hp|].
  apply (C9_reentrant_call_rejected (nextSubmission_begin reveal_overtake).1 Hp).
Defined.

(** * Further properties of the reveal engine *)

(** ** Progress and counters *)

Lemma nextSubmission_cases r :
  (nextSubmission r = r ∧ (processing r = true ∨ revealFinished r = true))
  ∨ (nextSubmission r = finishReveal r ∧ queue r = []
     ∧ processing r = false ∧ revealFinished r = false)
  ∨ (∃ sub q, queue r = sub :: q ∧ processing r = false
              ∧ revealFinished r = false
              ∧ queue (nextSubmission r) = q
              ∧ revealed (nextSubmission r) = revealed r + 1
              ∧ processing (nextSubmission r) = false
              ∧ revealFinished (nextSubmission r) = false).
Proof.
  destruct (processing r) eqn:H1.
  { left. split; [by apply nextSubmission_busy|by left]. }
  destruct (revealFinished r) eqn:H2.
  { left. split; [by apply nextSubmission_finished|by right]. }
  destruct (queue r) as [|sub q] eqn:Hq.
  { right; left. split; [by apply nextSubmission_empty|done]. }
  right; right. exists sub, q. split_and!; [done..| | | |].
  all: destruct (find_contestant (Submission.handle sub) (state r))
         as [[c o]|] eqn:Es;
       [destruct (is_OK sub) eqn:Eok;
        [destruct (nextSubmission_accepted_fields r sub q c o H1 H2 Hq Es Eok)
           as (_ & S2 & S3 & _ & S5 & S6 & _)
        |destruct (nextSubmission_rejected_fields r sub q c o H1 H2 Hq Es Eok)
           as (_ & S2 & S3 & _ & S5 & S6 & _)]; done
       |rewrite (nextSubmission_unknown r sub q H1 H2 Hq Es); done].
Qed.




Lemma scoring_find st sub :
  known st sub ↔ is_Some (find_contestant (Submission.handle sub) st).
Proof.
  unfold known. split.
  - intros Hk. destruct (find_contestant _ _) as [p|] eqn:E; [by eexists|].
    by apply find_contestant_None in E.
  - intros [[c o] E]. by eapply find_contestant_known.
Qed.

Lemma revealAll_iter_counts st sub r :
  Contestant.handle <$> state r = Contestant.handle <$> st →
  acceptedCount (revealAll_iter sub r)
  = acceptedCount r + (if decide (scoring st sub) then 1 else 0)
  ∧ revealed (revealAll_iter sub r) = revealed r + 1.
Proof.
  intros Hh.
  assert (known st sub ↔ known (state r) sub) as Hk
    by (unfold known; by rewrite Hh).
  destruct (find_contestant (Submission.handle sub) (state r)) as [[c o]|] eqn:E.
  - assert (known st sub) as Hkn.
    { apply Hk, scoring_find. rewrite E. by eexists. }
    destruct (is_OK sub) eqn:Eok.
    + destruct (revealAll_iter_accepted_fields r sub c o E Eok)
        as (_ & _ & -> & -> & _).
      rewrite decide_True by done. done.
    + destruct (revealAll_iter_rejected_fields r sub c o E Eok)
        as (_ & _ & -> & -> & _).
      rewrite decide_False; [split; [lia|done]|].
      intros [Hok _]. congruence.
  - rewrite (revealAll_iter_unknown sub r E). cbn.
    rewrite decide_False; [split; [lia|done]|].
    intros [_ Hkn]. apply Hk, scoring_find in Hkn. rewrite E in Hkn.
    by destruct Hkn.
Qed.

Lemma revealAll_loop_counts st q :
  ∀ r, Contestant.handle <$> state r = Contestant.handle <$> st →
       acceptedCount (revealAll_loop q r)
       = acceptedCount r + Z.of_nat (length (filter (scoring st) q))
       ∧ revealed (revealAll_loop q r) = revealed r + Z.of_nat (length q).
Proof.
  induction q as [|sub q IH]; intros r Hh; cbn [revealAll_loop].
  { cbn. split; lia. }
  destruct (revealAll_iter_counts st sub (set_queue q r) Hh) as [A1 A2].
  destruct (IH (revealAll_iter sub (set_queue q r))
              (eq_trans (revealAll_iter_handles sub (set_queue q r)) Hh))
    as [-> ->].
  rewrite A1, A2. cbn [acceptedCount revealed set_queue length].
  destruct (decide (scoring st sub)).
  - rewrite filter_cons_True by done. cbn [length]. split; lia.
  - rewrite filter_cons_False by done. split; lia.
Qed.

(** X2. The statistics at the end of a reveal.  From a reveal at rest,
    both modes end with [revealed] increased by the length of the queue and
    [acceptedCount] increased by the number of accepted submissions of
    contestants on the board: accepted submissions of unknown handles are
    not counted. *)
Theorem X2_final_statistics (r : Reveal) :
  processing r = false → revealFinished r = false →
  revealed (revealAll true r) = revealed r + Z.of_nat (length (queue r))
  ∧ revealed (stepAll r) = revealed r + Z.of_nat (length (queue r))
  ∧ acceptedCount (revealAll true r)
    = acceptedCount r
      + Z.of_nat (length (filter (scoring (state r)) (queue r)))
  ∧ acceptedCount (stepAll r)
    = acceptedCount r
      + Z.of_nat (length (filter (scoring (state r)) (queue r)))
  ∧ (length (filter (scoring (state r)) (queue r))
     ≤ length (filter (λ sub, is_OK sub = true) (queue r)))%nat.
Proof.
  intros H1 H2.
  destruct (revealAll_fields r) as (_ & _ & B3 & B4 & _).
  destruct (revealAll_loop_counts (state r) (queue r) r eq_refl) as [L1 L2].
  destruct (same_scores_run (queue r) r r) as (Hsim & _); [done..|].
  destruct Hsim as (_ & _ & _ & _ & _ & _ & Ha & Hr & _).
  rewrite (stepAll_fields r H1 H2). unfold finishReveal.
  cbn [revealed acceptedCount set_revealFinished].
  rewrite B3, B4, <- Ha, <- Hr, L1, L2.
  split_and!; [done..|].
  apply filter_length_le. by intros sub _ [Hok _].
Qed.

(** ** The final scores *)

Lemma revealAll_iter_score st sub r c :
  Contestant.handle <$> state r = Contestant.handle <$> st →
  (Contestant.solved <$> state (revealAll_iter sub r)) !! c
  = (λ s, s + (if decide (scored_by st c sub) then 1 else 0))
      <$> (Contestant.solved <$> state r) !! c
  ∧ (Contestant.penalty <$> state (revealAll_iter sub r)) !! c
    = (λ p, p + (if decide (scored_by st c sub) then penaltyDelta sub else 0))
        <$> (Contestant.penalty <$> state r) !! c.
Proof.
  intros Hh.
  pose proof (find_contestant_same (Submission.handle sub) _ _ Hh) as Hfind.
  assert (∀ l : list Z, l !! c = (λ s, s + 0) <$> l !! c) as Hid.
  { intros l. destruct (l !! c); cbn; [f_equal; lia|done]. }
  destruct (find_contestant (Submission.handle sub) (state r)) as [[c' o]|] eqn:E.
  - destruct (is_OK sub) eqn:Eok.
    + rewrite (revealAll_iter_accepted_state r sub c' o E Eok).
      rewrite (fmap_alter_both Contestant.solved _ (λ x, x + 1)) by done.
      rewrite (fmap_alter_both Contestant.penalty _ (λ x, x + penaltyDelta sub))
        by done.
      destruct (decide (c = c')) as [->|Hne].
      * rewrite !decide_True by (split; [done|by rewrite <- Hfind]).
        by rewrite !list_lookup_alter_eq.
      * rewrite !decide_False
          by (intros [_ Hc]; rewrite <- Hfind in Hc; cbn in Hc; congruence).
        rewrite !list_lookup_alter_ne by done. split; apply Hid.
    + destruct (revealAll_iter_rejected_fields r sub c' o E Eok) as (-> & _).
      rewrite !decide_False by (intros [Hok _]; congruence).
      split; apply Hid.
  - rewrite (revealAll_iter_unknown sub r E). cbn [state set_revealed].
    rewrite !decide_False by (intros [_ Hc]; rewrite <- Hfind in Hc; done).
    split; apply Hid.
Qed.

Lemma total_penalty_cons sub l :
  total_penalty (sub :: l) = penaltyDelta sub + total_penalty l.
Proof. reflexivity. Qed.

Lemma revealAll_loop_score st q c :
  ∀ r, Contestant.handle <$> state r = Contestant.handle <$> st →
       (Contestant.solved <$> state (revealAll_loop q r)) !! c
       = (λ s, s + Z.of_nat (length (filter (scored_by st c) q)))
           <$> (Contestant.solved <$> state r) !! c
       ∧ (Contestant.penalty <$> state (revealAll_loop q r)) !! c
         = (λ p, p + total_penalty (filter (scored_by st c) q))
             <$> (Contestant.penalty <$> state r) !! c.
Proof.
  induction q as [|sub q IH]; intros r Hh; cbn [revealAll_loop].
  { rewrite !filter_nil. change (total_penalty []) with 0. cbn [length].
    split;
      [destruct ((Contestant.solved <$> state r) !! c)
      |destruct ((Contestant.penalty <$> state r) !! c)];
      cbn; try done; apply (f_equal Some); lia. }
  destruct (revealAll_iter_score st sub (set_queue q r) c Hh) as [A1 A2].
  destruct (IH (revealAll_iter sub (set_queue q r))
              (eq_trans (revealAll_iter_handles sub (set_queue q r)) Hh))
    as [-> ->].
  rewrite A1, A2. cbn [state set_queue].
  destruct (decide (scored_by st c sub)).
  - rewrite filter_cons_True by done. rewrite total_penalty_cons.
    cbn [length].
    split;
      [destruct ((Contestant.solved <$> state r) !! c)
      |destruct ((Contestant.penalty <$> state r) !! c)];
      cbn; try done; apply (f_equal Some); lia.
  - rewrite filter_cons_False by done.
    split;
      [destruct ((Contestant.solved <$> state r) !! c)
      |destruct ((Contestant.penalty <$> state r) !! c)];
      cbn; try done; apply (f_equal Some); lia.
Qed.

(** X3. The final scores.  From a reveal at rest, both modes leave each
    contestant with the solved count it had plus the number of accepted
    submissions that [state.find] resolves to it, and with the penalty it
    had plus the penalty minutes of those submissions (an object behind
    another one of the same handle receives nothing). *)
Theorem X3_final_scores (r : Reveal) (c : nat) (o : Contestant.t) :
  processing r = false → revealFinished r = false →
  state r !! c = Some o →
  (Contestant.solved <$> state (revealAll true r)) !! c
  = Some (Contestant.solved o
          + Z.of_nat (length (filter (scored_by (state r) c) (queue r))))
  ∧ (Contestant.penalty <$> state (revealAll true r)) !! c
    = Some (Contestant.penalty o
            + total_penalty (filter (scored_by (state r) c) (queue r)))
  ∧ (Contestant.solved <$> state (stepAll r)) !! c
    = Some (Contestant.solved o
            + Z.of_nat (length (filter (scored_by (state r) c) (queue r))))
  ∧ (Contestant.penalty <$> state (stepAll r)) !! c
    = Some (Contestant.penalty o
            + total_penalty (filter (scored_by (state r) c) (queue r))).
Proof.
  intros H1 H2 Hc.
  destruct (revealAll_fields r) as (B1 & _).
  destruct (revealAll_loop_score (state r) (queue r) c r eq_refl) as [L1 L2].
  destruct (same_scores_run (queue r) r r) as (Hsim & _); [done..|].
  destruct Hsim as (_ & _ & Hs & Hp & _).
  rewrite (stepAll_fields r H1 H2). unfold finishReveal.
  cbn [state set_revealFinished].
  rewrite B1, recalcRanks_solved, recalcRanks_penalty, <- Hs, <- Hp, L1, L2.
  rewrite !list_lookup_fmap, Hc. done.
Qed.

(** ** The persistence candidate *)

Lemma track_persistence_counter sub r k :
  counter (track_persistence sub r) k
  = counter r k
    + (if decide (count_key (Submission.handle sub)
                    (Submission.problemIndex sub) = k) then 1 else 0).
Proof.
  unfold counter, track_persistence.
  cbn [mostPersistent set_submissionCounts].
  set (key := count_key _ _).
  assert (∀ x, submissionCounts
                 (if bool_decide
                       (default 0 (submissionCounts r !! key) + 1
                        > Persistent.count (mostPersistent r))
                  then set_mostPersistent x
                         (set_submissionCounts
                            (<[key:=default 0 (submissionCounts r !! key) + 1]>
                               (submissionCounts r)) r)
                  else set_submissionCounts
                         (<[key:=default 0 (submissionCounts r !! key) + 1]>
                            (submissionCounts r)) r)
               = <[key:=default 0 (submissionCounts r !! key) + 1]>
                   (submissionCounts r)) as -> by (intros; by case_bool_decide).
  rewrite lookup_insert. case_decide; subst; cbn; lia.
Qed.

Lemma track_persistence_candidate sub r :
  mostPersistent (track_persistence sub r)
  = if bool_decide
         (counter r (count_key (Submission.handle sub)
                       (Submission.problemIndex sub)) + 1
          > Persistent.count (mostPersistent r))
    then Persistent.mk (Submission.handle sub) (Submission.problemIndex sub)
           (Submission.problemName sub)
           (counter r (count_key (Submission.handle sub)
                         (Submission.problemIndex sub)) + 1)
    else mostPersistent r.
Proof.
  unfold counter, track_persistence.
  cbn [mostPersistent set_submissionCounts]. by case_bool_decide.
Qed.

Lemma track_persistence_max sub r :
  candidate_is_max r → candidate_is_max (track_persistence sub r).
Proof.
  intros [Hmax Hown]. unfold candidate_is_max.
  rewrite track_persistence_candidate.
  set (key := count_key (Submission.handle sub) (Submission.problemIndex sub)).
  case_bool_decide as Hgt.
  - cbn [Persistent.count Persistent.handle Persistent.problemIndex]. fold key.
    split.
    + intros k. rewrite track_persistence_counter. fold key.
      pose proof (Hmax k). case_decide; subst; lia.
    + rewrite track_persistence_counter. fold key.
      rewrite decide_True by done. done.
  - split.
    + intros k. rewrite track_persistence_counter. fold key.
      pose proof (Hmax k). case_decide; subst; lia.
    + rewrite track_persistence_counter. fold key.
      case_decide as Hk; [|lia].
      rewrite <- Hk in Hown. lia.
Qed.

Lemma revealAll_iter_persistence st sub r :
  Contestant.handle <$> state r = Contestant.handle <$> st →
  (candidate_is_max r → candidate_is_max (revealAll_iter sub r))
  ∧ ∀ k, counter (revealAll_iter sub r) k
         = counter r k + Z.of_nat (counted_on st k [sub]).
Proof.
  intros Hh.
  assert (known st sub ↔ known (state r) sub) as Hk
    by (unfold known; by rewrite Hh).
  assert (∀ k, Z.of_nat (counted_on st k [sub])
               = if decide (known st sub
                            ∧ count_key (Submission.handle sub)
                                (Submission.problemIndex sub) = k)
                 then 1 else 0) as Hcnt.
  { intros k. rewrite counted_on_cons. change (counted_on st k []) with 0%nat.
    case_bool_decide; case_decide; done. }
  destruct (find_contestant (Submission.handle sub) (state r)) as [[c o]|] eqn:E.
  - assert (known st sub) as Hkn.
    { apply Hk, scoring_find. rewrite E. by eexists. }
    assert (submissionCounts (revealAll_iter sub r)
            = submissionCounts (track_persistence sub r)
            ∧ mostPersistent (revealAll_iter sub r)
              = mostPersistent (track_persistence sub r)) as [Ec Em].
    { destruct (is_OK sub) eqn:Eok.
      - by destruct (revealAll_iter_accepted_fields r sub c o E Eok)
          as (_ & _ & _ & _ & _ & _ & -> & -> & _).
      - by destruct (revealAll_iter_rejected_fields r sub c o E Eok)
          as (_ & _ & _ & _ & _ & _ & -> & -> & _). }
    split.
    + intros Hm. pose proof (track_persistence_max sub r Hm) as Ht.
      unfold candidate_is_max, counter in *. by rewrite Ec, Em.
    + intros k. rewrite Hcnt.
      pose proof (track_persistence_counter sub r k) as Ht.
      unfold counter in *. rewrite Ec, Ht.
      repeat case_decide; try done; [exfalso; tauto|tauto].
  - rewrite (revealAll_iter_unknown sub r E). split; [done|].
    intros k. rewrite Hcnt, decide_False; [unfold counter; cbn; lia|].
    intros [Hkn _]. apply Hk, scoring_find in Hkn. rewrite E in Hkn.
    by destruct Hkn.
Qed.

Lemma revealAll_loop_persistence st q :
  ∀ r, Contestant.handle <$> state r = Contestant.handle <$> st →
       (candidate_is_max r → candidate_is_max (revealAll_loop q r))
       ∧ ∀ k, counter (revealAll_loop q r) k
              = counter r k + Z.of_nat (counted_on st k q).
Proof.
  induction q as [|sub q IH]; intros r Hh; cbn [revealAll_loop].
  { split; [done|]. intros k. change (counted_on st k []) with 0%nat. lia. }
  destruct (revealAll_iter_persistence st sub (set_queue q r) Hh) as [A1 A2].
  destruct (IH (revealAll_iter sub (set_queue q r))
              (eq_trans (revealAll_iter_handles sub (set_queue q r)) Hh))
    as [I1 I2].
  split; [by intros Hm; apply I1, A1|].
  intros k. rewrite I2, A2.
  rewrite (counted_on_cons st k sub q), (counted_on_cons st k sub []).
  change (counted_on st k []) with 0%nat.
  change (counter (set_queue q r) k) with (counter r k). lia.
Qed.

Lemma fresh_candidate_is_max r : fresh r → candidate_is_max r.
Proof.
  intros (_ & _ & _ & Hc & Hm). unfold candidate_is_max, counter.
  rewrite Hc, Hm. split; [intros k|]; by rewrite lookup_empty.
Qed.

(** X4. The persistence tracking.  From a reveal at rest, both modes add
    to every counter the number of queued submissions of contestants on
    the board that fall on it (submissions of unknown handles are not
    counted), and if the candidate held the greatest counter before, it
    does after: its count is its own counter and no counter is greater. *)
Theorem X4_persistence_is_maximum (r : Reveal) :
  processing r = false → revealFinished r = false →
  candidate_is_max r →
  (candidate_is_max (revealAll true r)
   ∧ ∀ k, counter (revealAll true r) k
          = counter r k + Z.of_nat (counted_on (state r) k (queue r)))
  ∧ (candidate_is_max (stepAll r)
     ∧ ∀ k, counter (stepAll r) k
            = counter r k + Z.of_nat (counted_on (state r) k (queue r))).
Proof.
  intros H1 H2 Hm.
  destruct (revealAll_fields r) as (_ & _ & _ & _ & _ & B6 & B7 & _).
  destruct (revealAll_loop_persistence (state r) (queue r) r eq_refl) as [L1 L2].
  specialize (L1 Hm).
  destruct (same_scores_run (queue r) r r) as (Hsim & _); [done..|].
  destruct Hsim as (_ & _ & _ & _ & Hc & Hp & _).
  rewrite (stepAll_fields r H1 H2).
  unfold candidate_is_max, counter, finishReveal in *.
  cbn [submissionCounts mostPersistent set_revealFinished].
  rewrite B6, B7, <- Hc, <- Hp. done.
Qed.

(** ** The last-minute candidate *)

Lemma revealAll_iter_hero st sub r :
  Contestant.handle <$> state r = Contestant.handle <$> st →
  lastMinuteHero (revealAll_iter sub r)
  = if decide (scoring st sub) then
      if bool_decide (Submission.relativeTimeSec sub
                      > Hero.time (lastMinuteHero r))
      then hero_of sub else lastMinuteHero r
    else lastMinuteHero r.
Proof.
  intros Hh.
  assert (known st sub ↔ known (state r) sub) as Hk
    by (unfold known; by rewrite Hh).
  destruct (find_contestant (Submission.handle sub) (state r)) as [[c o]|] eqn:E.
  - assert (known st sub) as Hkn.
    { apply Hk, scoring_find. rewrite E. by eexists. }
    destruct (is_OK sub) eqn:Eok.
    + destruct (revealAll_iter_accepted_fields r sub c o E Eok)
        as (_ & _ & _ & _ & _ & _ & _ & _ & -> & _).
      by rewrite decide_True.
    + destruct (revealAll_iter_rejected_fields r sub c o E Eok)
        as (_ & _ & _ & _ & _ & _ & _ & _ & -> & _).
      rewrite decide_False; [done|]. intros [Hok _]. congruence.
  - rewrite (revealAll_iter_unknown sub r E). cbn.
    rewrite decide_False; [done|].
    intros [_ Hkn]. apply Hk, scoring_find in Hkn. rewrite E in Hkn.
    by destruct Hkn.
Qed.

Lemma revealAll_loop_hero st q :
  ∀ r, Contestant.handle <$> state r = Contestant.handle <$> st →
       Hero.time (lastMinuteHero r)
       ≤ Hero.time (lastMinuteHero (revealAll_loop q r))
       ∧ (∀ sub, sub ∈ filter (scoring st) q →
                 Submission.relativeTimeSec sub
                 ≤ Hero.time (lastMinuteHero (revealAll_loop q r)))
       ∧ (lastMinuteHero (revealAll_loop q r) = lastMinuteHero r
          ∨ ∃ sub, sub ∈ filter (scoring st) q
                   ∧ lastMinuteHero (revealAll_loop q r) = hero_of sub).
Proof.
  induction q as [|sub q IH]; intros r Hh; cbn [revealAll_loop].
  { split_and!; [lia| |by left]. intros sub Hin. by apply elem_of_nil in Hin. }
  pose proof (revealAll_iter_hero st sub (set_queue q r) Hh) as A.
  destruct (IH (revealAll_iter sub (set_queue q r))
              (eq_trans (revealAll_iter_handles sub (set_queue q r)) Hh))
    as (I1 & I2 & I3).
  rewrite A in I1, I3. cbn [lastMinuteHero set_queue] in I1, I3.
  destruct (decide (scoring st sub)) as [Hs|Hs].
  - rewrite filter_cons_True by done.
    case_bool_decide as Hgt.
    + cbn [hero_of Hero.time] in I1. split_and!.
      * lia.
      * intros x [->|Hx]%elem_of_cons; [lia|by apply I2].
      * right. destruct I3 as [->|(x & Hx & ->)].
        -- exists sub. split; [by left|done].
        -- exists x. split; [by right|done].
    + split_and!.
      * done.
      * intros x [->|Hx]%elem_of_cons; [lia|by apply I2].
      * destruct I3 as [->|(x & Hx & ->)]; [by left|].
        right. exists x. split; [by right|done].
  - rewrite filter_cons_False by done. done.
Qed.

Lemma steps_hero st q :
  ∀ s, queue s = q → processing s = false → revealFinished s = false →
       Contestant.handle <$> state s = Contestant.handle <$> st →
       lastMinuteHero (Nat.iter (length q) nextSubmission s)
       = from_option hero_of (lastMinuteHero s) (last (filter (scoring st) q)).
Proof.
  induction q as [|sub q IH]; intros s Hq H1 H2 Hh; [done|].
  cbn [length]. rewrite Nat.iter_succ_r.
  destruct (same_scores_step s s sub q) as (_ & Hq' & H1' & H2'); [done..|].
  pose proof (nextSubmission_handles s sub q Hq H1 H2) as Hh'.
  rewrite (IH (nextSubmission s) Hq' H1' H2' (eq_trans Hh' Hh)).
  assert (known st sub ↔ known (state s) sub) as Hk
    by (unfold known; by rewrite Hh).
  destruct (find_contestant (Submission.handle sub) (state s)) as [[c o]|] eqn:Es.
  - assert (known st sub) as Hkn.
    { apply Hk, scoring_find. rewrite Es. by eexists. }
    destruct (is_OK sub) eqn:Eok.
    + destruct (nextSubmission_accepted_fields s sub q c o H1 H2 Hq Es Eok)
        as (_ & _ & _ & _ & _ & _ & _ & _ & ->).
      rewrite filter_cons_True by done. rewrite last_cons.
      by destruct (last (filter (scoring st) q)).
    + destruct (nextSubmission_rejected_fields s sub q c o H1 H2 Hq Es Eok)
        as (_ & _ & _ & _ & _ & _ & _ & _ & -> & _).
      rewrite filter_cons_False; [done|]. intros [Hok _]. congruence.
  - rewrite (nextSubmission_unknown s sub q H1 H2 Hq Es).
    rewrite filter_cons_False; [done|].
    intros [_ Hkn]. apply Hk, scoring_find in Hkn. rewrite Es in Hkn.
    by destruct Hkn.
Qed.

(** X5. The last-minute candidate.  Step mode ends with the candidate
    built from the last accepted submission of a contestant on the board
    in the queue, whatever its time, or with the candidate it started
    from when there is none.  Batch mode ends with a candidate whose time
    is at least the starting one and at least the time of every such
    submission, and which is the starting one or built from one of
    them. *)
Theorem X5_last_minute_candidate (r : Reveal) :
  processing r = false → revealFinished r = false →
  lastMinuteHero (stepAll r)
  = from_option hero_of (lastMinuteHero r)
      (last (filter (scoring (state r)) (queue r)))
  ∧ Hero.time (lastMinuteHero r) ≤ Hero.time (lastMinuteHero (revealAll true r))
  ∧ (∀ sub, sub ∈ filter (scoring (state r)) (queue r) →
            Submission.relativeTimeSec sub
            ≤ Hero.time (lastMinuteHero (revealAll true r)))
  ∧ (lastMinuteHero (revealAll true r) = lastMinuteHero r
     ∨ ∃ sub, sub ∈ filter (scoring (state r)) (queue r)
              ∧ lastMinuteHero (revealAll true r) = hero_of sub).
Proof.
  intros H1 H2.
  destruct (revealAll_fields r) as (_ & _ & _ & _ & B5 & _).
  rewrite B5, (stepAll_fields r H1 H2). unfold finishReveal.
  cbn [lastMinuteHero set_revealFinished].
  split; [by apply steps_hero|].
  by apply revealAll_loop_hero.
Qed.

(** ** The MVP candidate *)

Lemma climbing_mvp_cases c x :
  mvp (climbing c x) = mvp x
  ∨ (mvp (climbing c x)
     = Mvp.mk (Contestant.handle (recalcRanks (state x) !!! c))
         (Contestant.delta (recalcRanks (state x) !!! c))
     ∧ Contestant.delta (recalcRanks (state x) !!! c) > Mvp.delta (mvp x)).
Proof.
  unfold climbing. case_bool_decide; [|by left].
  cbn [state mvp set_state set_rankChangeCount].
  case_bool_decide; [right|left]; done.
Qed.

Lemma nextSubmission_mvp_cases r :
  mvp (nextSubmission r) = mvp r
  ∨ ∃ c o, state (nextSubmission r) !! c = Some o
           ∧ mvp (nextSubmission r)
             = Mvp.mk (Contestant.handle o)
                 (Contestant.freezeRank o - Contestant.rank o)
           ∧ Contestant.freezeRank o - Contestant.rank o > Mvp.delta (mvp r).
Proof.
  destruct (nextSubmission_cases r)
    as [[-> _]|[[-> _]|(sub & q & Hq & H1 & H2 & _)]]; [by left..|].
  destruct (find_contestant (Submission.handle sub) (state r)) as [[c o]|] eqn:Es.
  2:{ left. by rewrite (nextSubmission_unknown r sub q H1 H2 Hq Es). }
  destruct (is_OK sub) eqn:Eok.
  2:{ left.
      by destruct (nextSubmission_rejected_fields r sub q c o H1 H2 Hq Es Eok)
        as (_ & _ & _ & _ & _ & _ & _ & _ & _ & -> & _). }
  pose proof (nextSubmission_accepted_state r sub q c o H1 H2 Hq Es Eok) as Hst.
  rewrite (nextSubmission_accepted r sub q c o H1 H2 Hq Es Eok) in *.
  destruct (taken_frame q r) as (G1 & _ & _ & _ & _ & G6 & _).
  set (r3 := set_revealed (revealed r + 1)
               (set_queue q (set_processing true r))) in *.
  clearbody r3.
  destruct (track_persistence_frame sub r3) as (F1 & _ & _ & _ & _ & _ & F7 & _).
  set (t := track_persistence sub r3) in *. clearbody t.
  destruct (accept_frame sub c t) as (A1 & _ & _ & _ & _ & _ & A7 & _).
  set (a := accept sub c t) in *. clearbody a.
  pose proof (climbing_mvp_cases c a) as Hk.
  destruct (climbing_frame c a) as (K1 & _).
  set (k := climbing c a) in *. clearbody k.
  destruct (nextSubmission_end_frame k) as (E1 & _ & _ & _ & _ & _ & E7 & _).
  rewrite E7. rewrite E1 in Hst.
  destruct Hk as [->|[-> Hgt]]; [left; by rewrite A7, F7, G6|].
  right. rewrite <- K1, E1 in *.
  destruct (find_contestant_Some _ _ _ _ Es) as [Hc _].
  assert (is_Some (state k !! c)) as [o' Ho'].
  { apply lookup_lt_is_Some. rewrite Hst, recalcRanks_length, length_alter.
    by eapply lookup_lt_Some. }
  rewrite (list_lookup_total_correct _ _ _ Ho') in *.
  assert (Contestant.delta o'
          = Contestant.freezeRank o' - Contestant.rank o') as Hd.
  { pose proof (recalcRanks_delta (alter (score_accepted sub) c (state r))) as Hall.
    rewrite <- Hst, Forall_lookup in Hall. by apply (Hall c o'). }
  exists c, o'. rewrite <- Hd. split_and!; [done|done|].
  rewrite A7, F7, G6 in Hgt. done.
Qed.

Lemma foldl_tally_mvp_cases old l :
  ∀ r, Mvp.delta (mvp r) ≤ Mvp.delta (mvp (foldl (tally old) r l))
       ∧ (mvp (foldl (tally old) r l) = mvp r
          ∨ ∃ o, o ∈ l
                 ∧ mvp (foldl (tally old) r l)
                   = Mvp.mk (Contestant.handle o) (batch_delta old o)).
Proof.
  induction l as [|o l IH]; intros r; cbn [foldl]; [split; [lia|by left]|].
  destruct (IH (tally old r o)) as [I1 I2].
  assert (mvp (tally old r o) = mvp r
          ∨ (mvp (tally old r o) = Mvp.mk (Contestant.handle o) (batch_delta old o)
             ∧ batch_delta old o > Mvp.delta (mvp r))) as Ht.
  { unfold tally.
    destruct (bool_decide (batch_delta old o ≠ 0));
      cbn [mvp set_rankChangeCount]; case_bool_decide;
      cbn [mvp set_mvp set_rankChangeCount].
    - right. split; [done|lia].
    - by left.
    - right. split; [done|lia].
    - by left. }
  split.
  - destruct Ht as [Ht|[Ht Hgt]]; rewrite Ht in I1; cbn in I1; lia.
  - destruct I2 as [->|(x & Hx & ->)].
    + destruct Ht as [->|[-> _]]; [by left|].
      right. exists o. split; [by left|done].
    + right. exists x. split; [by right|done].
Qed.

(** X6. The MVP candidate only improves.  A call of [nextSubmission],
    in any state, never lowers the tracked MVP delta; when it replaces the
    candidate, the new candidate is a contestant of the board with, as
    delta, its frozen rank minus its rank after the call, and that delta
    is greater than the one tracked before.  [revealAll] never lowers the
    tracked delta either, and a candidate it sets has the handle of a
    contestant of the board. *)
Theorem X6_mvp_only_improves (r : Reveal) (confirmed : bool) :
  Mvp.delta (mvp r) ≤ Mvp.delta (mvp (nextSubmission r))
  ∧ (mvp (nextSubmission r) = mvp r
     ∨ ∃ c o, state (nextSubmission r) !! c = Some o
              ∧ mvp (nextSubmission r)
                = Mvp.mk (Contestant.handle o)
                    (Contestant.freezeRank o - Contestant.rank o))
  ∧ Mvp.delta (mvp r) ≤ Mvp.delta (mvp (revealAll confirmed r))
  ∧ (mvp (revealAll confirmed r) = mvp r
     ∨ ∃ o, o ∈ state (revealAll confirmed r)
            ∧ Mvp.handle (mvp (revealAll confirmed r)) = Contestant.handle o).
Proof.
  assert (Mvp.delta (mvp r) ≤ Mvp.delta (mvp (revealAll confirmed r))
          ∧ (mvp (revealAll confirmed r) = mvp r
             ∨ ∃ o, o ∈ state (revealAll confirmed r)
                    ∧ Mvp.handle (mvp (revealAll confirmed r))
                      = Contestant.handle o)) as Hbatch.
  { destruct confirmed; [|split; [done|by left]].
    destruct (revealAll_fields r) as (B1 & _). rewrite B1.
    set (bl := revealAll_loop (queue r) r).
    set (r2 := set_state (recalcRanks (state bl)) bl).
    assert (mvp (revealAll true r)
            = mvp (foldl (tally (snapshot_ranks (state r))) r2 (state r2)))
      as -> by reflexivity.
    destruct (revealAll_loop_frame (queue r) r) as [Hm _]. fold bl in Hm.
    assert (mvp r2 = mvp r) as Hm2 by exact Hm.
    assert (state r2 = recalcRanks (state bl)) as Hs2 by reflexivity.
    destruct (foldl_tally_mvp_cases (snapshot_ranks (state r)) (state r2) r2)
      as [T1 T2].
    rewrite Hm2 in T1, T2.
    split; [done|].
    destruct T2 as [->|(o & Ho & ->)]; [by left|].
    right. exists o. split; [by rewrite <- Hs2|done]. }
  destruct (nextSubmission_mvp_cases r) as [->|(c & o & Ho & Hm & Hgt)].
  - split_and!; [done|by left|apply Hbatch|apply Hbatch].
  - split_and!; [rewrite Hm; cbn; lia| |apply Hbatch|apply Hbatch].
    right. by exists c, o.
Qed.

(** * Ranks as counts *)

Lemma precedes_better_tied (y : nat * Contestant.t) j o :
  precedes y (j, o) ↔ better y.2 o ∨ (tied y.2 o ∧ (y.1 < j)%nat).
Proof.
  unfold precedes. cbn [fst snd].
  by rewrite compareFn_neg_better, compareFn_zero_tied.
Qed.

Lemma filter_none {A} (P : A → Prop) `{!∀ x, Decision (P x)} (l : list A) :
  (∀ x, x ∈ l → ¬ P x) → filter P l = [].
Proof.
  induction l as [|x l IH]; intros Hl; [done|].
  rewrite filter_cons_False by (apply Hl; by left).
  apply IH. intros y Hy. apply Hl. by right.
Qed.

Lemma StronglySorted_place {A} (R : A → A → Prop) `{!∀ x y, Decision (R x y)}
    (l : list A) p x :
  (∀ a, ¬ R a a) → (∀ a b, R a b → ¬ R b a) →
  StronglySorted R l → l !! p = Some x →
  length (filter (λ y, R y x) l) = p.
Proof.
  intros Hirr Hasym Hs. revert p.
  induction Hs as [|z l Hs IH Hz]; intros p Hp; [done|].
  rewrite Forall_forall in Hz.
  destruct p as [|p]; cbn in Hp.
  - assert (z = x) as -> by congruence.
    rewrite filter_cons_False by apply Hirr.
    assert (filter (λ y, R y x) l = []) as ->; [|done].
    apply filter_none. intros y Hy. apply Hasym, Hz, Hy.
  - rewrite filter_cons_True.
    + cbn. f_equal. by apply IH.
    + apply Hz. by eapply list_elem_of_lookup_2.
Qed.

Lemma filter_length_Permutation {A} (P : A → Prop) `{!∀ x, Decision (P x)}
    (l l' : list A) :
  l ≡ₚ l' → length (filter P l) = length (filter P l').
Proof. intros Hp. by rewrite Hp. Qed.

Lemma recalcRanks_rank_count st j o :
  st !! j = Some o →
  Contestant.rank (recalcRanks st !!! j)
  = Z.of_nat (length (filter (λ y, precedes y (j, o)) (spread st))) + 1.
Proof.
  intros Hj.
  destruct (sorted_refs_place st j o Hj) as (p & Hp & _).
  rewrite (recalcRanks_lookup_total st p j o Hp Hj).
  destruct (sorted_refs_lookup st p j Hp) as (o' & Hp' & Ho').
  assert (o' = o) as -> by congruence.
  rewrite <- (filter_length_Permutation _ _ _ (sort_perm (spread st))).
  rewrite (StronglySorted_place precedes (sort (spread st)) p (j, o)
             precedes_irrefl precedes_asym (sort_spread_sorted st) Hp').
  done.
Qed.

(** X7. A rank is one plus a count.  After [recalcRanks], the rank of the
    object at position [j] is one more than the number of objects of
    [state] with more problems solved, or as many and less penalty, or
    the same score and an earlier position. *)
Theorem X7_rank_is_count (st : list Contestant.t) (j : nat) (o : Contestant.t) :
  st !! j = Some o →
  Contestant.rank (recalcRanks st !!! j)
  = Z.of_nat (length (placed_before st j o)) + 1.
Proof.
  intros Hj. rewrite (recalcRanks_rank_count st j o Hj). unfold placed_before.
  do 2 f_equal. f_equal. apply list_filter_iff. intros y.
  apply precedes_better_tied.
Qed.

(** ** What an acceptance does to the ranks *)

Lemma filter_length_Forall2 {A} (P Q : A → Prop)
    `{!∀ x, Decision (P x)} `{!∀ x, Decision (Q x)} (l l' : list A) :
  Forall2 (λ a b, P a → Q b) l l' →
  (length (filter P l) ≤ length (filter Q l'))%nat.
Proof.
  induction 1 as [|a b l l' Hab Hl IH]; [done|].
  destruct (decide (P a)) as [Ha|Ha].
  - rewrite filter_cons_True by done.
    rewrite (filter_cons_True Q) by auto. cbn. lia.
  - rewrite filter_cons_False by done.
    destruct (decide (Q b)).
    + rewrite (filter_cons_True Q) by done. cbn. lia.
    + by rewrite (filter_cons_False Q).
Qed.

Lemma filter_length_alter {A} (P : A → Prop) `{!∀ x, Decision (P x)}
    (f : A → A) (c : nat) (l : list A) :
  (length (filter P (alter f c l)) ≤ S (length (filter P l)))%nat.
Proof.
  revert c. induction l as [|x l IH]; intros c; [destruct c; cbn; lia|].
  destruct c as [|c].
  - change (alter f 0%nat (x :: l)) with (f x :: l).
    destruct (decide (P x)), (decide (P (f x)));
      rewrite ?(filter_cons_True P x), ?(filter_cons_False P x),
        ?(filter_cons_True P (f x)), ?(filter_cons_False P (f x)) by done;
      cbn [length]; lia.
  - change (alter f (S c) (x :: l)) with (x :: alter f c l).
    specialize (IH c).
    destruct (decide (P x)).
    + rewrite !filter_cons_True by done. cbn [length]. lia.
    + rewrite !filter_cons_False by done. lia.
Qed.

Lemma spread_alter f c st :
  spread (alter f c st) = alter (prod_map id f) c (spread st).
Proof.
  apply list_eq. intros i. rewrite spread_lookup.
  destruct (decide (i = c)) as [->|Hne].
  - rewrite !list_lookup_alter_eq, spread_lookup. by destruct (st !! c).
  - rewrite !list_lookup_alter_ne by done. by rewrite spread_lookup.
Qed.

Lemma score_accepted_passes sub o (y x : nat * Contestant.t) c :
  (precedes y (c, score_accepted sub o) → precedes y (c, o))
  ∧ (precedes (c, o) x → precedes (c, score_accepted sub o) x).
Proof.
  unfold precedes, compareFn. cbn [fst snd].
  destruct (score_accepted_frame sub o) as (_ & _ & _ & _ & -> & ->).
  repeat case_bool_decide; lia.
Qed.

Lemma accept_ranks st c o sub :
  st !! c = Some o →
  Contestant.rank (recalcRanks (alter (score_accepted sub) c st) !!! c)
  ≤ Contestant.rank (recalcRanks st !!! c)
  ∧ ∀ j oj, j ≠ c → st !! j = Some oj →
      Contestant.rank (recalcRanks st !!! j)
      ≤ Contestant.rank (recalcRanks (alter (score_accepted sub) c st) !!! j)
      ∧ Contestant.rank (recalcRanks (alter (score_accepted sub) c st) !!! j)
        ≤ Contestant.rank (recalcRanks st !!! j) + 1.
Proof.
  intros Hc.
  assert (∀ i a b, spread (alter (score_accepted sub) c st) !! i = Some a →
                   spread st !! i = Some b →
                   (i = c ∧ a = (c, score_accepted sub o) ∧ b = (c, o))
                   ∨ (i ≠ c ∧ a = b)) as Hpt.
  { intros i a b. rewrite !spread_lookup.
    destruct (decide (i = c)) as [->|Hne].
    - rewrite list_lookup_alter_eq, Hc. cbn. intros [= <-] [= <-]. by left.
    - rewrite list_lookup_alter_ne by done. intros Ha Hb. right.
      split; [done|congruence]. }
  assert (length (spread (alter (score_accepted sub) c st)) = length (spread st))
    as Hlen by (unfold spread; by rewrite !length_imap, length_alter).
  split.
  - rewrite (recalcRanks_rank_count (alter (score_accepted sub) c st) c
               (score_accepted sub o))
      by (by rewrite list_lookup_alter_eq, Hc).
    rewrite (recalcRanks_rank_count st c o Hc).
    apply Zorder.Zplus_le_compat_r, Nat2Z.inj_le, filter_length_Forall2.
    apply Forall2_same_length_lookup. split; [done|].
    intros i a b Ha Hb Hp.
    destruct (Hpt i a b Ha Hb) as [(-> & -> & ->)|[_ ->]].
    + by apply precedes_irrefl in Hp.
    + by apply (score_accepted_passes sub o b b c).
  - intros j oj Hne Hj.
    rewrite (recalcRanks_rank_count (alter (score_accepted sub) c st) j oj)
      by (by rewrite list_lookup_alter_ne).
    rewrite (recalcRanks_rank_count st j oj Hj). split.
    + apply Zorder.Zplus_le_compat_r, Nat2Z.inj_le, filter_length_Forall2.
      apply Forall2_same_length_lookup. split; [done|].
      intros i b a Hb Ha Hp.
      destruct (Hpt i a b Ha Hb) as [(-> & -> & ->)|[_ ->]]; [|done].
      by apply (score_accepted_passes sub o (j, oj) (j, oj) c).
    + rewrite spread_alter.
      pose proof (filter_length_alter (λ y, precedes y (j, oj))
                    (prod_map id (score_accepted sub)) c (spread st)).
      lia.
Qed.

(** X8. What an acceptance does to the ranks.  When the ranks are the
    ones [recalcRanks] gives, a step that accepts a submission never gives
    the solver a worse rank, never gives any other contestant a better
    one, and moves any other contestant down by one place at most. *)
Theorem X8_acceptance_moves_ranks (r : Reveal) (sub : Submission.t)
    (q : list Submission.t) (c : nat) (o : Contestant.t) :
  processing r = false → revealFinished r = false → queue r = sub :: q →
  find_contestant (Submission.handle sub) (state r) = Some (c, o) →
  is_OK sub = true →
  Contestant.rank <$> recalcRanks (state r) = Contestant.rank <$> state r →
  Contestant.rank (state (nextSubmission r) !!! c) ≤ Contestant.rank o
  ∧ ∀ j oj, j ≠ c → state r !! j = Some oj →
      Contestant.rank oj ≤ Contestant.rank (state (nextSubmission r) !!! j)
      ∧ Contestant.rank (state (nextSubmission r) !!! j)
        ≤ Contestant.rank oj + 1.
Proof.
  intros H1 H2 Hq Hf Hok Hset.
  rewrite (nextSubmission_accepted_state r sub q c o H1 H2 Hq Hf Hok).
  destruct (find_contestant_Some _ _ _ _ Hf) as [Hc _].
  assert (∀ j oj, state r !! j = Some oj →
            Contestant.rank (recalcRanks (state r) !!! j) = Contestant.rank oj)
    as Hold.
  { intros j oj Hj.
    assert (is_Some (recalcRanks (state r) !! j)) as [x Hx].
    { apply lookup_lt_is_Some. rewrite recalcRanks_length.
      by eapply lookup_lt_Some. }
    rewrite (list_lookup_total_correct _ _ _ Hx).
    by apply (fmap_eq_lookup Contestant.rank _ _ j x oj Hset). }
  destruct (accept_ranks (state r) c o sub Hc) as [A1 A2].
  rewrite (Hold c o Hc) in A1. split; [done|].
  intros j oj Hne Hj. specialize (A2 j oj Hne Hj).
  by rewrite (Hold j oj Hj) in A2.
Qed.

(** * The board and the podium *)

Lemma insert_with_perm cmp x l : insert_with cmp x l ≡ₚ x :: l.
Proof.
  induction l as [|y l IH]; cbn; [done|].
  case_bool_decide; [done|]. rewrite IH. apply Permutation_swap.
Qed.

Lemma sort_with_perm cmp l : sort_with cmp l ≡ₚ l.
Proof.
  induction l as [|x l IH]; cbn; [done|].
  by rewrite insert_with_perm, IH.
Qed.

Lemma insert_byRank_sorted x l :
  StronglySorted (λ a b, Contestant.rank a ≤ Contestant.rank b) l →
  StronglySorted (λ a b, Contestant.rank a ≤ Contestant.rank b)
    (insert_with byRank x l).
Proof.
  induction 1 as [|y l Hl IH Hy]; cbn.
  { repeat constructor. }
  unfold byRank at 1. case_bool_decide as Hc.
  - constructor; [by constructor|]. constructor; [lia|].
    eapply Forall_impl; [exact Hy|]. cbn. intros z Hz. lia.
  - constructor; [done|]. rewrite insert_with_perm. constructor; [lia|done].
Qed.

Lemma sort_byRank_sorted l :
  StronglySorted (λ a b, Contestant.rank a ≤ Contestant.rank b)
    (sort_with byRank l).
Proof.
  induction l as [|x l IH]; cbn; [constructor|]. by apply insert_byRank_sorted.
Qed.

Lemma StronglySorted_slots n k :
  StronglySorted Z.le ((λ i : nat, Z.of_nat i + 1) <$> seq k n).
Proof.
  revert k. induction n as [|n IH]; intros k; cbn; [constructor|].
  constructor; [apply IH|].
  apply Forall_forall. intros z (i & -> & Hi)%list_elem_of_fmap.
  apply elem_of_seq in Hi. lia.
Qed.

(** Sorting by rank what [recalcRanks] left gives the ranks 1, 2, ... n. *)
Lemma sort_byRank_ranks st :
  Contestant.rank <$> sort_with byRank (recalcRanks st)
  = (λ i : nat, Z.of_nat i + 1) <$> seq 0 (length st).
Proof.
  apply (StronglySorted_unique Z.le).
  - eapply StronglySorted_fmap
      with (R1 := λ a b, Contestant.rank a ≤ Contestant.rank b).
    + by intros a b Hab.
    + apply sort_byRank_sorted.
  - apply StronglySorted_slots.
  - by rewrite sort_with_perm, recalcRanks_ranks.
Qed.

Lemma sort_byRank_lookup st i c :
  sort_with byRank (recalcRanks st) !! i = Some c →
  Contestant.rank c = Z.of_nat i + 1 ∧ (i < length st)%nat
  ∧ c ∈ recalcRanks st.
Proof.
  intros Hi.
  pose proof (f_equal (λ l, l !! i) (sort_byRank_ranks st)) as Hr. cbn in Hr.
  rewrite !list_lookup_fmap, Hi in Hr. cbn in Hr.
  destruct (seq 0 (length st) !! i) as [k|] eqn:Ek; [|done].
  apply lookup_seq in Ek as [-> Hlt]. cbn in Hr.
  split_and!; [congruence|done|].
  rewrite <- (sort_with_perm byRank). by eapply list_elem_of_lookup_2.
Qed.

(** X9. The board after a ranking.  [buildRows] on what [recalcRanks]
    left gives a body of the height of n rows whose children are, in
    order, at the offsets 0, ROW_H, ... (n - 1) * ROW_H, the child at
    place i being the row of the contestant of rank i + 1: no two rows
    share a slot and none lies outside the body. *)
Theorem X9_rows_fill_the_slots (st : list Contestant.t) :
  height (buildRows (recalcRanks st)) = Z.of_nat (length st) * ROW_H
  ∧ Row.translateY <$> body (buildRows (recalcRanks st))
    = (λ i : nat, Z.of_nat i * ROW_H) <$> seq 0 (length st)
  ∧ NoDup (Row.translateY <$> body (buildRows (recalcRanks st)))
  ∧ ∀ i row, body (buildRows (recalcRanks st)) !! i = Some row →
      ∃ c, c ∈ recalcRanks st
           ∧ Contestant.rank c = Z.of_nat i + 1
           ∧ Row.handle row = Contestant.handle c
           ∧ 0 ≤ Row.translateY row
           ∧ Row.translateY row + ROW_H ≤ height (buildRows (recalcRanks st)).
Proof.
  assert (Row.translateY <$> body (buildRows (recalcRanks st))
          = (λ i : nat, Z.of_nat i * ROW_H) <$> seq 0 (length st)) as Hoff.
  { unfold buildRows. cbn [body]. rewrite <- list_fmap_compose.
    change (Row.translateY ∘ _)
      with ((λ z, (z - 1) * ROW_H) ∘ Contestant.rank).
    rewrite list_fmap_compose, sort_byRank_ranks, <- list_fmap_compose.
    apply list_fmap_ext. intros i k _. cbn. f_equal. lia. }
  split_and!.
  - unfold buildRows. cbn [height]. by rewrite recalcRanks_length.
  - exact Hoff.
  - rewrite Hoff. apply NoDup_fmap_2; [|apply NoDup_seq].
    intros i j. unfold ROW_H. lia.
  - intros i row Hi. unfold buildRows in *. cbn [body height] in *.
    rewrite list_lookup_fmap in Hi.
    destruct (sort_with byRank (recalcRanks st) !! i) as [c|] eqn:Ec; [|done].
    cbn in Hi. assert (row = Row.mk (Contestant.handle c)
                               ((Contestant.rank c - 1) * ROW_H)) as ->
      by congruence.
    destruct (sort_byRank_lookup st i c Ec) as (Hr & Hlt & Hin).
    exists c. cbn [Row.handle Row.translateY].
    rewrite recalcRanks_length, Hr. unfold ROW_H.
    split_and!; [done|done|done|lia|lia].
Qed.

(** X10. The podium after a ranking.  On what [recalcRanks] left, the
    podium shows min(3, n) contestants, the one whose bar is labelled
    i + 1 having rank i + 1, in the order second, first, third. *)
Theorem X10_podium_is_top_three (st : list Contestant.t) :
  length (podium (recalcRanks st)) = (3 `min` length st)%nat
  ∧ (podium (recalcRanks st)).*2
    = filter (λ i, (i < length st)%nat) [1; 0; 2]%nat
  ∧ ∀ c i, (c, i) ∈ podium (recalcRanks st) →
           Contestant.rank c = Z.of_nat i + 1 ∧ c ∈ recalcRanks st.
Proof.
  assert (∀ i, (i < 3)%nat →
            (match take 3 (sort_with byRank (recalcRanks st)) !! i with
             | Some c => [(c, i)] | None => [] end
             = match sort_with byRank (recalcRanks st) !! i with
               | Some c => [(c, i)] | None => [] end)) as Htake.
  { intros i Hi. by rewrite lookup_take_lt. }
  assert (∀ i, is_Some (sort_with byRank (recalcRanks st) !! i)
               ↔ (i < length st)%nat) as Hsome.
  { intros i. rewrite lookup_lt_is_Some.
    by rewrite (Permutation_length (sort_with_perm byRank _)),
      recalcRanks_length. }
  unfold podium. rewrite !Htake by lia.
  split_and!.
  - rewrite !length_app.
    destruct (sort_with byRank (recalcRanks st) !! 0%nat) eqn:E0;
      destruct (sort_with byRank (recalcRanks st) !! 1%nat) eqn:E1;
      destruct (sort_with byRank (recalcRanks st) !! 2%nat) eqn:E2;
      pose proof (Hsome 0%nat) as S0; pose proof (Hsome 1%nat) as S1;
      pose proof (Hsome 2%nat) as S2; rewrite E0 in S0; rewrite E1 in S1;
      rewrite E2 in S2; rewrite ?is_Some_alt in *; cbn [length]; lia.
  - rewrite !fmap_app.
    destruct (sort_with byRank (recalcRanks st) !! 0%nat) eqn:E0;
      destruct (sort_with byRank (recalcRanks st) !! 1%nat) eqn:E1;
      destruct (sort_with byRank (recalcRanks st) !! 2%nat) eqn:E2;
      pose proof (Hsome 0%nat) as S0; pose proof (Hsome 1%nat) as S1;
      pose proof (Hsome 2%nat) as S2; rewrite E0 in S0; rewrite E1 in S1;
      rewrite E2 in S2; rewrite ?is_Some_alt in *;
      rewrite !filter_cons, filter_nil; repeat case_decide; cbn; try done; lia.
  - intros c i Hin.
    assert (sort_with byRank (recalcRanks st) !! i = Some c) as Hi.
    { rewrite !elem_of_app in Hin.
      destruct Hin as [Hin|[Hin|Hin]];
        [destruct (sort_with byRank (recalcRanks st) !! 1%nat) eqn:E
        |destruct (sort_with byRank (recalcRanks st) !! 0%nat) eqn:E
        |destruct (sort_with byRank (recalcRanks st) !! 2%nat) eqn:E];
        try (by apply elem_of_nil in Hin);
        apply list_elem_of_singleton in Hin; by simplify_eq. }
    destruct (sort_byRank_lookup st i c Hi) as (Hr & _ & Hc). done.
Qed.

(** ** Rows moved by [repositionAll] *)

Lemma foldl_insert_other {A} (key : A → string) (val : A → nat) (l : list A) :
  ∀ (m : gmap string nat) k, k ∉ key <$> l →
    foldl (λ (m : gmap string nat) p, <[key p := val p]> m) m l !! k = m !! k.
Proof.
  induction l as [|x l IH]; intros m k Hk; cbn; [done|].
  rewrite fmap_cons, not_elem_of_cons in Hk. destruct Hk as [Hne Hk].
  rewrite (IH _ k Hk). by rewrite lookup_insert_ne.
Qed.

Lemma foldl_insert_lookup {A} (key : A → string) (val : A → nat) (l : list A) :
  ∀ (m : gmap string nat) x, NoDup (key <$> l) → x ∈ l →
    foldl (λ (m : gmap string nat) p, <[key p := val p]> m) m l !! key x
    = Some (val x).
Proof.
  induction l as [|y l IH]; intros m x Hnd Hx; [by apply elem_of_nil in Hx|].
  rewrite fmap_cons in Hnd. apply NoDup_cons in Hnd as [Hy Hnd].
  apply elem_of_cons in Hx as [->|Hx]; cbn.
  - rewrite (foldl_insert_other key val l _ _ Hy). by rewrite lookup_insert_eq.
  - by apply IH.
Qed.

Lemma foldl_insert_Some {A} (key : A → string) (val : A → nat) (l : list A) k v :
  foldl (λ (m : gmap string nat) p, <[key p := val p]> m) ∅ l !! k = Some v →
  ∃ x, x ∈ l ∧ key x = k ∧ val x = v.
Proof.
  generalize (∅ : gmap string nat) (lookup_empty (M:=gmap string) (A:=nat) k).
  induction l as [|y l IH] using rev_ind; intros m Hm; cbn.
  { intros H. congruence. }
  rewrite foldl_app. cbn. destruct (decide (key y = k)) as [<-|Hne].
  - rewrite lookup_insert_eq. intros [= <-]. exists y.
    split; [apply elem_of_app; right; by left|done].
  - rewrite lookup_insert_ne by done. intros H.
    destruct (IH m Hm H) as (x & Hx & Hk & Hv). exists x.
    split; [apply elem_of_app; by left|done].
Qed.

(** [rowEls] after [buildRows]: a handle designates the row built for it. *)
Lemma buildRows_rowEls st c i :
  NoDup (Contestant.handle <$> st) →
  sort_with byRank st !! i = Some c →
  rowEls (buildRows st) !! Contestant.handle c = Some i.
Proof.
  intros Hnd Hi. unfold buildRows. cbn [rowEls].
  apply (foldl_insert_lookup (λ p : nat * Contestant.t, Contestant.handle p.2)
           fst (imap pair (sort_with byRank st)) ∅ (i, c)).
  - assert ((λ p : nat * Contestant.t, Contestant.handle p.2)
              <$> imap pair (sort_with byRank st)
            = Contestant.handle <$> sort_with byRank st) as ->.
    { apply list_eq. intros k.
      rewrite !list_lookup_fmap, list_lookup_imap.
      by destruct (sort_with byRank st !! k). }
    by rewrite sort_with_perm.
  - apply elem_of_lookup_imap. by exists i, c.
Qed.

Lemma buildRows_rowEls_inv st h i :
  rowEls (buildRows st) !! h = Some i →
  ∃ c, sort_with byRank st !! i = Some c ∧ Contestant.handle c = h.
Proof.
  unfold buildRows. cbn [rowEls]. intros H.
  apply (foldl_insert_Some (λ p : nat * Contestant.t, Contestant.handle p.2)
           fst) in H as ([j c] & Hx & Hk & Hv).
  apply elem_of_lookup_imap in Hx as (j' & c' & [= -> ->] & Hj).
  cbn in Hk, Hv. subst. by exists c'.
Qed.

Lemma repositionAll_spec (R : gmap string nat) (l : list Contestant.t) :
  (∀ h1 h2 i, R !! h1 = Some i → R !! h2 = Some i → h1 = h2) →
  NoDup (Contestant.handle <$> l) →
  ∀ b, rowEls b = R →
    rowEls (repositionAll l b) = R
    ∧ Row.handle <$> body (repositionAll l b) = Row.handle <$> body b
    ∧ (∀ c i, c ∈ l → R !! Contestant.handle c = Some i →
              Row.translateY <$> body (repositionAll l b) !! i
              = (λ _, (Contestant.rank c - 1) * ROW_H) <$> body b !! i)
    ∧ (∀ i, (∀ c, c ∈ l → R !! Contestant.handle c ≠ Some i) →
            body (repositionAll l b) !! i = body b !! i).
Proof.
  intros Hinj. unfold repositionAll.
  induction l as [|c l IH]; intros Hnd b Hb; cbn [foldl].
  { split_and!; [done|done| |done]. intros c i Hc. by apply elem_of_nil in Hc. }
  rewrite fmap_cons in Hnd. apply NoDup_cons in Hnd as [Hc Hnd].
  set (b1 := match rowEls b !! Contestant.handle c with
             | Some i =>
                 mkBoard (height b)
                   (alter (λ row, Row.mk (Row.handle row)
                                    ((Contestant.rank c - 1) * ROW_H)) i (body b))
                   (rowEls b)
             | None => b
             end).
  assert (rowEls b1 = R) as Hb1.
  { unfold b1. by destruct (rowEls b !! Contestant.handle c). }
  assert (Row.handle <$> body b1 = Row.handle <$> body b) as Hh1.
  { unfold b1. destruct (rowEls b !! Contestant.handle c); [|done].
    cbn [body]. by apply fmap_alter_proj. }
  assert (∀ i, R !! Contestant.handle c = Some i →
               Row.translateY <$> body b1 !! i
               = (λ _, (Contestant.rank c - 1) * ROW_H) <$> body b !! i) as Hc1.
  { intros i Hi. unfold b1. rewrite Hb, Hi. cbn [body].
    rewrite list_lookup_alter_eq. by destruct (body b !! i). }
  assert (∀ i, R !! Contestant.handle c ≠ Some i → body b1 !! i = body b !! i)
    as Hn1.
  { intros i Hi. unfold b1. rewrite Hb.
    destruct (R !! Contestant.handle c) as [i0|] eqn:E; [|done].
    cbn [body]. rewrite list_lookup_alter_ne; [done|]. intros ->. done. }
  destruct (IH Hnd b1 Hb1) as (I1 & I2 & I3 & I4).
  split_and!.
  - done.
  - by rewrite I2.
  - intros c' i [->|Hc']%elem_of_cons Hi.
    + rewrite I4; [by apply Hc1|].
      intros c'' Hc'' Hi''. apply Hc.
      rewrite (Hinj _ _ _ Hi Hi''). apply list_elem_of_fmap. by exists c''.
    + rewrite (I3 c' i Hc' Hi).
      rewrite Hn1; [done|]. intros Hi'. apply Hc.
      rewrite (Hinj _ _ _ Hi' Hi). apply list_elem_of_fmap. by exists c'.
  - intros i Hi. rewrite I4.
    + apply Hn1. apply Hi. by left.
    + intros c' Hc'. apply Hi. by right.
Qed.

(** X11. Rows after a re-ranking.  Take a board built by [buildRows] for
    contestants with distinct handles, then the same contestants (same
    handles) with other ranks and [repositionAll].  Every contestant's
    handle designates a row with that handle, placed at
    (rank - 1) * ROW_H; and when the new ranks are distinct no two rows
    are at the same offset. *)
Theorem X11_rows_follow_ranks (st st' : list Contestant.t) :
  NoDup (Contestant.handle <$> st) →
  Contestant.handle <$> st' = Contestant.handle <$> st →
  (∀ c, c ∈ st' →
     ∃ i, rowEls (repositionAll st' (buildRows st)) !! Contestant.handle c
          = Some i
          ∧ body (repositionAll st' (buildRows st)) !! i
            = Some (Row.mk (Contestant.handle c)
                      ((Contestant.rank c - 1) * ROW_H)))
  ∧ length (body (repositionAll st' (buildRows st))) = length st'
  ∧ (NoDup (Contestant.rank <$> st') →
     NoDup (Row.translateY <$> body (repositionAll st' (buildRows st)))).
Proof.
  intros Hnd Hh.
  assert (∀ h1 h2 i, rowEls (buildRows st) !! h1 = Some i →
                     rowEls (buildRows st) !! h2 = Some i → h1 = h2) as Hinj.
  { intros h1 h2 i H1 H2.
    destruct (buildRows_rowEls_inv st h1 i H1) as (c1 & E1 & <-).
    destruct (buildRows_rowEls_inv st h2 i H2) as (c2 & E2 & <-). congruence. }
  assert (NoDup (Contestant.handle <$> st')) as Hnd' by (by rewrite Hh).
  destruct (repositionAll_spec (rowEls (buildRows st)) st' Hinj Hnd'
              (buildRows st) eq_refl) as (R1 & R2 & R3 & R4).
  assert (∀ c, c ∈ st' →
            ∃ i c0, sort_with byRank st !! i = Some c0
                    ∧ Contestant.handle c0 = Contestant.handle c
                    ∧ rowEls (buildRows st) !! Contestant.handle c = Some i)
    as Hrow.
  { intros c Hc.
    assert (Contestant.handle c ∈ Contestant.handle <$> sort_with byRank st) as Hin.
    { rewrite sort_with_perm, <- Hh. apply list_elem_of_fmap. by exists c. }
    apply list_elem_of_fmap in Hin as (c0 & Hc0 & Hin).
    apply list_elem_of_lookup_1 in Hin as [i Hi].
    exists i, c0. split_and!; [done|done|].
    rewrite Hc0. by apply buildRows_rowEls. }
  assert (∀ c, c ∈ st' →
     ∃ i, rowEls (repositionAll st' (buildRows st)) !! Contestant.handle c
          = Some i
          ∧ body (repositionAll st' (buildRows st)) !! i
            = Some (Row.mk (Contestant.handle c)
                      ((Contestant.rank c - 1) * ROW_H))) as Hrows.
  { intros c Hc. destruct (Hrow c Hc) as (i & c0 & Hi & Hc0 & Hr).
    exists i. rewrite R1. split; [done|].
    pose proof (R3 c i Hc Hr) as Hoff.
    pose proof (f_equal (λ l, l !! i) R2) as Hhd. cbn beta in Hhd.
    rewrite !list_lookup_fmap in Hhd.
    assert (body (buildRows st) !! i
            = Some (Row.mk (Contestant.handle c0)
                      ((Contestant.rank c0 - 1) * ROW_H))) as Hb0
      by (unfold buildRows; cbn [body]; by rewrite list_lookup_fmap, Hi).
    rewrite Hb0 in Hoff, Hhd. cbn in Hoff, Hhd.
    destruct (body (repositionAll st' (buildRows st)) !! i) as [[h y]|];
      [|done].
    cbn in Hoff, Hhd. f_equal. f_equal; congruence. }
  assert (length (body (repositionAll st' (buildRows st))) = length st') as Hlen.
  { rewrite <- (length_fmap Row.handle), R2, length_fmap.
    unfold buildRows. cbn [body].
    rewrite length_fmap, (Permutation_length (sort_with_perm byRank st)).
    by rewrite <- (length_fmap Contestant.handle st), <- Hh, length_fmap. }
  split_and!; [exact Hrows|exact Hlen|].
  intros Hrk. apply NoDup_alt. intros i j y Hi Hj.
  rewrite list_lookup_fmap in Hi, Hj.
  destruct (body (repositionAll st' (buildRows st)) !! i) as [ri|] eqn:Ei;
    [|done].
  destruct (body (repositionAll st' (buildRows st)) !! j) as [rj|] eqn:Ej;
    [|done].
  cbn in Hi, Hj.
  assert (∀ k rk, body (repositionAll st' (buildRows st)) !! k = Some rk →
            ∃ c, c ∈ st'
                 ∧ rowEls (buildRows st) !! Contestant.handle c = Some k
                 ∧ rk = Row.mk (Contestant.handle c)
                          ((Contestant.rank c - 1) * ROW_H)) as Hback.
  { intros k rk Hk.
    assert (is_Some (sort_with byRank st !! k)) as [c0 Hc0].
    { apply lookup_lt_is_Some.
      rewrite (Permutation_length (sort_with_perm byRank st)).
      rewrite <- (length_fmap Contestant.handle st), <- Hh, length_fmap, <- Hlen.
      by eapply lookup_lt_Some. }
    assert (Contestant.handle c0 ∈ Contestant.handle <$> st') as Hin.
    { rewrite Hh, <- (sort_with_perm byRank st). apply list_elem_of_fmap.
      exists c0. split; [done|]. by eapply list_elem_of_lookup_2. }
    apply list_elem_of_fmap in Hin as (c & Hcc & Hc).
    pose proof (buildRows_rowEls st c0 k Hnd Hc0) as Hr. rewrite Hcc in Hr.
    exists c. split_and!; [done|done|].
    destruct (Hrows c Hc) as (k' & Hk' & Hbody). rewrite R1, Hr in Hk'.
    congruence. }
  destruct (Hback i ri Ei) as (ci & Hci & Hri & ->).
  destruct (Hback j rj Ej) as (cj & Hcj & Hrj & ->).
  cbn in Hi, Hj. apply (inj Some) in Hi, Hj.
  assert (Contestant.rank ci = Contestant.rank cj) as Heq
    by (unfold ROW_H in *; lia).
  assert (ci = cj) as ->.
  { apply list_elem_of_lookup_1 in Hci as [a Ha].
    apply list_elem_of_lookup_1 in Hcj as [b Hb].
    assert (a = b) as ->; [|congruence].
    apply (NoDup_lookup _ a b (Contestant.rank ci) Hrk);
      rewrite list_lookup_fmap, ?Ha, ?Hb; cbn; congruence. }
  congruence.
Qed.

(** * Further properties of the clock *)






(** X13. The phases never go back.  A call of the clock outside the live
    and frozen phases changes nothing at all.  From the live phase the
    clock leads to live, frozen or ended, from the frozen phase to frozen
    or ended; the frozen flag, once set, stays set, and a stopped timer is
    not restarted. *)
Theorem X13_phases_never_go_back (now : Z) (k : Clock) :
  (¬ active k → (updateTimerDisplay now k).1 = k)
  ∧ (currentPhase k = Phase.live →
     currentPhase (updateTimerDisplay now k).1 = Phase.live
     ∨ currentPhase (updateTimerDisplay now k).1 = Phase.frozen
     ∨ currentPhase (updateTimerDisplay now k).1 = Phase.ended)
  ∧ (currentPhase k = Phase.frozen →
     currentPhase (updateTimerDisplay now k).1 = Phase.frozen
     ∨ currentPhase (updateTimerDisplay now k).1 = Phase.ended)
  ∧ (isFrozen k = true → isFrozen (updateTimerDisplay now k).1 = true)
  ∧ (timerInterval k = false →
     timerInterval (updateTimerDisplay now k).1 = false)
  ∧ (currentPhase (updateTimerDisplay now k).1 = Phase.ended →
     currentPhase k = Phase.ended
     ∨ timerInterval (updateTimerDisplay now k).1 = false).
Proof.
  unfold active, updateTimerDisplay, enterContestEndedPhase,
    stopContestTimer, enterFrozenPhase.
  destruct k as [ph d f st sc fr ti]. cbn.
  split_and!.
  - intros Hn. destruct ph; try (exfalso; apply Hn; auto; fail);
      destruct fr; cbn; repeat (case_bool_decide; cbn); done.
  - intros ->. destruct fr; cbn; repeat (case_bool_decide; cbn); auto.
  - intros ->. destruct fr; cbn; repeat (case_bool_decide; cbn); auto.
  - intros ->. destruct ph; cbn; repeat (case_bool_decide; cbn); done.
  - intros ->. destruct ph, fr; cbn; repeat (case_bool_decide; cbn); done.
  - destruct ph, fr; cbn; repeat (case_bool_decide; cbn); auto; done.
Qed.

(** * Entering the live phase *)

Lemma elapsed_at_start (now0 elapsed scale : Z) :
  0 < scale → (scale | elapsed * 1000) →
  ((now0 - (now0 - (elapsed * 1000) `div` scale)) * scale) `div` 1000 = elapsed.
Proof.
  intros Hs [q Hq]. rewrite Hq, Z.div_mul by lia.
  replace ((now0 - (now0 - q)) * scale) with (elapsed * 1000) by lia.
  apply Z.div_mul. lia.
Qed.

Lemma updateTimerDisplay_froze now k :
  currentPhase k = Phase.live →
  currentPhase (updateTimerDisplay now k).1 = Phase.frozen →
  Tick.enteredFrozen (updateTimerDisplay now k).2 = true.
Proof.
  unfold updateTimerDisplay, enterContestEndedPhase, stopContestTimer,
    enterFrozenPhase.
  destruct k as [ph d f st sc fr ti]. cbn. intros ->.
  destruct fr; cbn; repeat (case_bool_decide; cbn); done.
Qed.

Lemma updateTimerDisplay_quiet now k :
  elapsedSec now k < freezeAtSec k → elapsedSec now k < contestDurationSec k →
  (updateTimerDisplay now k).1 = k
  ∧ Tick.enteredFrozen (updateTimerDisplay now k).2 = false.
Proof.
  unfold updateTimerDisplay, enterContestEndedPhase, stopContestTimer,
    enterFrozenPhase.
  destruct k as [ph d f st sc fr ti]. cbn. intros H1 H2.
  rewrite (bool_decide_false (_ >= f)) by lia.
  rewrite (bool_decide_false (Z.max 0 _ ≤ 0)) by lia.
  by rewrite andb_false_r.
Qed.

Lemma startContestTimer_fields
    (durationSec freezeAtSecond elapsed scale now0 now1 : Z) (s : Session) :
  let k1 := mkClock (currentPhase (clock s)) durationSec freezeAtSecond
              (now0 - (elapsed * 1000) `div` scale) scale false
              (timerInterval (clock s)) in
  let s1 := (startContestTimer durationSec freezeAtSecond elapsed scale
               now0 now1 s).1 in
  contestDurationSec (clock s1) = durationSec
  ∧ freezeAtSec (clock s1) = freezeAtSecond
  ∧ contestStartTimestamp (clock s1) = now0 - (elapsed * 1000) `div` scale
  ∧ timeScale (clock s1) = scale
  ∧ timerInterval (clock s1) = true
  ∧ currentPhase (clock s1) = currentPhase (updateTimerDisplay now1 k1).1
  ∧ isFrozen (clock s1) = isFrozen (updateTimerDisplay now1 k1).1
  ∧ clock s1
    = mkClock (currentPhase (updateTimerDisplay now1 k1).1) durationSec
        freezeAtSecond (now0 - (elapsed * 1000) `div` scale) scale
        (isFrozen (updateTimerDisplay now1 k1).1) true
  ∧ livePoller s1
    = (if Tick.enteredFrozen (updateTimerDisplay now1 k1).2
          && bool_decide (scale ≤ 1)
       then false else livePoller s).
Proof.
  intros k1 s1.
  destruct (updateTimerDisplay_static now1 k1) as (S1 & S2 & S3 & S4).
  unfold s1, startContestTimer, updateTimerDisplay_session.
  cbv zeta. cbn [fst snd clock livePoller]. fold k1.
  cbn [contestDurationSec freezeAtSec contestStartTimestamp timeScale
       timerInterval currentPhase isFrozen].
  rewrite S1, S2, S3, S4. done.
Qed.

(** X14. Entering the live phase with a positive duration, a positive
    scale that divides [elapsedSec * 1000], and any two clock readings.
    If the contest is already over the board goes straight to the ended
    phase with the timer stopped.  If it is inside the freeze period the
    board is frozen with the timer running, and no poller is started: the
    existing one is cleared at scale 1 and left as it was at a larger
    scale.  Otherwise, when both readings are the same, the board is live
    and not frozen, timer and poller run, and the clock reads [elapsedSec]
    at that moment. *)
Theorem X14_entering_live
    (durationSec freezeAtSecond elapsed scale now0 now1 : Z) (s : Session) :
  0 < durationSec → 0 < scale → (scale | elapsed * 1000) →
  (durationSec ≤ elapsed →
   currentPhase
     (clock (enterLivePhase durationSec freezeAtSecond elapsed scale now0 now1 s))
   = Phase.ended
   ∧ timerInterval
       (clock (enterLivePhase durationSec freezeAtSecond elapsed scale now0 now1 s))
     = false)
  ∧ (elapsed < durationSec → freezeAtSecond ≤ elapsed →
     currentPhase
       (clock (enterLivePhase durationSec freezeAtSecond elapsed scale now0 now1 s))
     = Phase.frozen
     ∧ isFrozen
         (clock (enterLivePhase durationSec freezeAtSecond elapsed scale now0 now1 s))
       = true
     ∧ timerInterval
         (clock (enterLivePhase durationSec freezeAtSecond elapsed scale now0 now1 s))
       = true
     ∧ livePoller
         (enterLivePhase durationSec freezeAtSecond elapsed scale now0 now1 s)
       = (if bool_decide (scale ≤ 1) then false else livePoller s))
  ∧ (elapsed < durationSec → elapsed < freezeAtSecond → now1 = now0 →
     currentPhase
       (clock (enterLivePhase durationSec freezeAtSecond elapsed scale now0 now1 s))
     = Phase.live
     ∧ isFrozen
         (clock (enterLivePhase durationSec freezeAtSecond elapsed scale now0 now1 s))
       = false
     ∧ timerInterval
         (clock (enterLivePhase durationSec freezeAtSecond elapsed scale now0 now1 s))
       = true
     ∧ livePoller
         (enterLivePhase durationSec freezeAtSecond elapsed scale now0 now1 s)
       = true
     ∧ elapsedSec now0
         (clock (enterLivePhase durationSec freezeAtSecond elapsed scale now0 now1 s))
       = elapsed).
Proof.
  intros Hd Hs Hdiv.
  set (s0 := mkSession
               (mkClock Phase.live (contestDurationSec (clock s))
                  (freezeAtSec (clock s)) (contestStartTimestamp (clock s))
                  (timeScale (clock s)) (isFrozen (clock s))
                  (timerInterval (clock s)))
               (livePoller s)).
  destruct (startContestTimer_fields durationSec freezeAtSecond elapsed scale
              now0 now1 s0) as (F1 & F2 & F3 & F4 & F5 & F6 & F7 & F8 & F9).
  assert (enterLivePhase durationSec freezeAtSecond elapsed scale now0 now1 s
          = let s1 := (startContestTimer durationSec freezeAtSecond elapsed
                         scale now0 now1 s0).1 in
            if bool_decide (elapsed >= durationSec) then
              mkSession (enterContestEndedPhase (stopContestTimer (clock s1)))
                (livePoller s1)
            else if bool_decide (elapsed >= freezeAtSecond) then
              enterFrozenPhase_session
                (mkSession
                   (mkClock (currentPhase (clock s1))
                      (contestDurationSec (clock s1)) (freezeAtSec (clock s1))
                      (contestStartTimestamp (clock s1)) (timeScale (clock s1))
                      true (timerInterval (clock s1)))
                   (livePoller s1))
            else mkSession (clock s1) true) as ->.
  { unfold enterLivePhase. fold s0. by rewrite bool_decide_true by lia. }
  cbv zeta.
  set (s1 := (startContestTimer durationSec freezeAtSecond elapsed scale
                now0 now1 s0).1) in *.
  clearbody s1. unfold s0 in F6, F7, F8, F9. clear s0.
  cbn [clock currentPhase timerInterval livePoller] in F6, F7, F8, F9.
  set (k1 := mkClock Phase.live durationSec freezeAtSecond
               (now0 - (elapsed * 1000) `div` scale) scale false
               (timerInterval (clock s))) in *.
  split_and!.
  - intros Hover. rewrite bool_decide_true by lia. done.
  - intros Hlt Hfz.
    rewrite bool_decide_false, bool_decide_true by lia.
    unfold enterFrozenPhase_session. cbn [clock livePoller currentPhase timeScale].
    destruct (decide (currentPhase (clock s1) = Phase.frozen)) as [Hph|Hph].
    + rewrite !(bool_decide_true (currentPhase (clock s1) = Phase.frozen))
        by done.
      cbn [clock livePoller currentPhase isFrozen timerInterval].
      split_and!; [done..|].
      rewrite F9.
      rewrite F6 in Hph.
      rewrite (updateTimerDisplay_froze now1 k1 eq_refl Hph).
      by destruct (bool_decide (scale ≤ 1)).
    + rewrite !(bool_decide_false (currentPhase (clock s1) = Phase.frozen))
        by done.
      cbn [clock livePoller]. unfold enterFrozenPhase.
      cbn [currentPhase isFrozen timerInterval].
      rewrite !(bool_decide_false (currentPhase (clock s1) = Phase.frozen))
        by done.
      cbn [currentPhase isFrozen timerInterval].
      split_and!; [done..|].
      rewrite F4, F9. destruct (bool_decide (scale ≤ 1)); [done|].
      by rewrite andb_false_r.
  - intros Hlt Hfz ->.
    rewrite !bool_decide_false by lia. cbn [clock livePoller].
    assert (elapsedSec now0 k1 = elapsed) as He.
    { unfold elapsedSec, k1. cbn [contestStartTimestamp timeScale].
      by apply elapsed_at_start. }
    destruct (updateTimerDisplay_quiet now0 k1) as [Q1 Q2].
    { rewrite He. unfold k1. cbn [freezeAtSec]. lia. }
    { rewrite He. unfold k1. cbn [contestDurationSec]. lia. }
    rewrite Q1 in F6, F7.
    split_and!; [by rewrite F6|by rewrite F7|done|done|].
    unfold elapsedSec. rewrite F3, F4. by apply elapsed_at_start.
Qed.

(** * Automatic play *)

Lemma iter_steps_rest (n : nat) :
  ∀ r, processing r = false → revealFinished r = false →
       (n ≤ length (queue r))%nat →
       queue (Nat.iter n nextSubmission r) = drop n (queue r)
       ∧ processing (Nat.iter n nextSubmission r) = false
       ∧ revealFinished (Nat.iter n nextSubmission r) = false.
Proof.
  induction n as [|n IH]; intros r H1 H2 Hn.
  { cbn. by rewrite drop_0. }
  rewrite Nat.iter_succ_r.
  destruct (nextSubmission_cases r)
    as [[_ [Hp|Hf]]|[[_ [Hq _]]|(sub & q & Hq & _ & _ & Hq' & _ & Hp' & Hf')]];
    [congruence..| |].
  - rewrite Hq in Hn. cbn in Hn. lia.
  - rewrite Hq in Hn. cbn in Hn.
    destruct (IH (nextSubmission r) Hp' Hf') as (E1 & E2 & E3).
    { rewrite Hq'. lia. }
    rewrite E1, Hq', Hq. done.
Qed.

Lemma autoTick_unpaused (n : nat) :
  ∀ r, processing r = false → revealFinished r = false →
       (length (queue r) < n)%nat →
       autoTick (replicate n false) (mkPlayer r true)
       = mkPlayer (finishReveal (Nat.iter (length (queue r)) nextSubmission r))
           false.
Proof.
  induction n as [|n IH]; intros r H1 H2 Hn; [lia|].
  cbn [replicate autoTick playing reveal negb orb stopAuto].
  destruct (nextSubmission_cases r)
    as [[_ [Hp|Hf]]|[[_ [Hq _]]|(sub & q & Hq & _ & _ & Hq' & _ & Hp' & Hf')]];
    [congruence..| |].
  - rewrite !bool_decide_true by done. rewrite Hq. done.
  - rewrite !bool_decide_false by (rewrite Hq; done).
    rewrite (IH _ Hp' Hf') by (rewrite Hq'; rewrite Hq in Hn; cbn in Hn; lia).
    rewrite Hq', Hq. cbn [length]. by rewrite Nat.iter_succ_r.
Qed.

Lemma autoTick_paused (k : nat) (rest : list bool) :
  ∀ r, processing r = false → revealFinished r = false →
       (k < length (queue r))%nat →
       autoTick (replicate k false ++ true :: rest) (mkPlayer r true)
       = mkPlayer (Nat.iter (S k) nextSubmission r) false.
Proof.
  induction k as [|k IH]; intros r H1 H2 Hk.
  - cbn [replicate app autoTick playing reveal negb orb stopAuto].
    rewrite bool_decide_false; [done|].
    intros Hq. rewrite Hq in Hk. cbn in Hk. lia.
  - cbn [replicate app autoTick playing reveal negb orb stopAuto].
    destruct (nextSubmission_cases r)
      as [[_ [Hp|Hf]]|[[_ [Hq _]]|(sub & q & Hq & _ & _ & Hq' & _ & Hp' & Hf')]];
      [congruence..| |].
    + rewrite Hq in Hk. cbn in Hk. lia.
    + rewrite bool_decide_false by (rewrite Hq; done).
      rewrite (IH _ Hp' Hf') by (rewrite Hq'; rewrite Hq in Hk; cbn in Hk; lia).
      by rewrite (Nat.iter_succ_r (S k)).
Qed.

(** X15. Automatic play, started at rest on a reveal that is not
    finished.  Left alone for more turns than the queue is long, it ends
    in the state step mode reaches with one call per submission and the
    finishing call, and has stopped playing.  Paused during its
    [k+1]-th turn, it completes that step and no other: exactly [k+1]
    submissions have been taken, the rest of the queue is untouched, the
    reveal is not marked finished (even when that step emptied the queue)
    and no step is left in flight.  Pressed while playing, it only
    stops. *)
Theorem X15_autoplay (r : Reveal) :
  processing r = false → revealFinished r = false →
  (∀ n, (length (queue r) < n)%nat →
        autoPlay (replicate n false) (mkPlayer r false)
        = mkPlayer (stepAll r) false)
  ∧ (∀ k rest, (k < length (queue r))%nat →
        autoPlay (replicate k false ++ true :: rest) (mkPlayer r false)
        = mkPlayer (Nat.iter (S k) nextSubmission r) false
        ∧ queue (Nat.iter (S k) nextSubmission r) = drop (S k) (queue r)
        ∧ revealFinished (Nat.iter (S k) nextSubmission r) = false
        ∧ processing (Nat.iter (S k) nextSubmission r) = false)
  ∧ (∀ pauses, autoPlay pauses (mkPlayer r true) = mkPlayer r false).
Proof.
  intros H1 H2. split_and!.
  - intros n Hn. unfold autoPlay. cbn [playing reveal].
    rewrite autoTick_unpaused by done. by rewrite stepAll_fields.
  - intros k rest Hk. unfold autoPlay. cbn [playing reveal].
    rewrite autoTick_paused by done.
    destruct (iter_steps_rest (S k) r H1 H2 ltac:(lia)) as (E1 & E2 & E3).
    done.
  - done.
Qed.

(** * Times as text *)

Lemma padStart2_pretty (n : Z) :
  0 ≤ n < 100 → padStart2 (pretty n) = two_digits n.
Proof.
  intros Hn.
  assert (Forall (λ n, padStart2 (pretty n) = two_digits n) (seqZ 0 100)) as Hall.
  { apply (bool_decide_unpack
             (Forall (λ n, padStart2 (pretty n) = two_digits n) (seqZ 0 100))).
    vm_compute. exact I. }
  rewrite Forall_forall in Hall. apply Hall, elem_of_seqZ. lia.
Qed.

Lemma digit_inj (a b : Z) :
  0 ≤ a < 10 → 0 ≤ b < 10 → digit a = digit b → a = b.
Proof.
  intros Ha Hb H. unfold digit in H.
  apply pretty_N_char_inj in H; lia.
Qed.

Lemma two_digits_inj (a b : Z) :
  0 ≤ a < 100 → 0 ≤ b < 100 → two_digits a = two_digits b → a = b.
Proof.
  intros Ha Hb H. unfold two_digits in H. injection H as H1 H2.
  apply digit_inj in H1; [|div_lia..]. apply digit_inj in H2; [|div_lia..].
  div_lia.
Qed.

Lemma formatTime_digits (seconds : Z) :
  0 ≤ seconds < 360000 →
  formatTime seconds
  = two_digits (seconds `div` 3600) +:+ ":"
    +:+ two_digits ((seconds `mod` 3600) `div` 60) +:+ ":"
    +:+ two_digits (seconds `mod` 60).
Proof.
  intros Hs. unfold formatTime. rewrite bool_decide_false by lia.
  rewrite !Z.rem_mod_nonneg by lia.
  rewrite !padStart2_pretty; [done|div_lia..].
Qed.

(** X16. The countdown as text.  A time that is zero or negative is shown
    as 00:00:00.  Below one hundred hours the text has exactly eight
    characters, and two different times are never shown the same. *)
Theorem X16_countdown_text :
  (∀ seconds, seconds ≤ 0 → formatTime seconds = "00:00:00")
  ∧ (∀ seconds, 0 ≤ seconds < 360000 →
       String.length (formatTime seconds) = 8%nat)
  ∧ (∀ a b, 0 ≤ a < 360000 → 0 ≤ b < 360000 →
       formatTime a = formatTime b → a = b).
Proof.
  split_and!.
  - intros seconds Hs. unfold formatTime.
    case_bool_decide; [done|]. by replace seconds with 0 by lia.
  - intros seconds Hs. by rewrite formatTime_digits.
  - intros a b Ha Hb H. rewrite !formatTime_digits in H by done.
    unfold two_digits in H. cbn in H.
    injection H as D1 D2 D3 D4 D5 D6.
    assert (a `div` 3600 = b `div` 3600) as E1.
    { apply two_digits_inj; [div_lia..|]. unfold two_digits. by rewrite D1, D2. }
    assert ((a `mod` 3600) `div` 60 = (b `mod` 3600) `div` 60) as E2.
    { apply two_digits_inj; [div_lia..|]. unfold two_digits. by rewrite D3, D4. }
    assert (a `mod` 60 = b `mod` 60) as E3.
    { apply two_digits_inj; [div_lia..|]. unfold two_digits. by rewrite D5, D6. }
    div_lia.
Qed.

(** X17. The time of a solved problem as text.  For a time from zero to
    below one hundred hours the label has exactly five characters, it is
    the countdown text of the same time without its seconds, and two
    times get the same label exactly when they fall in the same
    minute. *)
Theorem X17_solve_time_label :
  (∀ sec, 0 ≤ sec < 360000 → String.length (fmtTime sec) = 5%nat)
  ∧ (∀ sec, 0 ≤ sec < 360000 →
       formatTime sec
       = fmtTime sec +:+ ":" +:+ two_digits (sec `mod` 60))
  ∧ (∀ a b, 0 ≤ a < 360000 → 0 ≤ b < 360000 →
       (fmtTime a = fmtTime b ↔ a `div` 60 = b `div` 60)).
Proof.
  assert (∀ sec, 0 ≤ sec < 360000 →
            fmtTime sec = two_digits (sec `div` 3600) +:+ ":"
                          +:+ two_digits ((sec `mod` 3600) `div` 60)) as Hd.
  { intros sec Hs. unfold fmtTime. rewrite Z.rem_mod_nonneg by lia.
    rewrite !padStart2_pretty; [done|div_lia..]. }
  split_and!.
  - intros sec Hs. by rewrite Hd.
  - intros sec Hs. rewrite formatTime_digits, Hd by done. done.
  - intros a b Ha Hb. rewrite !Hd by done. split.
    + intros H. unfold two_digits in H. cbn in H.
      injection H as D1 D2 D3 D4.
      assert (a `div` 3600 = b `div` 3600) as E1.
      { apply two_digits_inj; [div_lia..|]. unfold two_digits. by rewrite D1, D2. }
      assert ((a `mod` 3600) `div` 60 = (b `mod` 3600) `div` 60) as E2.
      { apply two_digits_inj; [div_lia..|]. unfold two_digits. by rewrite D3, D4. }
      div_lia.
    + intros H.
      assert (a `div` 3600 = b `div` 3600) as -> by div_lia.
      assert ((a `mod` 3600) `div` 60 = (b `mod` 3600) `div` 60) as ->; [|done].
      div_lia.
Qed.

(** ** The further properties at concrete inputs *)

Lemma X2_final_statistics_witness :
  processing reveal_overtake = false
  ∧ revealFinished reveal_overtake = false
  ∧ revealed (revealAll true reveal_overtake)
    = revealed reveal_overtake + Z.of_nat (length (queue reveal_overtake))
  ∧ acceptedCount (stepAll reveal_overtake)
    = acceptedCount reveal_overtake
      + Z.of_nat (length (filter (scoring (state reveal_overtake))
                            (queue reveal_overtake))).
Proof.
  assert (processing reveal_overtake = false) as H1 by (vm_compute; reflexivity).
  assert (revealFinished reveal_overtake = false) as H2
    by (vm_compute; reflexivity).
  destruct (X2_final_statistics reveal_overtake H1 H2) as (S1 & _ & _ & S4 & _).
  split_and!; [exact H1|exact H2|exact S1|exact S4].
Defined.

Lemma X3_final_scores_witness :
  processing reveal_754 = false
  ∧ revealFinished reveal_754 = false
  ∧ state reveal_754 !! 1%nat = Some (Contestant.mk "B" 2 1 50 2 1 50 ∅ 0)
  ∧ (Contestant.penalty <$> state (revealAll true reveal_754)) !! 1%nat
    = Some (50 + total_penalty
                   (filter (scored_by (state reveal_754) 1) (queue reveal_754)))
  ∧ (Contestant.solved <$> state (stepAll reveal_754)) !! 1%nat
    = Some (1 + Z.of_nat
                  (length (filter (scored_by (state reveal_754) 1)
                             (queue reveal_754)))).
Proof.
  assert (processing reveal_754 = false) as H1 by (vm_compute; reflexivity).
  assert (revealFinished reveal_754 = false) as H2 by (vm_compute; reflexivity).
  assert (state reveal_754 !! 1%nat
          = Some (Contestant.mk "B" 2 1 50 2 1 50 ∅ 0)) as H3
    by (vm_compute; reflexivity).
  destruct (X3_final_scores reveal_754 1 (Contestant.mk "B" 2 1 50 2 1 50 ∅ 0)
              H1 H2 H3) as (_ & S2 & S3 & _).
  split_and!; [exact H1|exact H2|exact H3|exact S2|exact S3].
Defined.

Lemma X4_persistence_is_maximum_witness :
  processing reveal_two_failures = false
  ∧ revealFinished reveal_two_failures = false
  ∧ candidate_is_max reveal_two_failures
  ∧ candidate_is_max (stepAll reveal_two_failures)
  ∧ candidate_is_max (revealAll true reveal_two_failures).
Proof.
  assert (processing reveal_two_failures = false) as H1
    by (vm_compute; reflexivity).
  assert (revealFinished reveal_two_failures = false) as H2
    by (vm_compute; reflexivity).
  assert (candidate_is_max reveal_two_failures) as H3.
  { split; [intros k|]; vm_compute; [discriminate|reflexivity]. }
  destruct (X4_persistence_is_maximum reveal_two_failures H1 H2 H3)
    as ((S1 & _) & (S2 & _)).
  split_and!; [exact H1|exact H2|exact H3|exact S2|exact S1].
Defined.

Lemma X5_last_minute_candidate_witness :
  processing reveal_overtake = false
  ∧ revealFinished reveal_overtake = false
  ∧ lastMinuteHero (stepAll reveal_overtake)
    = from_option hero_of (lastMinuteHero reveal_overtake)
        (last (filter (scoring (state reveal_overtake)) (queue reveal_overtake))).
Proof.
  assert (processing reveal_overtake = false) as H1 by (vm_compute; reflexivity).
  assert (revealFinished reveal_overtake = false) as H2
    by (vm_compute; reflexivity).
  destruct (X5_last_minute_candidate reveal_overtake H1 H2) as (S1 & _).
  split_and!; [exact H1|exact H2|exact S1].
Defined.

Lemma X7_rank_is_count_witness :
  state reveal_overtake !! 1%nat = Some (Contestant.mk "B" 2 1 50 2 1 50 ∅ 0)
  ∧ Contestant.rank (recalcRanks (state reveal_overtake) !!! 1%nat)
    = Z.of_nat (length (placed_before (state reveal_overtake) 1
                          (Contestant.mk "B" 2 1 50 2 1 50 ∅ 0))) + 1.
Proof.
  assert (state reveal_overtake !! 1%nat
          = Some (Contestant.mk "B" 2 1 50 2 1 50 ∅ 0)) as Ha
    by (vm_compute; reflexivity).
  split; [exact Ha|].
  exact (X7_rank_is_count (state reveal_overtake) 1
           (Contestant.mk "B" 2 1 50 2 1 50 ∅ 0) Ha).
Defined.

Lemma X8_acceptance_moves_ranks_witness :
  processing reveal_overtake = false
  ∧ revealFinished reveal_overtake = false
  ∧ queue reveal_overtake = sub_C_solves_B :: [sub_A_solves_C]
  ∧ find_contestant (Submission.handle sub_C_solves_B) (state reveal_overtake)
    = Some (2%nat, Contestant.mk "C" 3 1 60 3 1 60 ∅ 0)
  ∧ is_OK sub_C_solves_B = true
  ∧ Contestant.rank <$> recalcRanks (state reveal_overtake)
    = Contestant.rank <$> state reveal_overtake
  ∧ Contestant.rank (state (nextSubmission reveal_overtake) !!! 2%nat) ≤ 3
  ∧ Contestant.rank (state (nextSubmission reveal_overtake) !!! 1%nat) ≤ 2 + 1.
Proof.
  assert (processing reveal_overtake = false) as H1 by (vm_compute; reflexivity).
  assert (revealFinished reveal_overtake = false) as H2
    by (vm_compute; reflexivity).
  assert (queue reveal_overtake = sub_C_solves_B :: [sub_A_solves_C]) as Hq
    by (vm_compute; reflexivity).
  assert (find_contestant (Submission.handle sub_C_solves_B)
            (state reveal_overtake)
          = Some (2%nat, Contestant.mk "C" 3 1 60 3 1 60 ∅ 0)) as Hf
    by (vm_compute; reflexivity).
  assert (is_OK sub_C_solves_B = true) as Hok by (vm_compute; reflexivity).
  assert (Contestant.rank <$> recalcRanks (state reveal_overtake)
          = Contestant.rank <$> state reveal_overtake) as Hr
    by (vm_compute; reflexivity).
  assert (state reveal_overtake !! 1%nat
          = Some (Contestant.mk "B" 2 1 50 2 1 50 ∅ 0)) as Hb
    by (vm_compute; reflexivity).
  destruct (X8_acceptance_moves_ranks reveal_overtake sub_C_solves_B
              [sub_A_solves_C] 2 (Contestant.mk "C" 3 1 60 3 1 60 ∅ 0)
              H1 H2 Hq Hf Hok Hr) as (S1 & S2).
  split_and!; [exact H1|exact H2|exact Hq|exact Hf|exact Hok|exact Hr|exact S1|].
  destruct (S2 1%nat (Contestant.mk "B" 2 1 50 2 1 50 ∅ 0)) as (_ & S3);
    [discriminate|exact Hb|exact S3].
Defined.

Lemma X11_rows_follow_ranks_witness :
  NoDup (Contestant.handle <$> state reveal_overtake)
  ∧ Contestant.handle <$> state (stepAll reveal_overtake)
    = Contestant.handle <$> state reveal_overtake
  ∧ length (body (repositionAll (state (stepAll reveal_overtake))
                    (buildRows (state reveal_overtake))))
    = length (state (stepAll reveal_overtake)).
Proof.
  assert (NoDup (Contestant.handle <$> state reveal_overtake)) as H1.
  { apply (bool_decide_unpack
             (NoDup (Contestant.handle <$> state reveal_overtake))).
    vm_compute. exact I. }
  assert (Contestant.handle <$> state (stepAll reveal_overtake)
          = Contestant.handle <$> state reveal_overtake) as H2
    by (vm_compute; reflexivity).
  destruct (X11_rows_follow_ranks (state reveal_overtake)
              (state (stepAll reveal_overtake)) H1 H2) as (_ & S2 & _).
  split_and!; [exact H1|exact H2|exact S2].
Defined.

Lemma X14_entering_live_witness :
  0 < 18000 ∧ 0 < 1 ∧ (1 | 15000 * 1000)
  ∧ currentPhase
      (clock (enterLivePhase 18000 14400 15000 1 0 0
                (mkSession clock_five_hours true)))
    = Phase.frozen
  ∧ livePoller
      (enterLivePhase 18000 14400 15000 1 0 0 (mkSession clock_five_hours true))
    = false.
Proof.
  assert (0 < 18000) as H1 by lia.
  assert (0 < 1) as H2 by lia.
  assert ((1 | 15000 * 1000)) as H3 by (exists 15000000; reflexivity).
  destruct (X14_entering_live 18000 14400 15000 1 0 0
              (mkSession clock_five_hours true) H1 H2 H3) as (_ & S2 & _).
  destruct S2 as (P1 & _ & _ & P4); [lia|lia|].
  split_and!; [exact H1|exact H2|exact H3|exact P1|exact P4].
Defined.

Lemma X15_autoplay_witness :
  processing reveal_overtake = false
  ∧ revealFinished reveal_overtake = false
  ∧ autoPlay (replicate 3 false) (mkPlayer reveal_overtake false)
    = mkPlayer (stepAll reveal_overtake) false
  ∧ autoPlay (replicate 0 false ++ true :: [false])
      (mkPlayer reveal_overtake false)
    = mkPlayer (Nat.iter 1 nextSubmission reveal_overtake) false.
Proof.
  assert (processing reveal_overtake = false) as H1 by (vm_compute; reflexivity).
  assert (revealFinished reveal_overtake = false) as H2
    by (vm_compute; reflexivity).
  assert (length (queue reveal_overtake) = 2%nat) as Hl
    by (vm_compute; reflexivity).
  destruct (X15_autoplay reveal_overtake H1 H2) as (S1 & S2 & _).
  split_and!; [exact H1|exact H2| |].
  - assert (length (queue reveal_overtake) < 3)%nat as Hn by (rewrite Hl; lia).
    exact (S1 3%nat Hn).
  - assert (0 < length (queue reveal_overtake))%nat as Hn by (rewrite Hl; lia).
    destruct (S2 0%nat [false] Hn) as (S3 & _). exact S3.
Defined.
